(** * decodense: atom-, fragment- and bond-wise decomposition of mean-field
      properties

    A shallow embedding of [decodense/properties.py], [decodense/decodense.py]
    and of the guards of [decodense/pbctools.py].

    Conventions of the embedding
    - a numpy array of floats is a function from its (bounded) indices to an
      exact field [R] (a [numFieldType]); every identity below is an identity
      of exact arithmetic, rounding is not modelled;
    - [np.sum] and [contract] (an [einsum]) are big sums over the summed
      indices;
    - a Python exception is a [Raise] result;
    - what PySCF computes (integrals, Coulomb and exchange operators, grids,
      xc energy densities, distances) is a field of a record or a variable.

    Part I holds the definitions, Part II the theorems. *)

From HB Require Import structures.
From Stdlib Require Import String.
From mathcomp Require Import boot order algebra.

Unset Printing Implicit Defensive.

Import GRing.Theory Num.Theory.
Local Open Scope ring_scope.

(** * Part I: the program *)

(** ** Python results *)

Inductive exn : Type :=
| KeyError (key : string)
| NameError (name : string)
| IndexError
| ValueError
| TypeError
| AttributeError
| ZeroDivisionError
| NotImplementedError.

Inductive result (T : Type) : Type :=
| Ok (x : T)
| Raise (e : exn).

Arguments Ok {T} x.
Arguments Raise {T} e.

Definition bind {T U : Type} (r : result T) (k : T -> result U) : result U :=
  match r with
  | Ok x => k x
  | Raise e => Raise e
  end.

Notation "'let*' x ':=' r 'in' k" := (bind r (fun x => k))
  (at level 200, x name, r at level 100, k at level 200, right associativity).

Definition is_ok {T : Type} (r : result T) : bool :=
  if r is Ok _ then true else false.

(** [enumerate(l)] *)
Definition enumerate {T : Type} (l : seq T) : seq (nat * T) :=
  zip (iota 0 (size l)) l.

(** [l[k]] on a Python list or on the first axis of an array. *)
Definition getitem {T : Type} (l : seq T) (k : nat) : result T :=
  if nth None (map Some l) k is Some x then Ok x else Raise IndexError.

(** [l[k] = x] *)
Definition setitem {T : Type} (l : seq T) (k : nat) (x : T) : result (seq T) :=
  if (k < size l)%N then Ok (set_nth x l k x) else Raise IndexError.

(** The two spin channels, the indices 0 and 1 of every spin axis. *)
Inductive spin : Type := Alpha | Beta.

Definition spin_index (s : spin) : nat := if s is Alpha then 0%N else 1%N.

(** ** Arrays and the shared numeric primitives *)

Section Arrays.

Variable R : numFieldType.

(** 1-, 2- and 3-dimensional arrays. *)
Definition vec (n : nat) : Type := 'I_n -> R.
Definition mat (m n : nat) : Type := 'I_m -> 'I_n -> R.
Definition stack (k m n : nat) : Type := 'I_k -> mat m n.

(** The literal [.5]. *)
Definition half : R := 2%:R^-1.

(** [np.zeros_like] of a matrix. *)
Definition zeros {m n : nat} : mat m n := fun _ _ => 0.

(** [np.sum(a, axis=0)] of the two-spin stack [a]. *)
Definition spin_sum {m n : nat} (a : spin -> mat m n) : mat m n :=
  fun i j => a Alpha i j + a Beta i j.

(** [a[select]]: the rows of [a] listed in [select]. *)
Definition take_rows {m n : nat} (select : seq 'I_m) (a : mat m n) :
  mat (size select) n :=
  fun r j => a (tnth (in_tuple select) r) j.

(** [a[:, select]]: the columns of [a] listed in [select]. *)
Definition take_cols {m n : nat} (select : seq 'I_n) (a : mat m n) :
  mat m (size select) :=
  fun i c => a i (tnth (in_tuple select) c).

(** [_trace(op, rdm1, scaling)] for [op.ndim == 2]:
    [contract('ij,ij', op, rdm1) * scaling]. *)
Definition _trace {m n : nat} (op rdm1 : mat m n) (scaling : R) : R :=
  (\sum_i \sum_j op i j * rdm1 i j) * scaling.

(** [_trace] for a stack of operators:
    [contract('xij,ij->x', op, rdm1) * scaling]. *)
Definition _trace_x {k m n : nat} (op : stack k m n) (rdm1 : mat m n)
  (scaling : R) : vec k :=
  fun x => (\sum_i \sum_j op x i j * rdm1 i j) * scaling.

(** Modelled from the spec: [make_rdm1] of [decodense/tools.py], which is not
    among the sources: the occupation-weighted sum of the outer products of
    the orbital coefficients, [contract('ip,jp->ij', occup * mo, mo)]. *)
Definition make_rdm1 {nao n : nat} (mo : mat nao n) (occup : vec n) :
  mat nao nao :=
  fun i j => \sum_p (occup p * mo i p) * mo j p.

(** [mo[:, j].reshape(mo.shape[0], -1)]: the column [j] as a matrix. *)
Definition orbital {nao n : nat} (mo : mat nao n) (j : 'I_n) : mat nao 1 :=
  fun i _ => mo i j.

(** The density of the single orbital [j]:
    [make_rdm1(orb, mo_occ[j])]. *)
Definition rdm1_of_orbital {nao n : nat} (mo : mat nao n) (occup : vec n)
  (j : 'I_n) : mat nao nao :=
  make_rdm1 (orbital mo j) (fun _ => occup j).

(** Values held by the result dictionaries: a float in energy mode, a
    Cartesian 3-vector in dipole mode. *)
Inductive value : Type :=
| Scalar (x : R)
| Vector (v : vec 3).

(** [+], [-] (unary) on values, with numpy's broadcasting of a scalar. *)
Definition vadd (a b : value) : value :=
  match a, b with
  | Scalar x, Scalar y => Scalar (x + y)
  | Scalar x, Vector v => Vector (fun c => x + v c)
  | Vector u, Scalar y => Vector (fun c => u c + y)
  | Vector u, Vector v => Vector (fun c => u c + v c)
  end.

Definition vopp (a : value) : value :=
  match a with
  | Scalar x => Scalar (- x)
  | Vector v => Vector (fun c => - v c)
  end.

End Arrays.

Arguments half {R}.
Arguments zeros {R m n}.
Arguments spin_sum {R m n} a.
Arguments take_rows {R m n} select a.
Arguments take_cols {R m n} select a.
Arguments _trace {R m n} op rdm1 scaling.
Arguments _trace_x {R k m n} op rdm1 scaling.
Arguments make_rdm1 {R nao n} mo occup.
Arguments orbital {R nao n} mo j.
Arguments rdm1_of_orbital {R nao n} mo occup j.
Arguments Scalar {R} x.
Arguments Vector {R} v.
Arguments vadd {R} a b.
Arguments vopp {R} a.

(** ** Result dictionaries *)

(** The component names. *)
Inductive comp_key : Type :=
| coul | exch | kin | nuc_att | xc | solvent | el | struct.

Definition key_name (k : comp_key) : string :=
  match k with
  | coul => "coul" | exch => "exch" | kin => "kin" | nuc_att => "nuc_att"
  | xc => "xc" | solvent => "solvent" | el => "el" | struct => "struct"
  end.

Definition key_code (k : comp_key) : nat :=
  match k with
  | coul => 0 | exch => 1 | kin => 2 | nuc_att => 3
  | xc => 4 | solvent => 5 | el => 6 | struct => 7
  end.

Definition key_eqb (k1 k2 : comp_key) : bool :=
  Nat.eqb (key_code k1) (key_code k2).

(** Modelled from the spec: [COMP_KEYS] of [decodense/decomp.py], which is not
    among the sources: the names of the components of the result structure.
    The electronic total and the structural term come last, as the slices
    [COMP_KEYS[:-2]] and [COMP_KEYS[-2:]] of the kernels require. *)
Definition COMP_KEYS : seq comp_key :=
  [:: coul; exch; kin; nuc_att; xc; solvent; el; struct].

(** [COMP_KEYS[:-2]] and [COMP_KEYS[-2:]] *)
Definition COMP_KEYS_el : seq comp_key := take (size COMP_KEYS - 2) COMP_KEYS.
Definition COMP_KEYS_tot : seq comp_key := drop (size COMP_KEYS - 2) COMP_KEYS.

Section Dicts.

Variable V : Type.

(** A [dict] with component names as keys, in insertion order. *)
Definition dict : Type := seq (comp_key * V).

(** [d[k]] *)
Fixpoint dict_get (k : comp_key) (d : dict) : result V :=
  match d with
  | [::] => Raise (KeyError (key_name k))
  | (k', v) :: d' => if key_eqb k k' then Ok v else dict_get k d'
  end.

(** [d[k] = v] *)
Fixpoint dict_set (k : comp_key) (v : V) (d : dict) : dict :=
  match d with
  | [::] => [:: (k, v)]
  | (k', v') :: d' =>
      if key_eqb k k' then (k, v) :: d' else (k', v') :: dict_set k v d'
  end.

(** [{key: v for key in keys}] *)
Definition dict_init (keys : seq comp_key) (v : V) : dict :=
  foldl (fun d k => dict_set k v d) [::] keys.

End Dicts.

Arguments dict_get {V} k d.
Arguments dict_set {V} k v d.
Arguments dict_init {V} keys v.

Section DictUpdates.

Variable R : numFieldType.

(** [d[k] += v] and [d[k] -= v]: the entry is read first. *)
Definition dict_iadd (k : comp_key) (v : value R) (d : dict (value R)) :
  result (dict (value R)) :=
  let* x := dict_get k d in Ok (dict_set k (vadd x v) d).

Definition dict_isub (k : comp_key) (v : value R) (d : dict (value R)) :
  result (dict (value R)) :=
  let* x := dict_get k d in Ok (dict_set k (vadd x (vopp v)) d).

End DictUpdates.

Arguments dict_iadd {R} k v d.
Arguments dict_isub {R} k v d.

(** ** Molecules and the structural (nuclear) terms *)

Section Nuclear.

Variable R : numFieldType.

(** The atoms of a [gto.Mole]: [natm], [atom_charges()], [atom_coords()], and
    PySCF's [gto.inter_distance] of them. *)
Record Mole : Type := MkMole {
  natm : nat;
  atom_charges : vec R natm;
  atom_coords : 'I_natm -> vec R 3;
  inter_distance : mat R natm natm
}.

(** [lib.norm] of a Cartesian vector is PySCF's. *)
Variable norm : vec R 3 -> R.

(** The literal [1e200] written on the diagonal of the distance matrix. *)
Definition self_dist : R := 10%:R ^+ 200.

(** [dist = gto.inter_distance(mol)] followed by
    [dist[np.diag_indices_from(dist)] = 1e200] *)
Definition dist (mol : Mole) : mat R (natm mol) (natm mol) :=
  fun i j => if i == j then self_dist else inter_distance mol i j.

(** [_e_nuc(mol, mm_mol)] *)
Definition _e_nuc (mol : Mole) (mm_mol : option Mole) : vec R (natm mol) :=
  let coords := atom_coords mol in
  let charges := atom_charges mol in
  let e_nuc : vec R (natm mol) :=
    fun i => (\sum_j charges i * (dist mol i j)^-1 * charges j) * half in
  match mm_mol with
  | None => e_nuc
  | Some mm =>
      let mm_coords := atom_coords mm in
      let mm_charges := atom_charges mm in
      fun j =>
        let q2 := charges j in
        let r2 := coords j in
        let r : vec R (natm mm) :=
          fun k => norm (fun x => r2 x - mm_coords k x) in
        e_nuc j + q2 * \sum_k mm_charges k / r k
  end.

(** [_dip_nuc(mol)]: [contract('i,ix->ix', charges, coords)]. *)
Definition _dip_nuc (mol : Mole) : 'I_(natm mol) -> vec R 3 :=
  fun i x => atom_charges mol i * atom_coords mol i x.

(** The repulsion of the two nuclei [a] and [b]. *)
Definition pair_repulsion (mol : Mole) (a b : 'I_(natm mol)) : R :=
  atom_charges mol a * atom_charges mol b / inter_distance mol a b.

(** The structural entry of atom [a] in the words of the specification: one
    half of the sum, over the other atoms, of the pair repulsions. *)
Definition spec_e_nuc (mol : Mole) (a : 'I_(natm mol)) : R :=
  half * \sum_(b < natm mol | b != a) pair_repulsion mol a b.

(** The total nuclear repulsion: every pair of distinct nuclei once. *)
Definition e_nuc_total (mol : Mole) : R :=
  \sum_(a < natm mol) \sum_(b < natm mol | (a < b)%N) pair_repulsion mol a b.

(** What the [1e200] diagonal leaves of the self term of atom [a]. *)
Definition self_residue (mol : Mole) (a : 'I_(natm mol)) : R :=
  half * (atom_charges mol a ^+ 2 / self_dist).

(** The tolerance of the specification for the conservation of the nuclear
    repulsion, [1e-10]. *)
Definition tolerance : R := (10%:R ^+ 10)^-1.

End Nuclear.

Arguments natm {R} m.
Arguments atom_charges {R} m _.
Arguments atom_coords {R} m _ _.
Arguments inter_distance {R} m _ _.
Arguments self_dist {R}.
Arguments dist {R} mol _ _.
Arguments _e_nuc {R} norm mol mm_mol _.
Arguments _dip_nuc {R} mol _ _.
Arguments pair_repulsion {R} mol a b.
Arguments spec_e_nuc {R} mol a.
Arguments e_nuc_total {R} mol.
Arguments self_residue {R} mol a.
Arguments tolerance {R}.

(** The interaction of nucleus [a] with the MM sites, the term that
    [_e_nuc] adds for an MM region. *)
Definition mm_interaction {R : numFieldType} (norm : vec R 3 -> R)
  (mol : Mole R) (mm_mol : option (Mole R)) (a : 'I_(natm mol)) : R :=
  match mm_mol with
  | None => 0
  | Some mm =>
      atom_charges mol a
      * \sum_k atom_charges mm k
               / norm (fun x => atom_coords mol a x - atom_coords mm k x)
  end.

(** ** Densities on a quadrature grid *)

(** [xc_type.upper()]: the classes of functionals told apart by the code. *)
Inductive xc_kind : Type := LDA | HF | GGA | NLC | MGGA.

(** What is passed as [ref]: [None], an array, or a string. *)
Inductive pyref (A : Type) : Type :=
| RefNone
| RefArray (a : A)
| RefStr (s : string).

Arguments RefNone {A}.
Arguments RefArray {A} a.
Arguments RefStr {A} s.

(** [ref == 'restricted'].  [None] differs from every string; the comparison
    of an array of floats with a string is numpy's scalar [False]. *)
Definition ref_is_restricted {A : Type} (ref : pyref A) : bool :=
  match ref with
  | RefStr s => String.eqb s "restricted"
  | RefNone | RefArray _ => false
  end.

Section Grid.

Variable R : numFieldType.
Variable ngrids : nat.

(** AO values on the grid as [numint.eval_ao] shapes them: [(ngrids, nao)] for
    [deriv = 0], [(ncomp, ngrids, nao)] otherwise. *)
Inductive ao_array (nao : nat) : Type :=
| Ao2 (a : mat R ngrids nao)
| Ao3 (comps : seq (mat R ngrids nao)).

Arguments Ao2 {nao} a.
Arguments Ao3 {nao} comps.

(** The component [ao_value[k]] where the code takes it to be a matrix:
    unpacking the shape of a row of a 2-d array fails. *)
Definition ao_comp {nao : nat} (ao_value : ao_array nao) (k : nat) :
  result (mat R ngrids nao) :=
  match ao_value with
  | Ao2 _ => Raise ValueError
  | Ao3 comps => getitem comps k
  end.

(** [ao_value[:, :, select]] *)
Definition ao_take_cols {nao : nat} (select : seq 'I_nao)
  (ao_value : ao_array nao) : result (ao_array (size select)) :=
  match ao_value with
  | Ao2 _ => Raise IndexError
  | Ao3 comps => Ok (Ao3 [seq take_cols select a | a <- comps])
  end.

(** The density on the grid: a 1-d array (LDA) or a stack of rows whose row 0
    is the density itself. *)
Inductive rho_t : Type :=
| Rho1 (r : vec R ngrids)
| RhoN (r0 : vec R ngrids) (rest : seq (vec R ngrids)).

(** What [_make_rho] returns as [rho]: an array, or a pair of arrays, one per
    spin. *)
Inductive rho_res : Type :=
| RhoArr (rho : rho_t)
| RhoPair (rho_a rho_b : rho_t).

(** The density matrix handed to [_make_rho]: [rdm1.ndim == 2] or a two-spin
    stack. *)
Inductive rdm1_arg (nao : nat) : Type :=
| Rdm2 (d : mat R nao nao)
| Rdm3 (d : spin -> mat R nao nao).

Arguments Rdm2 {nao} d.
Arguments Rdm3 {nao} d.

(** [contract('ik,kj->ij', a, rdm1)] *)
Definition contract_c0 {nao : nat} (a : mat R ngrids nao) (rdm1 : mat R nao nao) :
  mat R ngrids nao :=
  fun p j => \sum_k a p k * rdm1 k j.

(** [contract('ik,jk->ij', a, rdm1)] *)
Definition contract_c1 {nao : nat} (a : mat R ngrids nao) (rdm1 : mat R nao nao) :
  mat R ngrids nao :=
  fun p j => \sum_k a p k * rdm1 j k.

(** [contract('pi,pi->p', x, y)] *)
Definition contract_p {n : nat} (x y : mat R ngrids n) : vec R ngrids :=
  fun p => \sum_i x p i * y p i.

(** The intermediates [(c0, c1)]. *)
Definition interm (n : nat) : Type :=
  (mat R ngrids n * option (seq (mat R ngrids n)))%type.

(** [_make_rho_interm1(ao_value, rdm1, xc_type)] *)
Definition _make_rho_interm1 {nao : nat} (ao_value : ao_array nao)
  (rdm1 : mat R nao nao) (xctype : xc_kind) : result (interm nao) :=
  match xctype with
  | LDA | HF =>
      match ao_value with
      | Ao2 a => Ok (contract_c0 a rdm1, None)
      | Ao3 _ => Raise ValueError
      end
  | GGA | NLC =>
      let* a0 := ao_comp ao_value 0 in
      Ok (contract_c0 a0 rdm1, None)
  | MGGA =>
      let* a0 := ao_comp ao_value 0 in
      let* a1 := ao_comp ao_value 1 in
      let* a2 := ao_comp ao_value 2 in
      let* a3 := ao_comp ao_value 3 in
      Ok (contract_c0 a0 rdm1,
          Some [:: contract_c1 a1 rdm1; contract_c1 a2 rdm1; contract_c1 a3 rdm1])
  end.

(** [c1[k]], with [c1] possibly [None]. *)
Definition c1_comp {n : nat} (c1 : option (seq (mat R ngrids n))) (k : nat) :
  result (mat R ngrids n) :=
  match c1 with
  | None => Raise TypeError
  | Some l => getitem l k
  end.

(** [_make_rho_interm2(c0, c1, ao_value, xc_type)] *)
Definition _make_rho_interm2 {n : nat} (c0 : mat R ngrids n)
  (c1 : option (seq (mat R ngrids n))) (ao_value : ao_array n)
  (xctype : xc_kind) : result rho_t :=
  match xctype with
  | LDA | HF =>
      match ao_value with
      | Ao2 a => Ok (Rho1 (contract_p a c0))
      | Ao3 _ => Raise ValueError
      end
  | GGA | NLC =>
      let* a0 := ao_comp ao_value 0 in
      let* a1 := ao_comp ao_value 1 in
      let* a2 := ao_comp ao_value 2 in
      let* a3 := ao_comp ao_value 3 in
      Ok (RhoN (contract_p c0 a0)
            [:: (fun p => contract_p c0 a1 p * 2%:R);
                (fun p => contract_p c0 a2 p * 2%:R);
                (fun p => contract_p c0 a3 p * 2%:R)])
  | MGGA =>
      let* a0 := ao_comp ao_value 0 in
      let* a1 := ao_comp ao_value 1 in
      let* c11 := c1_comp c1 0 in
      let* a2 := ao_comp ao_value 2 in
      let* c12 := c1_comp c1 1 in
      let* a3 := ao_comp ao_value 3 in
      let* c13 := c1_comp c1 2 in
      let* aXX := ao_comp ao_value 4 in
      let* aYY := ao_comp ao_value 7 in
      let* aZZ := ao_comp ao_value 9 in
      let ao_value_2 : mat R ngrids n := fun p i => aXX p i + aYY p i + aZZ p i in
      let rho5 : vec R ngrids :=
        fun p => 0 + contract_p c11 a1 p + contract_p c12 a2 p
                   + contract_p c13 a3 p in
      Ok (RhoN (contract_p a0 c0)
            [:: (fun p => contract_p c0 a1 p * 2%:R);
                (fun p => contract_p c0 a2 p * 2%:R);
                (fun p => contract_p c0 a3 p * 2%:R);
                (fun p => (contract_p c0 ao_value_2 p + rho5 p) * 2%:R);
                (fun p => rho5 p * half)])
  end.

(** [np.sum(c1, axis=0)] of the pair of stacks [c1]. *)
Definition sum_c1 {n : nat} (c1a c1b : seq (mat R ngrids n)) :
  seq (mat R ngrids n) :=
  [seq (fun p i => (ab.1 : mat R ngrids n) p i + (ab.2 : mat R ngrids n) p i)
  | ab <- zip c1a c1b].

(** The branch of [_make_rho] for a two-spin stack and [ref == 'restricted']. *)
Definition _make_rho_restricted {nao : nat} (ao_value : ao_array nao)
  (d : spin -> mat R nao nao) (xctype : xc_kind) :
  result (interm nao * rho_res) :=
  let* c := _make_rho_interm1 ao_value (fun i j => d Alpha i j * 2%:R) xctype in
  let* rho := _make_rho_interm2 c.1 c.2 ao_value xctype in
  Ok (c, RhoArr rho).

(** The branch of [_make_rho] for a two-spin stack and any other [ref]. *)
Definition _make_rho_unrestricted {nao : nat} (ao_value : ao_array nao)
  (d : spin -> mat R nao nao) (xctype : xc_kind) :
  result (interm nao * rho_res) :=
  let* ca := _make_rho_interm1 ao_value (d Alpha) xctype in
  let* cb := _make_rho_interm1 ao_value (d Beta) xctype in
  let* rho_a := _make_rho_interm2 ca.1 ca.2 ao_value xctype in
  let* rho_b := _make_rho_interm2 cb.1 cb.2 ao_value xctype in
  let c0 : mat R ngrids nao := fun p i => ca.1 p i + cb.1 p i in
  match ca.2, cb.2 with
  | Some c1a, Some c1b => Ok ((c0, Some (sum_c1 c1a c1b)), RhoPair rho_a rho_b)
  | Some _, None => Raise TypeError
  | None, _ => Ok ((c0, None), RhoPair rho_a rho_b)
  end.

(** [_make_rho(ao_value, rdm1, ref, xc_type)], returning [((c0, c1), rho)]. *)
Definition _make_rho {nao : nat} {A : Type} (ao_value : ao_array nao)
  (rdm1 : rdm1_arg nao) (ref : pyref A) (xctype : xc_kind) :
  result (interm nao * rho_res) :=
  match rdm1 with
  | Rdm2 d =>
      let* c := _make_rho_interm1 ao_value d xctype in
      let* rho := _make_rho_interm2 c.1 c.2 ao_value xctype in
      Ok (c, RhoArr rho)
  | Rdm3 d =>
      if ref_is_restricted ref then _make_rho_restricted ao_value d xctype
      else _make_rho_unrestricted ao_value d xctype
  end.

(** [rho if rho.ndim == 1 else rho[0]] *)
Definition rho_density (rho : rho_t) : vec R ngrids :=
  match rho with
  | Rho1 r => r
  | RhoN r0 _ => r0
  end.

(** [_e_xc(eps_xc, grid_weights, rho)]: [contract('i,i,i->', ...)]. *)
Definition _e_xc (eps_xc grid_weights : vec R ngrids) (rho : rho_t) : R :=
  \sum_p eps_xc p * rho_density rho p * grid_weights p.

End Grid.

Arguments Ao2 {R ngrids nao} a.
Arguments Ao3 {R ngrids nao} comps.
Arguments ao_comp {R ngrids nao} ao_value k.
Arguments ao_take_cols {R ngrids nao} select ao_value.
Arguments Rho1 {R ngrids} r.
Arguments RhoN {R ngrids} r0 rest.
Arguments RhoArr {R ngrids} rho.
Arguments RhoPair {R ngrids} rho_a rho_b.
Arguments Rdm2 {R nao} d.
Arguments Rdm3 {R nao} d.
Arguments contract_c0 {R ngrids nao} a rdm1 _ _.
Arguments contract_c1 {R ngrids nao} a rdm1 _ _.
Arguments contract_p {R ngrids n} x y _.
Arguments _make_rho_interm1 {R ngrids nao} ao_value rdm1 xctype.
Arguments c1_comp {R ngrids n} c1 k.
Arguments _make_rho_interm2 {R ngrids n} c0 c1 ao_value xctype.
Arguments sum_c1 {R ngrids n} c1a c1b.
Arguments _make_rho_restricted {R ngrids nao} ao_value d xctype.
Arguments _make_rho_unrestricted {R ngrids nao} ao_value d xctype.
Arguments _make_rho {R ngrids nao A} ao_value rdm1 ref xctype.
Arguments rho_density {R ngrids} rho _.
Arguments _e_xc {R ngrids} eps_xc grid_weights rho.

(** ** The inputs of a decomposition *)

(** Python sequences of rows: a [list] or the first axis of an [ndarray]. *)
Inductive pyseq (T : Type) : Type :=
| PyList (l : seq T)
| NdArray (l : seq T).

Arguments PyList {T} l.
Arguments NdArray {T} l.

Definition rows {T : Type} (t : pyseq T) : seq T :=
  match t with PyList l | NdArray l => l end.

(** The property type and the partition strategy of the configuration. *)
Inductive prop_kind : Type := Energy | Dipole.
Inductive part_kind : Type := Atoms | Eda | Bonds | Orbs.

Section System.

Variable R : numFieldType.

(** What [prop_tot] reads of [mol], with PySCF's integrals over it.
    [pmol], the molecule in the reference basis of the populations, has the
    atoms of [mol]; both are [atoms]. *)
Record Mol : Type := MkMol {
  atoms : Mole R;
  nao : nat;                                 (* mol.nao_nr() *)
  norb : spin -> nat;                        (* columns of mo_coeff[i] *)
  occupied : forall s, seq 'I_(norb s);      (* mol.alpha, mol.beta *)
  ao_labels : 'I_nao -> 'I_(natm atoms);     (* atom[0] for atom in ao_labels *)
  int1e_kin : mat R nao nao;
  int1e_rinv : 'I_(natm atoms) -> mat R nao nao;
  int1e_r : vec R 3 -> stack R 3 nao nao
}.

Variable mol : Mol.

Notation natoms := (natm (atoms mol)).
Notation op := (mat R (nao mol) (nao mol)).

(** One table of population weights per spin: a row per orbital, an entry per
    atom. *)
Definition table : Type := pyseq (vec R natoms).
Definition weights_t : Type := spin -> table.

(** The bond assignment: the orbital indices of each spin. *)
Definition rep_idx_t : Type := forall s : spin, seq 'I_(norb mol s).

(** The values of the keyword arguments. *)
Inductive kwarg : Type :=
| KwCoord (origin : vec R 3)
| KwBool (b : bool)
| KwWeights (w : weights_t)
| KwRepIdx (r : rep_idx_t)
| KwCentres (c : spin -> seq (nat * nat)).

Definition kwargs_t : Type := seq (string * kwarg).

(** [key in kwargs] and [kwargs[key]] *)
Fixpoint kwargs_mem (key : string) (kwargs : kwargs_t) : bool :=
  match kwargs with
  | [::] => false
  | (k, _) :: rest => String.eqb key k || kwargs_mem key rest
  end.

Fixpoint kwargs_get (key : string) (kwargs : kwargs_t) : result kwarg :=
  match kwargs with
  | [::] => Raise (KeyError key)
  | (k, v) :: rest => if String.eqb key k then Ok v else kwargs_get key rest
  end.

Definition as_coord (v : kwarg) : result (vec R 3) :=
  if v is KwCoord o then Ok o else Raise TypeError.

Definition as_weights (v : kwarg) : result weights_t :=
  if v is KwWeights w then Ok w else Raise TypeError.

Definition as_rep_idx (v : kwarg) : result rep_idx_t :=
  if v is KwRepIdx r then Ok r else Raise TypeError.

(** The non-local correlation part of a Kohn-Sham object with [nlc = 'VV10']:
    its grid and PySCF's [numint._vv10nlc] on it. *)
Record NlcGrid : Type := MkNlcGrid {
  nlc_ngrids : nat;
  nlc_eval_ao : nat -> ao_array R nlc_ngrids (nao mol);
  nlc_weights : vec R nlc_ngrids;
  vv10nlc : rho_res R nlc_ngrids -> vec R nlc_ngrids
}.

(** A Kohn-Sham object: the class of [mf.xc], the range-separation and
    hybrid coefficients, the long-range exchange, the grid, and PySCF's
    [eval_ao] and [eval_xc] on it. *)
Record KohnSham : Type := MkKohnSham {
  xc_type : xc_kind;
  rsh_omega : R;
  rsh_alpha : R;
  rsh_hyb : R;
  get_k_lr : (spin -> op) -> spin -> op;
  ks_ngrids : nat;
  eval_ao : nat -> ao_array R ks_ngrids (nao mol);
  ks_weights : vec R ks_ngrids;
  eval_xc : rho_res R ks_ngrids -> vec R ks_ngrids;
  nlc : option NlcGrid
}.

(** The mean-field object: an optional MM region with the potential
    [_mm_pot] of its charges, an optional solvent model with the atom-wise
    energies [_solvent] of a density, the Coulomb and exchange operators
    [get_jk] of a density, and the Kohn-Sham part of a DFT object. *)
Record MeanField : Type := MkMeanField {
  mm_mol : option (Mole R);
  _mm_pot : op;
  with_solvent : option (op -> vec R natoms);
  get_jk : (spin -> op) -> (spin -> op) * (spin -> op);
  kohn_sham : option KohnSham
}.

End System.

Arguments atoms {R} m.
Arguments nao {R} m.
Arguments norb {R} m s.
Arguments occupied {R} m s.
Arguments ao_labels {R} m _.
Arguments int1e_kin {R} m _ _.
Arguments int1e_rinv {R} m _ _ _.
Arguments int1e_r {R} m _ _ _ _.
Arguments KwCoord {R mol} origin.
Arguments KwBool {R mol} b.
Arguments KwWeights {R mol} w.
Arguments KwRepIdx {R mol} r.
Arguments KwCentres {R mol} c.
Arguments kwargs_mem {R mol} key kwargs.
Arguments kwargs_get {R mol} key kwargs.
Arguments as_coord {R mol} v.
Arguments as_weights {R mol} v.
Arguments as_rep_idx {R mol} v.
Arguments nlc_ngrids {R mol} n.
Arguments nlc_eval_ao {R mol} n deriv.
Arguments nlc_weights {R mol} n _.
Arguments vv10nlc {R mol} n rho _.
Arguments xc_type {R mol} k.
Arguments rsh_omega {R mol} k.
Arguments rsh_alpha {R mol} k.
Arguments rsh_hyb {R mol} k.
Arguments get_k_lr {R mol} k rdm1 s _ _.
Arguments ks_ngrids {R mol} k.
Arguments eval_ao {R mol} k deriv.
Arguments ks_weights {R mol} k _.
Arguments eval_xc {R mol} k rho _.
Arguments nlc {R mol} k.
Arguments mm_mol {R mol} m.
Arguments _mm_pot {R mol} m _ _.
Arguments with_solvent {R mol} m.
Arguments get_jk {R mol} m rdm1.
Arguments kohn_sham {R mol} m.
Arguments table {R} mol.
Arguments weights_t {R} mol.
Arguments rep_idx_t {R} mol.
Arguments kwarg {R} mol.
Arguments kwargs_t {R} mol.
Arguments NlcGrid {R} mol.
Arguments KohnSham {R} mol.
Arguments MeanField {R} mol.

(** ** The partition kernels

    [prop_atom], [prop_eda] and [prop_bonds] are nested in [prop_tot] and read
    its local variables; [Closure] holds those. *)

Section Kernels.

Variable R : numFieldType.
Variable mol : Mol R.

Notation natoms := (natm (atoms mol)).
Notation op := (mat R (nao mol) (nao mol)).

(** The DFT variables of [prop_tot]; [dft_nlc] is present when
    [eps_xc_nlc is not None]. *)
Record NlcEnv : Type := MkNlcEnv {
  ngrids_nlc : nat;
  ao_value_nlc : ao_array R ngrids_nlc (nao mol);
  grid_weights_nlc : vec R ngrids_nlc;
  eps_xc_nlc : vec R ngrids_nlc;
  c_vv10 : interm R ngrids_nlc (nao mol)
}.

Record DftEnv : Type := MkDftEnv {
  dft_xc_type : xc_kind;
  dft_ngrids : nat;
  ao_value : ao_array R dft_ngrids (nao mol);
  grid_weights : vec R dft_ngrids;
  eps_xc : vec R dft_ngrids;
  c_tot : interm R dft_ngrids (nao mol);
  dft_nlc : option NlcEnv
}.

Record Closure : Type := MkClosure {
  prop_type : prop_kind;
  ref : pyref (spin -> op);
  mo_coeff : forall s, mat R (nao mol) (norb mol s);
  mo_occ : forall s, vec R (norb mol s);
  weights : option (weights_t mol);      (* unbound without the keyword *)
  ao_dip : option (stack R 3 (nao mol) (nao mol));
  rdm1_tot : spin -> op;
  e_solvent : option (vec R natoms);
  prop_nuc_rep : 'I_natoms -> value R;
  kin_op : op;
  nuc : op;
  sub_nuc : 'I_natoms -> op;
  mm_pot : option op;
  vj : spin -> op;
  vk : spin -> op;
  dft : option DftEnv                    (* dft_calc *)
}.

Variable c : Closure.

(** [weights[i][m][atom_idx]] *)
Definition weight_of (i : spin) (m : nat) (atom_idx : 'I_natoms) : result R :=
  match weights c with
  | None => Raise (NameError "weights")
  | Some w => let* row := getitem (rows (w i)) m in Ok (row atom_idx)
  end.

(** The loop over the spin-orbitals [for m, j in enumerate(spin_mo)], which
    adds the weighted orbital densities to [rdm1_atom[i]]. *)
Fixpoint weighted_rdm1 (i : spin) (atom_idx : 'I_natoms)
  (spin_mo : seq (nat * 'I_(norb mol i))) (rdm1_atom_i : op) : result op :=
  match spin_mo with
  | [::] => Ok rdm1_atom_i
  | (m, j) :: rest =>
      let rdm1_orb := rdm1_of_orbital (mo_coeff c i) (mo_occ c i) j in
      let* w := weight_of i m atom_idx in
      weighted_rdm1 i atom_idx rest
        (fun p q => rdm1_atom_i p q + rdm1_orb p q * w)
  end.

(** [_, _, rho = _make_rho(ao_value, rdm1, ref, xc_type)] followed by
    [_e_xc(eps, grid_weights, rho)] for a 2-d [rdm1]. *)
Definition e_xc_of {ngrids : nat} (ao : ao_array R ngrids (nao mol))
  (eps w : vec R ngrids) (rdm1 : op) (xctype : xc_kind) : result R :=
  let* r := _make_rho ao (Rdm2 rdm1) (ref c) xctype in
  match r.2 with
  | RhoArr rho => Ok (_e_xc eps w rho)
  | RhoPair _ _ => Raise AttributeError
  end.

(** The additional xc energy contribution of the density [rdm1], with the
    non-local (VV10) part. *)
Definition xc_contribution (rdm1 : op) (res : dict (value R)) :
  result (dict (value R)) :=
  match dft c with
  | None => Ok res
  | Some e =>
      let* e_xc := e_xc_of (ao_value e) (eps_xc e) (grid_weights e) rdm1
                (dft_xc_type e) in
      let* res := dict_iadd xc (Scalar e_xc) res in
      match dft_nlc e with
      | None => Ok res
      | Some n =>
          let* e_nlc := e_xc_of (ao_value_nlc n) (eps_xc_nlc n)
                     (grid_weights_nlc n) rdm1 GGA in
          dict_iadd xc (Scalar e_nlc) res
      end
  end.

(** [for comp_key in COMP_KEYS[:-2]: res['el'] += res[comp_key]] *)
Fixpoint sum_el (keys : seq comp_key) (res : dict (value R)) :
  result (dict (value R)) :=
  match keys with
  | [::] => Ok res
  | comp_key :: rest =>
      let* x := dict_get el res in
      let* y := dict_get comp_key res in
      sum_el rest (dict_set el (vadd x y) res)
  end.

(** [res['el'] -= _trace(ao_dip, rdm1)]: the entry is read first. *)
Definition dipole_el {m : nat} (dip : option (stack R 3 m (nao mol)))
  (rdm1 : mat R m (nao mol)) (res : dict (value R)) :
  result (dict (value R)) :=
  let* x := dict_get el res in
  match dip with
  | None => Raise AttributeError
  | Some d => Ok (dict_set el (vadd x (vopp (Vector (_trace_x d rdm1 1)))) res)
  end.

(** The initial [res] of [prop_atom] and [prop_eda]. *)
Definition init_res : dict (value R) :=
  match prop_type c with
  | Energy => dict_init COMP_KEYS (Scalar 0)
  | Dipole => [::]
  end.

(** One round of the loop over spins of [prop_atom]. *)
Definition prop_atom_spin (atom_idx : 'I_natoms) (i : spin)
  (res : dict (value R)) : result (op * dict (value R)) :=
  let* rdm1_atom_i := weighted_rdm1 i atom_idx (enumerate (occupied mol i)) zeros in
  let* res := match prop_type c with
         | Energy =>
             let* res := dict_iadd coul
                      (Scalar (_trace (spin_sum (vj c)) rdm1_atom_i half)) res in
             dict_isub exch (Scalar (_trace (vk c i) rdm1_atom_i half)) res
         | Dipole => Ok res
         end in
  Ok (rdm1_atom_i, res).

(** [prop_atom(atom_idx)] *)
Definition prop_atom (atom_idx : 'I_natoms) : result (dict (value R)) :=
  let* a := prop_atom_spin atom_idx Alpha init_res in
  let* b := prop_atom_spin atom_idx Beta a.2 in
  let rdm1_atom : spin -> op := fun i => if i is Alpha then a.1 else b.1 in
  let* res := match prop_type c with
         | Energy =>
             let* res := dict_iadd kin
                      (Scalar (_trace (kin_op c) (spin_sum rdm1_atom) 1)) b.2 in
             let* res := dict_iadd nuc_att
                      (Scalar (_trace (nuc c) (spin_sum rdm1_atom) half
                               + _trace (sub_nuc c atom_idx)
                                   (spin_sum (rdm1_tot c)) half)) res in
             let* res := match mm_pot c with
                    | Some pot =>
                        dict_iadd solvent
                          (Scalar (_trace pot (spin_sum rdm1_atom) 1)) res
                    | None => Ok res
                    end in
             let* res := match e_solvent c with
                    | Some e => dict_iadd solvent (Scalar (e atom_idx)) res
                    | None => Ok res
                    end in
             xc_contribution (spin_sum rdm1_atom) res
         | Dipole => Ok b.2
         end in
  let* res := match prop_type c with
         | Energy => sum_el COMP_KEYS_el res
         | Dipole => dipole_el (ao_dip c) (spin_sum rdm1_atom) res
         end in
  dict_iadd struct (prop_nuc_rep c atom_idx) res.

(** [select = np.where([atom[0] == atom_idx for atom in ao_labels])[0]] *)
Definition select_aos (atom_idx : 'I_natoms) : seq 'I_(nao mol) :=
  [seq i <- enum 'I_(nao mol) | ao_labels mol i == atom_idx].

(** The xc energy of [prop_eda], from the column-selected intermediates. *)
Definition e_xc_eda {ngrids : nat} (select : seq 'I_(nao mol))
  (ct : interm R ngrids (nao mol)) (ao : ao_array R ngrids (nao mol))
  (eps w : vec R ngrids) (xctype : xc_kind) : result R :=
  let* ao_sel := ao_take_cols select ao in
  let* rho_atom := _make_rho_interm2 (take_cols select ct.1)
                (omap (map (take_cols select)) ct.2) ao_sel xctype in
  Ok (_e_xc eps w rho_atom).

Definition xc_contribution_eda (select : seq 'I_(nao mol))
  (res : dict (value R)) : result (dict (value R)) :=
  match dft c with
  | None => Ok res
  | Some e =>
      let* e_xc := e_xc_eda select (c_tot e) (ao_value e) (eps_xc e)
                (grid_weights e) (dft_xc_type e) in
      let* res := dict_iadd xc (Scalar e_xc) res in
      match dft_nlc e with
      | None => Ok res
      | Some n =>
          let* e_nlc := e_xc_eda select (c_vv10 n) (ao_value_nlc n) (eps_xc_nlc n)
                     (grid_weights_nlc n) GGA in
          dict_iadd xc (Scalar e_nlc) res
      end
  end.

(** One round of the loop over spins of [prop_eda]. *)
Definition prop_eda_spin (select : seq 'I_(nao mol)) (i : spin)
  (res : dict (value R)) : result (dict (value R)) :=
  let* res := dict_iadd coul
           (Scalar (_trace (take_rows select (spin_sum (vj c)))
                      (take_rows select (rdm1_tot c i)) half)) res in
  dict_isub exch
    (Scalar (_trace (take_rows select (vk c i))
               (take_rows select (rdm1_tot c i)) half)) res.

(** [prop_eda(atom_idx)] *)
Definition prop_eda (atom_idx : 'I_natoms) : result (dict (value R)) :=
  let select := select_aos atom_idx in
  let rdm1_sum := spin_sum (rdm1_tot c) in
  let* res := match prop_type c with
         | Energy =>
             let* res := prop_eda_spin select Alpha init_res in
             let* res := prop_eda_spin select Beta res in
             let* res := dict_iadd kin
                      (Scalar (_trace (take_rows select (kin_op c))
                                 (take_rows select rdm1_sum) 1)) res in
             let* res := dict_iadd nuc_att
                      (Scalar (_trace (take_rows select (nuc c))
                                 (take_rows select rdm1_sum) half
                               + _trace (sub_nuc c atom_idx) rdm1_sum half))
                      res in
             let* res := match mm_pot c with
                    | Some pot =>
                        dict_iadd solvent
                          (Scalar (_trace (take_rows select pot)
                                     (take_rows select rdm1_sum) 1)) res
                    | None => Ok res
                    end in
             let* res := match e_solvent c with
                    | Some e => dict_iadd solvent (Scalar (e atom_idx)) res
                    | None => Ok res
                    end in
             xc_contribution_eda select res
         | Dipole => Ok init_res
         end in
  let* res := match prop_type c with
         | Energy => sum_el COMP_KEYS_el res
         | Dipole =>
             dipole_el
               (omap (fun d : stack R 3 (nao mol) (nao mol) =>
                        (fun x => take_rows select (d x)))
                  (ao_dip c))
               (take_rows select rdm1_sum) res
         end in
  dict_iadd struct (prop_nuc_rep c atom_idx) res.

(** [prop_bonds(spin_idx, orb_idx)] *)
Definition prop_bonds (spin_idx : spin) (orb_idx : 'I_(norb mol spin_idx)) :
  result (dict (value R)) :=
  let rdm1_orb :=
    rdm1_of_orbital (mo_coeff c spin_idx) (mo_occ c spin_idx) orb_idx in
  match prop_type c with
  | Energy =>
      let vjk : op := fun p q => spin_sum (vj c) p q - vk c spin_idx p q in
      let res := dict_set el (Scalar (_trace vjk rdm1_orb half)) [::] in
      let h : op := fun p q => kin_op c p q + nuc c p q in
      let* res := dict_iadd el (Scalar (_trace h rdm1_orb 1)) res in
      let* res := match mm_pot c with
             | Some pot => dict_iadd el (Scalar (_trace pot rdm1_orb 1)) res
             | None => Ok res
             end in
      match dft c with
      | None => Ok res
      | Some e =>
          let* e_xc := e_xc_of (ao_value e) (eps_xc e) (grid_weights e) rdm1_orb
                    (dft_xc_type e) in
          let* res := dict_iadd el (Scalar e_xc) res in
          match dft_nlc e with
          | None => Ok res
          | Some n =>
              let* e_nlc := e_xc_of (ao_value_nlc n) (eps_xc_nlc n)
                         (grid_weights_nlc n) rdm1_orb GGA in
              dict_iadd el (Scalar e_nlc) res
          end
      end
  | Dipole =>
      match ao_dip c with
      | None => Raise AttributeError
      | Some d =>
          Ok (dict_set el (vopp (Vector (_trace_x d rdm1_orb 1))) [::])
      end
  end.

End Kernels.

Arguments NlcEnv {R} mol.
Arguments DftEnv {R} mol.
Arguments Closure {R} mol.
Arguments MkNlcEnv {R mol}.
Arguments MkDftEnv {R mol}.
Arguments MkClosure {R mol}.
Arguments ngrids_nlc {R mol} n.
Arguments ao_value_nlc {R mol} n.
Arguments grid_weights_nlc {R mol} n _.
Arguments eps_xc_nlc {R mol} n _.
Arguments c_vv10 {R mol} n.
Arguments dft_xc_type {R mol} d.
Arguments dft_ngrids {R mol} d.
Arguments ao_value {R mol} d.
Arguments grid_weights {R mol} d _.
Arguments eps_xc {R mol} d _.
Arguments c_tot {R mol} d.
Arguments dft_nlc {R mol} d.
Arguments prop_type {R mol} c.
Arguments ref {R mol} c.
Arguments mo_coeff {R mol} c s _ _.
Arguments mo_occ {R mol} c s _.
Arguments weights {R mol} c.
Arguments ao_dip {R mol} c.
Arguments rdm1_tot {R mol} c s _ _.
Arguments e_solvent {R mol} c.
Arguments prop_nuc_rep {R mol} c _.
Arguments kin_op {R mol} c _ _.
Arguments nuc {R mol} c _ _.
Arguments sub_nuc {R mol} c _ _ _.
Arguments mm_pot {R mol} c.
Arguments vj {R mol} c s _ _.
Arguments vk {R mol} c s _ _.
Arguments dft {R mol} c.
Arguments weight_of {R mol} c i m atom_idx.
Arguments weighted_rdm1 {R mol} c i atom_idx spin_mo rdm1_atom_i.
Arguments e_xc_of {R mol} c {ngrids} ao eps w rdm1 xctype.
Arguments xc_contribution {R mol} c rdm1 res.
Arguments sum_el {R} keys res.
Arguments dipole_el {R mol m} dip rdm1 res.
Arguments init_res {R mol} c.
Arguments prop_atom_spin {R mol} c atom_idx i res.
Arguments prop_atom {R mol} c atom_idx.
Arguments select_aos {R mol} atom_idx.
Arguments e_xc_eda {R mol ngrids} select ct ao eps w xctype.
Arguments xc_contribution_eda {R mol} c select res.
Arguments prop_eda_spin {R mol} c select i res.
Arguments prop_eda {R mol} c atom_idx.
Arguments prop_bonds {R mol} c spin_idx orb_idx.

(** ** The components of the atom-weighted strategy in closed form

    The density of §4.1 and the terms of §4.3 of the specification, written
    as sums; Part II shows that [prop_atom] returns them. *)

Section ClosedForms.

Variable R : numFieldType.
Variable mol : Mol R.
Variable c : Closure mol.
Variable w : weights_t mol.

Notation natoms := (natm (atoms mol)).
Notation op := (mat R (nao mol) (nao mol)).

(** The weight of atom [a] in the orbital at position [m] of spin [i]; zero
    where the table has no row. *)
Definition atom_weight (i : spin) (m : nat) (a : 'I_natoms) : R :=
  nth (fun _ => 0) (rows (w i)) m a.

(** The atom-restricted density: every occupied orbital scaled by its weight
    on the atom. *)
Definition atom_density (a : 'I_natoms) (i : spin) : op :=
  fun p q =>
    \sum_(mj <- enumerate (occupied mol i))
      rdm1_of_orbital (mo_coeff c i) (mo_occ c i) mj.2 p q
      * atom_weight i mj.1 a.

(** [mol.alpha] and [mol.beta] list the orbitals with a non-zero occupation,
    each once. *)
Definition occupied_domain : Prop :=
  forall s, uniq (occupied mol s)
            /\ (forall j, j \notin occupied mol s -> mo_occ c s j = 0).

(** A complete population assignment: the weights of every occupied orbital
    sum to 1 over the atoms. *)
Definition complete_weights : Prop :=
  forall s m, (m < size (occupied mol s))%N ->
              \sum_(a < natoms) atom_weight s m a = 1.

(** Atom [a] has no weight in any orbital of any spin. *)
Definition zero_weights (a : 'I_natoms) : Prop :=
  forall s m, atom_weight s m a = 0.

(** Every occupied orbital of either spin has a row in its table. *)
Definition rows_cover : bool :=
  (size (occupied mol Alpha) <= size (rows (w Alpha)))%N
  && (size (occupied mol Beta) <= size (rows (w Beta)))%N.

(** The value component of the AO array, and the density on the grid that
    it gives for a density matrix. *)
Definition ao_values {ngrids : nat} (ao : ao_array R ngrids (nao mol)) :
  mat R ngrids (nao mol) :=
  match ao with
  | Ao2 a => a
  | Ao3 comps => nth zeros comps 0
  end.

Definition grid_density {ngrids : nat} (ao : ao_array R ngrids (nao mol))
  (rdm1 : op) : vec R ngrids :=
  fun p => \sum_i ao_values ao p i * (\sum_k ao_values ao p k * rdm1 k i).

Definition grid_energy {ngrids : nat} (ao : ao_array R ngrids (nao mol))
  (eps wts : vec R ngrids) (rdm1 : op) : R :=
  \sum_p eps p * grid_density ao rdm1 p * wts p.

(** The shape of the AO array fits the class of the functional. *)
Definition ao_fits {ngrids : nat} (ao : ao_array R ngrids (nao mol))
  (xctype : xc_kind) : bool :=
  match xctype, ao with
  | (LDA | HF), Ao2 _ => true
  | (GGA | NLC), Ao3 comps => (3 < size comps)%N
  | MGGA, Ao3 comps => (9 < size comps)%N
  | _, _ => false
  end.

Definition grids_fit : bool :=
  match dft c with
  | None => true
  | Some e =>
      ao_fits (ao_value e) (dft_xc_type e)
      && match dft_nlc e with
         | None => true
         | Some n => ao_fits (ao_value_nlc n) GGA
         end
  end.

Definition coul_atom (a : 'I_natoms) : R :=
  _trace (spin_sum (vj c)) (atom_density a Alpha) half
  + _trace (spin_sum (vj c)) (atom_density a Beta) half.

Definition exch_atom (a : 'I_natoms) : R :=
  - _trace (vk c Alpha) (atom_density a Alpha) half
  - _trace (vk c Beta) (atom_density a Beta) half.

Definition kin_atom (a : 'I_natoms) : R :=
  _trace (kin_op c) (spin_sum (atom_density a)) 1.

Definition nuc_att_atom (a : 'I_natoms) : R :=
  _trace (nuc c) (spin_sum (atom_density a)) half
  + _trace (sub_nuc c a) (spin_sum (rdm1_tot c)) half.

Definition solvent_atom (a : 'I_natoms) : R :=
  (if mm_pot c is Some pot then _trace pot (spin_sum (atom_density a)) 1 else 0)
  + (if e_solvent c is Some e then e a else 0).

Definition xc_atom (a : 'I_natoms) : R :=
  match dft c with
  | None => 0
  | Some e =>
      grid_energy (ao_value e) (eps_xc e) (grid_weights e)
        (spin_sum (atom_density a))
      + match dft_nlc e with
        | None => 0
        | Some n =>
            grid_energy (ao_value_nlc n) (eps_xc_nlc n) (grid_weights_nlc n)
              (spin_sum (atom_density a))
        end
  end.

Definition el_atom (a : 'I_natoms) : R :=
  coul_atom a + exch_atom a + kin_atom a + nuc_att_atom a + xc_atom a
  + solvent_atom a.

(** The value of a component other than the structural one. *)
Definition atom_component (key : comp_key) (a : 'I_natoms) : R :=
  match key with
  | coul => coul_atom a
  | exch => exch_atom a
  | kin => kin_atom a
  | nuc_att => nuc_att_atom a
  | xc => xc_atom a
  | solvent => solvent_atom a
  | el => el_atom a
  | struct => 0
  end.

(** The dictionary of atom [a]: every component under its name, the
    structural term added to the initial zero. *)
Definition atom_value (a : 'I_natoms) (key : comp_key) : value R :=
  if key is struct then vadd (Scalar 0) (prop_nuc_rep c a)
  else Scalar (atom_component key a).

Definition full_dict {V : Type} (v : comp_key -> V) : dict V :=
  [seq (key, v key) | key <- COMP_KEYS].

Definition atom_dict (a : 'I_natoms) : dict (value R) :=
  full_dict (atom_value a).

(** The nuclear-attraction energy: the trace of the total operator with the
    total density. *)
Definition nuc_att_total : R := _trace (nuc c) (spin_sum (rdm1_tot c)) 1.

(** The nuclear-attraction term of the EDA strategy. *)
Definition nuc_att_eda (a : 'I_natoms) : R :=
  _trace (take_rows (select_aos a) (nuc c))
    (take_rows (select_aos a) (spin_sum (rdm1_tot c))) half
  + _trace (sub_nuc c a) (spin_sum (rdm1_tot c)) half.

(** The electronic energy of the orbital [j] of spin [i], the term of the
    bond strategy for a Hartree-Fock reference (§4.5). *)
Definition bond_el (i : spin) (j : 'I_(norb mol i)) : R :=
  let rdm1_orb := rdm1_of_orbital (mo_coeff c i) (mo_occ c i) j in
  let two_el :=
    _trace (fun p q => spin_sum (vj c) p q - vk c i p q) rdm1_orb half in
  let one_el := _trace (fun p q => kin_op c p q + nuc c p q) rdm1_orb 1 in
  match mm_pot c with
  | Some pot => two_el + one_el + _trace pot rdm1_orb 1
  | None => two_el + one_el
  end.

End ClosedForms.

Arguments atom_weight {R mol} w i m a.
Arguments atom_density {R mol} c w a i _ _.
Arguments occupied_domain {R mol} c.
Arguments complete_weights {R mol} w.
Arguments zero_weights {R mol} w a.
Arguments rows_cover {R mol} w.
Arguments ao_values {R mol ngrids} ao _ _.
Arguments grid_density {R mol ngrids} ao rdm1 _.
Arguments grid_energy {R mol ngrids} ao eps wts rdm1.
Arguments ao_fits {R mol ngrids} ao xctype.
Arguments grids_fit {R mol} c.
Arguments coul_atom {R mol} c w a.
Arguments exch_atom {R mol} c w a.
Arguments kin_atom {R mol} c w a.
Arguments nuc_att_atom {R mol} c w a.
Arguments solvent_atom {R mol} c w a.
Arguments xc_atom {R mol} c w a.
Arguments el_atom {R mol} c w a.
Arguments atom_component {R mol} c w key a.
Arguments atom_value {R mol} c w a key.
Arguments full_dict {V} v.
Arguments atom_dict {R mol} c w a.
Arguments nuc_att_total {R mol} c.
Arguments nuc_att_eda {R mol} c a.
Arguments bond_el {R mol} c i j.

(** ** Sequential and parallel maps *)

Section Maps.

Variables A B : Type.

(** [list(map(f, domain))]: the tasks run in the order of the domain, the
    first failure is raised. *)
Fixpoint seq_map (f : A -> result B) (domain : seq A) : result (seq B) :=
  match domain with
  | [::] => Ok [::]
  | x :: rest =>
      let* y := f x in
      let* ys := seq_map f rest in
      Ok (y :: ys)
  end.

(** [with mp.Pool(processes=n) as pool: pool.map(f, domain)] for a function
    [f] that is defined inside another function, as the three kernels are
    inside [prop_tot].  [mp.Pool] refuses fewer than one process with a
    [ValueError].  The pool sends every task to its workers as a pickle of
    the function and of its arguments, and [pickle] refuses a function that
    is local to another function (CPython 3.11: [AttributeError], Can't
    pickle local object): the map re-raises this error as soon as the domain
    holds a task, and no kernel runs in a worker. *)
Definition pool_map (processes : nat) (f : A -> result B) (domain : seq A) :
  result (seq B) :=
  if (processes < 1)%N then Raise ValueError
  else if domain is [::] then Ok [::]
  else Raise AttributeError.

(** The kernel is executed with or without the pool. *)
Definition execute (multiproc : bool) (domain_size num_threads : nat)
  (f : A -> result B) (domain : seq A) : result (seq B) :=
  if multiproc then
    let n_threads := minn domain_size num_threads in
    pool_map n_threads f domain
  else seq_map f domain.

End Maps.

Arguments seq_map {A B} f domain.
Arguments pool_map {A B} processes f domain.
Arguments execute {A B} multiproc domain_size num_threads f domain.

(** [k % n] on Python integers. *)
Definition pymod (k n : nat) : result nat :=
  if n is 0%N then Raise ZeroDivisionError else Ok (k %% n)%N.

(** ** [prop_tot] *)

Section PropTot.

Variable R : numFieldType.

(** What the run depends on besides its arguments: [lib.norm] and
    [lib.num_threads()]. *)
Record Runtime : Type := MkRuntime {
  norm : vec R 3 -> R;
  num_threads : nat
}.

Variable rt : Runtime.
Variable mol : Mol R.

Notation natoms := (natm (atoms mol)).
Notation op := (mat R (nao mol) (nao mol)).

(** The entries of the result: an array with one slot per unit, or a list of
    two arrays, one per spin. *)
Inductive prop_entry : Type :=
| PerUnit (a : seq (value R))
| PerSpin (a b : seq (value R)).

(** [charge_atom]: the float [0.] or an array over the atoms. *)
Inductive charge_t : Type :=
| ChargeZero
| ChargeArr (q : vec R natoms).

Record prop_result : Type := MkPropResult {
  props : dict prop_entry;
  charge_atom : charge_t
}.

(** [a + b] on arrays of rows, with numpy's broadcasting of a single row. *)
Definition row_add (u v : vec R natoms) : vec R natoms := fun a => u a + v a.

Definition nd_add (a b : seq (vec R natoms)) : result (seq (vec R natoms)) :=
  if size a == size b then Ok [seq row_add uv.1 uv.2 | uv <- zip a b]
  else if b is [:: v] then Ok [seq row_add u v | u <- a]
  else if a is [:: u] then Ok [seq row_add u v | v <- b]
  else Raise ValueError.

(** [x + y] on tables: two lists are concatenated, arrays are added. *)
Definition py_add (x y : table mol) : result (table mol) :=
  match x, y with
  | PyList a, PyList b => Ok (PyList (a ++ b))
  | _, _ => let* l := nd_add (rows x) (rows y) in Ok (NdArray l)
  end.

(** The two tables can be added as the specification reads them: two lists of
    rows, or two arrays of the same shape. *)
Definition addable (w : weights_t mol) : bool :=
  match w Alpha, w Beta with
  | PyList _, PyList _ => true
  | x, y => size (rows x) == size (rows y)
  end.

(** The population of atom [a] in the rows [t]: the sum of its column. *)
Definition population (t : seq (vec R natoms)) (a : 'I_natoms) : R :=
  \sum_(row <- t) row a.

(** [np.sum(t, axis=0)] *)
Definition sum_axis0 (t : table mol) : vec R natoms :=
  fun a => \sum_(row <- rows t) row a.

(** [pmol.atom_charges() - np.sum(weights[0] + weights[1], axis=0)] *)
Definition effective_charges (w : weights_t mol) : result (vec R natoms) :=
  let* t := py_add (w Alpha) (w Beta) in
  Ok (fun a => atom_charges (atoms mol) a - sum_axis0 t a).

(** [_h_core(mol, mm_mol)]: the kinetic integrals, the total nuclear
    potential, the potentials of the single nuclei, the MM potential. *)
Definition _h_core (mf : MeanField mol) :
  op * op * ('I_natoms -> op) * option op :=
  let kin := int1e_kin mol in
  let charges := atom_charges (atoms mol) in
  let sub_nuc : 'I_natoms -> op :=
    fun k p q => -1 * int1e_rinv mol k p q * charges k in
  let nuc : op := fun p q => \sum_k sub_nuc k p q in
  let mm_pot := if mm_mol mf is Some _ then Some (_mm_pot mf) else None in
  (kin, nuc, sub_nuc, mm_pot).

(** [_xc_ao_deriv(xc_func)]; [ao_deriv] stays unbound for other classes. *)
Definition _xc_ao_deriv (xc : xc_kind) : result (xc_kind * nat) :=
  match xc with
  | LDA => Ok (xc, 0%N)
  | GGA | NLC => Ok (xc, 1%N)
  | MGGA => Ok (xc, 2%N)
  | HF => Raise (NameError "ao_deriv")
  end.

(** [_vk_dft(mol, mf, xc_func, rdm1, vk)] *)
Definition _vk_dft (ks : KohnSham mol) (rdm1 vk : spin -> op) : spin -> op :=
  let omega := rsh_omega ks in
  let alpha := rsh_alpha ks in
  let hyb := rsh_hyb ks in
  let vk : spin -> op := fun s p q => vk s p q * hyb in
  if (10%:R ^+ 10)^-1 < `|omega| then
    let vk_lr : spin -> op :=
      fun s p q => get_k_lr ks rdm1 s p q * (alpha - hyb) in
    fun s p q => vk s p q + vk_lr s p q
  else vk.

(** The DFT variables of [prop_tot]: the exchange operator, and the grid
    quantities of a Kohn-Sham object. *)
Definition dft_setup (mf : MeanField mol) (ref : pyref (spin -> op))
  (rdm1_tot vk : spin -> op) : result ((spin -> op) * option (DftEnv mol)) :=
  match kohn_sham mf with
  | None => Ok (vk, None)
  | Some ks =>
      let* xa := _xc_ao_deriv (xc_type ks) in
      let vk := _vk_dft ks rdm1_tot vk in
      let ao_value := eval_ao ks xa.2 in
      let* r := _make_rho ao_value (Rdm3 rdm1_tot) ref xa.1 in
      let eps_xc := eval_xc ks r.2 in
      let* nlc_env :=
        match nlc ks with
        | None => Ok None
        | Some g =>
            let ao_value_nlc := nlc_eval_ao g 1 in
            let* rv := _make_rho ao_value_nlc (Rdm2 (spin_sum rdm1_tot)) ref
                         GGA in
            Ok (Some (MkNlcEnv (nlc_ngrids g) ao_value_nlc (nlc_weights g)
                        (vv10nlc g rv.2) rv.1))
        end in
      Ok (vk, Some (MkDftEnv xa.1 (ks_ngrids ks) ao_value (ks_weights ks)
                      eps_xc r.1 nlc_env))
  end.

(** [prop[key][k] = val] for the items of the result [r] of task [k]. *)
Fixpoint collect_items (k : nat) (r : dict (value R)) (prop : dict prop_entry) :
  result (dict prop_entry) :=
  match r with
  | [::] => Ok prop
  | (key, val) :: rest =>
      let* e := dict_get key prop in
      let* e' := match e with
                 | PerUnit a => let* a' := setitem a k val in Ok (PerUnit a')
                 | PerSpin _ _ => Raise TypeError
                 end in
      collect_items k rest (dict_set key e' prop)
  end.

(** [for k, r in enumerate(res)] of the atoms and EDA strategies. *)
Fixpoint collect (res : seq (nat * dict (value R))) (prop : dict prop_entry) :
  result (dict prop_entry) :=
  match res with
  | [::] => Ok prop
  | (k, r) :: rest =>
      let* prop := collect_items k r prop in
      collect rest prop
  end.

(** [prop[key][0 if k < len(rep_idx[0]) else 1][k % len(rep_idx[0])] = val]
    for the items of the result [r] of task [k]. *)
Fixpoint collect_bond_items (n0 k : nat) (r : dict (value R))
  (prop : dict prop_entry) : result (dict prop_entry) :=
  match r with
  | [::] => Ok prop
  | (key, val) :: rest =>
      let* e := dict_get key prop in
      let* e' := match e with
                 | PerSpin a b =>
                     if (k < n0)%N then
                       let* slot := pymod k n0 in
                       let* a' := setitem a slot val in
                       Ok (PerSpin a' b)
                     else
                       let* slot := pymod k n0 in
                       let* b' := setitem b slot val in
                       Ok (PerSpin a b')
                 | PerUnit _ => Raise TypeError
                 end in
      collect_bond_items n0 k rest (dict_set key e' prop)
  end.

(** [for k, r in enumerate(res)] of the bonds strategy. *)
Fixpoint collect_bonds (n0 : nat) (res : seq (nat * dict (value R)))
  (prop : dict prop_entry) : result (dict prop_entry) :=
  match res with
  | [::] => Ok prop
  | (k, r) :: rest =>
      let* prop := collect_bond_items n0 k r prop in
      collect_bonds n0 rest prop
  end.

(** A result with an array for every component name. *)
Definition full_prop (arr : comp_key -> seq (value R)) : dict prop_entry :=
  full_dict (fun key => PerUnit (arr key)).

(** The zero of the result arrays: [0.] or a row of [np.zeros([n, 3])]. *)
Definition zero_value (prop_type : prop_kind) : value R :=
  match prop_type with
  | Energy => Scalar 0
  | Dipole => Vector (fun _ => 0)
  end.

(** The domain of the bonds strategy:
    [[(i, j) for i, _ in enumerate((mol.alpha, mol.beta)) for j in rep_idx[i]]] *)
Definition bond_domain (rep_idx : rep_idx_t mol) :
  seq {s : spin & 'I_(norb mol s)} :=
  [seq existT _ Alpha j | j <- rep_idx Alpha]
  ++ [seq existT _ Beta j | j <- rep_idx Beta].

(** [domain.size] of the array of pairs. *)
Definition bond_domain_size (rep_idx : rep_idx_t mol) : nat :=
  (2 * size (bond_domain rep_idx))%N.

(** The decomposition of the atoms and EDA strategies. *)
Definition decompose_atoms (c : Closure mol) (part : part_kind)
  (multiproc : bool) : result (dict prop_entry) :=
  let prop :=
    match prop_type c with
    | Energy => dict_init COMP_KEYS (PerUnit (nseq natoms (Scalar 0)))
    | Dipole =>
        dict_init COMP_KEYS_tot (PerUnit (nseq natoms (Vector (fun _ => 0))))
    end in
  let domain := enum 'I_natoms in
  let kernel := if part is Atoms then prop_atom c else prop_eda c in
  let* res := execute multiproc (size domain) (num_threads rt) kernel
                domain in
  collect (enumerate res) prop.

(** The decomposition of the bonds strategy. *)
Definition decompose_bonds (c : Closure mol) (kwargs : kwargs_t mol)
  (multiproc : bool) : result (dict prop_entry) :=
  let* v := kwargs_get "rep_idx" kwargs in
  let* rep_idx := as_rep_idx v in
  let n0 := size (rep_idx Alpha) in
  let n1 := size (rep_idx Beta) in
  let z := zero_value (prop_type c) in
  let prop := dict_set el (PerSpin (nseq n0 z) (nseq n1 z)) [::] in
  let domain := bond_domain rep_idx in
  let kernel := fun sj : {s : spin & 'I_(norb mol s)} =>
                  prop_bonds c (projT1 sj) (projT2 sj) in
  let* res := execute multiproc (bond_domain_size rep_idx) (num_threads rt)
                kernel domain in
  let* prop := collect_bonds n0 (enumerate res) prop in
  Ok (dict_set struct
        (PerUnit [seq prop_nuc_rep c a | a <- enum 'I_natoms]) prop).

(** The number of tasks of a decomposition: one per atom, or one per
    orbital of the bond assignment. *)
Definition task_count (part : part_kind) (kwargs : kwargs_t mol) : nat :=
  match part with
  | Atoms | Eda => natoms
  | Bonds | Orbs =>
      match kwargs_get "rep_idx" kwargs with
      | Ok (KwRepIdx rep_idx) => size (bond_domain rep_idx)
      | _ => 0%N
      end
  end.

(** The first half of [prop_tot]: the local variables read by the kernels,
    and [charge_atom]. *)
Definition make_closure (mf : MeanField mol)
  (mo_coeff : forall s, mat R (nao mol) (norb mol s))
  (mo_occ : forall s, vec R (norb mol s))
  (ref : pyref (spin -> op)) (prop_type : prop_kind) (kwargs : kwargs_t mol) :
  result (Closure mol * charge_t) :=
  (* ao dipole integrals with specified gauge origin *)
  let* ao_dip :=
    match prop_type with
    | Dipole =>
        let* v := kwargs_get "dipole_origin" kwargs in
        let* origin := as_coord v in
        Ok (Some (int1e_r mol origin))
    | Energy => Ok None
    end in
  (* compute total 1-RDM (AO basis) *)
  let rdm1_tot : spin -> op := fun s => make_rdm1 (mo_coeff s) (mo_occ s) in
  (* effective atomic charges *)
  let* wq :=
    if kwargs_mem "weights" kwargs then
      let* v := kwargs_get "weights" kwargs in
      let* w := as_weights v in
      let* q := effective_charges w in
      Ok (Some w, ChargeArr q)
    else Ok (None, ChargeZero) in
  (* cosmo/pcm solvent model *)
  let e_solvent :=
    omap (fun solvent_of => solvent_of (spin_sum rdm1_tot)) (with_solvent mf) in
  (* nuclear repulsion property *)
  let prop_nuc_rep : 'I_natoms -> value R :=
    match prop_type with
    | Energy => fun a => Scalar (_e_nuc (norm rt) (atoms mol) (mm_mol mf) a)
    | Dipole => fun a => Vector (_dip_nuc (atoms mol) a)
    end in
  (* core hamiltonian and fock potential *)
  let hc := _h_core mf in
  let jk := get_jk mf rdm1_tot in
  (* calculate xc energy density *)
  let* d := dft_setup mf ref rdm1_tot jk.2 in
  Ok (MkClosure prop_type ref mo_coeff mo_occ wq.1 ao_dip rdm1_tot
        e_solvent prop_nuc_rep hc.1.1.1 hc.1.1.2 hc.1.2 hc.2 jk.1 d.1 d.2,
      wq.2).

(** [prop_tot(mol, mf, mo_coeff, mo_occ, ref, pop, prop_type, part,
    multiproc, **kwargs)] *)
Definition prop_tot (mf : MeanField mol)
  (mo_coeff : forall s, mat R (nao mol) (norb mol s))
  (mo_occ : forall s, vec R (norb mol s))
  (ref : pyref (spin -> op)) (pop : string) (prop_type : prop_kind)
  (part : part_kind) (multiproc : bool) (kwargs : kwargs_t mol) :
  result prop_result :=
  let* cq := make_closure mf mo_coeff mo_occ ref prop_type kwargs in
  (* perform decomposition *)
  let* prop :=
    match part with
    | Atoms | Eda => decompose_atoms cq.1 part multiproc
    | Bonds | Orbs => decompose_bonds cq.1 kwargs multiproc
    end in
  Ok (MkPropResult prop cq.2).

End PropTot.

Arguments Runtime R : clear implicits.
Arguments MkRuntime {R} norm num_threads.
Arguments norm {R} r _.
Arguments num_threads {R} r.
Arguments prop_entry R : clear implicits.
Arguments PerUnit {R} a.
Arguments PerSpin {R} a b.
Arguments charge_t {R} mol.
Arguments ChargeZero {R mol}.
Arguments ChargeArr {R mol} q.
Arguments prop_result {R} mol.
Arguments MkPropResult {R mol} props charge_atom.
Arguments props {R mol} p.
Arguments charge_atom {R mol} p.
Arguments row_add {R mol} u v _.
Arguments nd_add {R mol} a b.
Arguments py_add {R mol} x y.
Arguments addable {R mol} w.
Arguments population {R mol} t a.
Arguments sum_axis0 {R mol} t _.
Arguments effective_charges {R mol} w.
Arguments _h_core {R mol} mf.
Arguments _vk_dft {R mol} ks rdm1 vk s _ _.
Arguments dft_setup {R mol} mf ref rdm1_tot vk.
Arguments collect_items {R} k r prop.
Arguments collect {R} res prop.
Arguments collect_bond_items {R} n0 k r prop.
Arguments collect_bonds {R} n0 res prop.
Arguments full_prop {R} arr.
Arguments zero_value {R} prop_type.
Arguments bond_domain {R mol} rep_idx.
Arguments bond_domain_size {R mol} rep_idx.
Arguments decompose_atoms {R} rt {mol} c part multiproc.
Arguments decompose_bonds {R} rt {mol} c kwargs multiproc.
Arguments task_count {R mol} part kwargs.
Arguments make_closure {R} rt {mol} mf mo_coeff mo_occ ref prop_type kwargs.
Arguments prop_tot {R} rt {mol} mf mo_coeff mo_occ ref pop prop_type part
  multiproc kwargs.

(** ** [main] *)

Section Main.

Variable R : numFieldType.
Variable rt : Runtime R.
Variable mol : Mol R.

Notation op := (mat R (nao mol) (nao mol)).

(** The options of [DecompCls] read by [main]. *)
Record DecompCls : Type := MkDecompCls {
  d_loc : string;
  d_pop : string;
  d_part : part_kind;
  d_prop : prop_kind;
  d_ref : string;
  d_multiproc : bool;
  d_verbose : nat;
  d_thres : R;
  d_ndo : bool;
  d_gauge_origin : vec R 3;
  d_write : string
}.

(** Orbital coefficients and occupations, per spin. *)
Definition orbitals : Type :=
  ((forall s, mat R (nao mol) (norb mol s)) * (forall s, vec R (norb mol s)))%type.

(** The collaborators of [main] whose modules are not among the sources:
    [sanity_check] of [decomp.py], [mf_info], [make_no] and [write_rdm1] of
    [tools.py], [loc_orbs] and [assign_rdm1s] of [orbitals.py]. *)
Record Upstream : Type := MkUpstream {
  sanity_check : DecompCls -> result unit;
  mf_info : MeanField mol -> orbitals;
  make_no : MeanField mol -> (spin -> op) -> orbitals;
  loc_orbs : orbitals -> string -> option (seq nat) ->
             forall s, mat R (nao mol) (norb mol s);
  assign_weights : orbitals -> DecompCls -> weights_t mol;
  assign_bonds : orbitals -> DecompCls ->
                 rep_idx_t mol * (spin -> seq (nat * nat));
  write_rdm1 : DecompCls -> orbitals -> result unit
}.

Variable up : Upstream.

(** An optional array passed as a Python value. *)
Definition py_of_option {A : Type} (a : option A) : pyref A :=
  if a is Some x then RefArray x else RefNone.

(** [main(mol, decomp, mf, rdm1_orb, rdm1_eff, loc_lst)] *)
Definition main (decomp : DecompCls) (mf : MeanField mol)
  (rdm1_orb rdm1_eff : option (spin -> op)) (loc_lst : option (seq nat)) :
  result (prop_result mol) :=
  (* sanity check *)
  let* _ := sanity_check up decomp in
  (* format orbitals from mean-field calculation *)
  let orbs := if rdm1_orb is Some d then make_no up mf d else mf_info up mf in
  (* compute localized molecular orbitals *)
  let orbs := if String.eqb (d_loc decomp) "" then orbs
              else (loc_orbs up orbs (d_loc decomp) loc_lst, orbs.2) in
  (* decompose property *)
  let* res :=
    match d_part decomp with
    | Atoms | Eda =>
        let weights := assign_weights up orbs decomp in
        prop_tot rt mf orbs.1 orbs.2 (py_of_option rdm1_eff)
          (d_pop decomp) (d_prop decomp) (d_part decomp)
          (d_multiproc decomp)
          [:: ("gauge_origin"%string, KwCoord (d_gauge_origin decomp));
              ("ndo"%string, KwBool (d_ndo decomp));
              ("weights"%string, KwWeights weights)]
    | Bonds =>
        let rc := assign_bonds up orbs decomp in
        prop_tot rt mf orbs.1 orbs.2 (py_of_option rdm1_eff)
          (d_pop decomp) (d_prop decomp) (d_part decomp)
          (d_multiproc decomp)
          [:: ("gauge_origin"%string, KwCoord (d_gauge_origin decomp));
              ("ndo"%string, KwBool (d_ndo decomp));
              ("rep_idx"%string, KwRepIdx rc.1);
              ("centres"%string, KwCentres rc.2)]
    | Orbs =>
        prop_tot rt mf orbs.1 orbs.2 (py_of_option rdm1_eff)
          (d_pop decomp) (d_prop decomp) (d_part decomp)
          (d_multiproc decomp)
          [:: ("gauge_origin"%string, KwCoord (d_gauge_origin decomp));
              ("ndo"%string, KwBool (d_ndo decomp))]
    end in
  (* write rdm1s *)
  let* _ := if String.eqb (d_write decomp) "" then Ok tt
            else write_rdm1 up decomp orbs in
  Ok res.

(** The keyword arguments of the call of [prop_tot] in [main]. *)
Definition main_kwargs (decomp : DecompCls) (orbs : orbitals) :
  kwargs_t mol :=
  let common := [:: ("gauge_origin"%string, KwCoord (d_gauge_origin decomp));
                    ("ndo"%string, KwBool (d_ndo decomp))] in
  match d_part decomp with
  | Atoms | Eda =>
      common ++ [:: ("weights"%string,
                     KwWeights (assign_weights up orbs decomp))]
  | Bonds =>
      common ++ [:: ("rep_idx"%string,
                     KwRepIdx (assign_bonds up orbs decomp).1);
                    ("centres"%string,
                     KwCentres (assign_bonds up orbs decomp).2)]
  | Orbs => common
  end.

(** The value bound to the parameter [ref] of [prop_tot] by the calls of
    [main]: the fifth positional argument, [rdm1_eff]. *)
Definition ref_of_main (rdm1_eff : option (spin -> op)) : pyref (spin -> op) :=
  py_of_option rdm1_eff.

End Main.

Arguments DecompCls R : clear implicits.
Arguments MkDecompCls {R}.
Arguments d_loc {R} d.
Arguments d_pop {R} d.
Arguments d_part {R} d.
Arguments d_prop {R} d.
Arguments d_ref {R} d.
Arguments d_multiproc {R} d.
Arguments d_verbose {R} d.
Arguments d_thres {R} d.
Arguments d_ndo {R} d.
Arguments d_gauge_origin {R} d _.
Arguments d_write {R} d.
Arguments orbitals {R} mol.
Arguments Upstream {R} mol.
Arguments MkUpstream {R mol}.
Arguments sanity_check {R mol} u d.
Arguments mf_info {R mol} u mf.
Arguments make_no {R mol} u mf d.
Arguments loc_orbs {R mol} u orbs loc lst s _ _.
Arguments assign_weights {R mol} u orbs d.
Arguments assign_bonds {R mol} u orbs d.
Arguments write_rdm1 {R mol} u d orbs.
Arguments py_of_option {A} a.
Arguments main {R} rt {mol} up decomp mf rdm1_orb rdm1_eff loc_lst.
Arguments main_kwargs {R mol} up decomp orbs.
Arguments ref_of_main {R mol} rdm1_eff.

(** ** The guards of [pbctools.py] *)

Section Pbc.

Variable R : numFieldType.

(** k-points as passed around: one k-point ([ndim == 1]) or an array of
    them. *)
Inductive kpts_array : Type :=
| Kpt1 (k : vec R 3)
| KptN (ks : seq (vec R 3)).

(** The cell and the density-fitting object, as far as the guards read them,
    and a matrix type for the AO matrices that the builders return. *)
Record Cell : Type := MkCell { omega : R }.

Record DF : Type := MkDF {
  _prefer_ccdf : bool;
  cell : Cell;
  df_kpts : kpts_array
}.

Variable ao_matrices : Type.

(** What is returned for the k-points: the matrix of the single k-point, or
    the matrices of all of them. *)
Inductive per_kpt : Type :=
| OneKpt (v : ao_matrices)
| AllKpts (l : seq ao_matrices).

(** The builders behind the guards: [_RSNucBuilder(cell, kpts).build()]
    followed by [get_pp_loc_part1], [_IntPPBuilder(cell, kpts)] followed by
    [get_pp_loc_part2], and [get_pp_nl]; one matrix (or stack) per k-point. *)
Record Builders : Type := MkBuilders {
  get_pp_loc_part1 : Cell -> seq (vec R 3) -> bool -> result (seq ao_matrices);
  get_pp_loc_part2 : Cell -> seq (vec R 3) -> result (seq ao_matrices);
  get_pp_nl : Cell -> seq (vec R 3) -> result (seq ao_matrices);
  add_matrices : ao_matrices -> ao_matrices -> ao_matrices
}.

Variable b : Builders.

(** [kpts_helper.is_zero]: the absolute values of the coordinates sum to
    less than [KPT_DIFF_TOL = 1e-6]. *)
Definition is_zero (k : kpts_array) : bool :=
  let ks := match k with Kpt1 k => [:: k] | KptN ks => ks end in
  \sum_(v <- ks) \sum_x `|v x| < (10%:R ^+ 6)^-1.

Definition kpts_ndim1 (k : kpts_array) : bool :=
  if k is Kpt1 _ then true else false.

(** [kpts.reshape(-1, 3)] *)
Definition reshape3 (k : kpts_array) : seq (vec R 3) :=
  match k with Kpt1 k => [:: k] | KptN ks => ks end.

(** [_check_kpts(mydf, kpts)] *)
Definition _check_kpts (mydf : DF) (kpts : option kpts_array) :
  seq (vec R 3) * bool :=
  match kpts with
  | None =>
      let kpts := df_kpts mydf in
      (reshape3 kpts, kpts_ndim1 kpts || is_zero kpts)
  | Some kpts => (reshape3 kpts, kpts_ndim1 kpts)
  end.

(** [get_nuc_atomic_df(mydf, kpts)] *)
Definition get_nuc_atomic_df (mydf : DF) (kpts : option kpts_array) :
  result per_kpt :=
  let '(kpts, is_single_kpt) := _check_kpts mydf kpts in
  let cell := cell mydf in
  if _prefer_ccdf mydf || (0 < omega cell) then
    (* For long-range integrals _CCGDFBuilder is the only option *)
    Raise NotImplementedError
  else
    let* vne_at := get_pp_loc_part1 b cell kpts false in
    if is_single_kpt then
      let* v := getitem vne_at 0 in Ok (OneKpt v)
    else Ok (AllKpts vne_at).

(** [get_pp_atomic_df(mydf, kpts)], returning
    [(vpp_total, vpp_loc1_at, vpp_loc2_at + vpp_nl_at)]. *)
Definition get_pp_atomic_df (mydf : DF) (kpts : option kpts_array) :
  result (per_kpt * per_kpt * per_kpt) :=
  let '(kpts, is_single_kpt) := _check_kpts mydf kpts in
  let cell := cell mydf in
  if _prefer_ccdf mydf || (0 < omega cell) then
    Raise NotImplementedError
  else
    let* vpp_loc1_at := get_pp_loc_part1 b cell kpts true in
    let* vpp_loc2_at := get_pp_loc_part2 b cell kpts in
    let* vpp_nl_at := get_pp_nl b cell kpts in
    let add := fun x y => [seq add_matrices b xy.1 xy.2 | xy <- zip x y] in
    let vpp_total := add (add vpp_loc1_at vpp_loc2_at) vpp_nl_at in
    if is_single_kpt then
      let* t := getitem vpp_total 0 in
      let* l1 := getitem vpp_loc1_at 0 in
      let* l2 := getitem vpp_loc2_at 0 in
      let* nl := getitem vpp_nl_at 0 in
      Ok (OneKpt t, OneKpt l1, OneKpt (add_matrices b l2 nl))
    else Ok (AllKpts vpp_total, AllKpts vpp_loc1_at,
             AllKpts (add vpp_loc2_at vpp_nl_at)).

End Pbc.

Arguments Kpt1 {R} k.
Arguments KptN {R} ks.
Arguments Cell R : clear implicits.
Arguments MkCell {R} omega.
Arguments omega {R} c.
Arguments DF R : clear implicits.
Arguments MkDF {R} _prefer_ccdf cell df_kpts.
Arguments _prefer_ccdf {R} d.
Arguments cell {R} d.
Arguments df_kpts {R} d.
Arguments Builders R ao_matrices : clear implicits.
Arguments MkBuilders {R ao_matrices}.
Arguments OneKpt {ao_matrices} v.
Arguments AllKpts {ao_matrices} l.
Arguments is_zero {R} k.
Arguments _check_kpts {R} mydf kpts.
Arguments get_nuc_atomic_df {R ao_matrices} b mydf kpts.
Arguments get_pp_atomic_df {R ao_matrices} b mydf kpts.

(** ** Example inputs, over the rationals *)

Module Examples.

(** [lib.norm] is not read in these examples. *)
Definition norm0 : vec rat 3 -> rat := fun _ => 0.

(** A single proton at the origin. *)
Definition proton : Mole rat :=
  MkMole rat 1 (fun _ => 1) (fun _ _ => 0) (fun _ _ => 0).

(** [lib.norm] on the vectors along the x axis. *)
Definition norm_x : vec rat 3 -> rat := fun v => `|v ord0|.

(** An MM region of one unit point charge on the x axis, at distance 1 from
    the origin. *)
Definition mm_site : Mole rat :=
  MkMole rat 1 (fun _ => 1) (fun _ x => (x == ord0)%:R) (fun _ _ => 0).

(** Two unit charges on the x axis, at distance 3/2. *)
Definition h2 : Mole rat :=
  MkMole rat 2 (fun _ => 1)
    (fun a x => if x == ord0 then (a : nat)%:R * (3%:R / 2%:R) else 0)
    (fun a b => if a == b then 0 else 3%:R / 2%:R).

(** A minimal basis on them: one AO per atom, one occupied orbital per
    spin, unit integrals on the diagonal. *)
Definition h2_mol : Mol rat :=
  MkMol rat h2 2 (fun _ => 1%N) (fun _ => [:: ord0]) (fun i => i)
    (fun p q => (p == q)%:R) (fun _ p q => (p == q)%:R)
    (fun _ _ _ _ => 0).

(** A Hartree-Fock object without MM region and solvent. *)
Definition h2_mf : MeanField h2_mol :=
  MkMeanField rat h2_mol None (fun _ _ => 0) None (fun d => (d, d)) None.

Definition h2_mo_coeff : forall s, mat rat (nao h2_mol) (norb h2_mol s) :=
  fun _ _ _ => 1.

Definition h2_mo_occ : forall s, vec rat (norb h2_mol s) := fun _ _ => 1.

(** Each orbital shared evenly by the two atoms, and each orbital owned by
    the first atom. *)
Definition h2_even : weights_t h2_mol :=
  fun _ => PyList [:: fun _ => half].

Definition h2_first : weights_t h2_mol :=
  fun _ => PyList [:: fun a => (a == ord0)%:R].

Definition h2_kwargs (w : weights_t h2_mol) : kwargs_t h2_mol :=
  [:: ("weights"%string, KwWeights w)].

(** The second atom. *)
Definition atom1 : 'I_(natm (atoms h2_mol)) := @Ordinal 2 1 isT.

(** Four threads. *)
Definition rt4 : Runtime rat := MkRuntime norm0 4.

(** The closure that [prop_tot] builds for these inputs in energy mode. *)
Definition h2_closure (w : weights_t h2_mol) : Closure h2_mol :=
  let rdm1_tot := fun s => make_rdm1 (h2_mo_coeff s) (h2_mo_occ s) in
  MkClosure Energy RefNone h2_mo_coeff h2_mo_occ (Some w) None rdm1_tot None
    (fun a => Scalar (_e_nuc norm0 h2 None a))
    (_h_core h2_mf).1.1.1 (_h_core h2_mf).1.1.2 (_h_core h2_mf).1.2
    (_h_core h2_mf).2 (get_jk h2_mf rdm1_tot).1 (get_jk h2_mf rdm1_tot).2
    None.

(** An open-shell system: one alpha and two beta orbitals on the two unit
    charges, with a closure of a Hartree-Fock energy decomposition. *)
Definition open_mol : Mol rat :=
  MkMol rat h2 2 (fun s => if s is Alpha then 1%N else 2%N)
    (fun s => enum 'I_(if s is Alpha then 1%N else 2%N)) (fun i => i)
    (fun p q => (p == q)%:R) (fun _ p q => (p == q)%:R)
    (fun _ _ _ _ => 0).

Definition open_closure : Closure open_mol :=
  MkClosure Energy RefNone (fun _ _ _ => 1) (fun _ _ => 1) None None
    (fun _ _ _ => 1) None (fun _ => Scalar 0) (fun p q => (p == q)%:R)
    (fun _ _ => 0) (fun _ _ _ => 0) None (fun _ _ _ => 0) (fun _ _ _ => 0)
    None.

(** Its bond assignment: the alpha orbital, and the two beta orbitals. *)
Definition open_rep_idx : rep_idx_t open_mol :=
  fun s => match s with
           | Alpha => [:: @Ordinal 1 0 isT]
           | Beta => [:: @Ordinal 2 0 isT; @Ordinal 2 1 isT]
           end.

(** Collaborators that accept every configuration, keep the orbitals, and
    assign [w] (atoms) or no bond orbitals (bonds). *)
Definition h2_up (w : weights_t h2_mol) : Upstream h2_mol :=
  MkUpstream (fun _ => Ok tt) (fun _ => (h2_mo_coeff, h2_mo_occ))
    (fun _ _ => (h2_mo_coeff, h2_mo_occ)) (fun orbs _ _ => orbs.1)
    (fun _ _ => w) (fun _ _ => (fun _ => [::], fun _ => [::]))
    (fun _ _ => Ok tt).

(** A request for the atom-wise dipole moment of a restricted reference,
    with the origin of the coordinates as gauge origin. *)
Definition dipole_request : DecompCls rat :=
  MkDecompCls "" "mulliken" Atoms Dipole "restricted" false 0 0 false
    (fun _ => 0) "".

(** A request for the atom-wise energies of the same reference. *)
Definition energy_request : DecompCls rat :=
  MkDecompCls "" "mulliken" Atoms Energy "restricted" false 0 0 false
    (fun _ => 0) "".

(** A density-fitting object that prefers the compensated-charge builder,
    and builders that return nothing. *)
Definition ccdf : DF rat := MkDF true (MkCell 0) (KptN [:: fun _ => 0]).

Definition no_builders : Builders rat unit :=
  MkBuilders (fun _ _ _ => Ok [::]) (fun _ _ => Ok [::]) (fun _ _ => Ok [::])
    (fun _ _ => tt).

End Examples.

(** ** The terms of the mean-field energy of the total density

    What the components of a decomposition add up to. *)

Section Totals.

Variable R : numFieldType.
Variable mol : Mol R.
Variable c : Closure mol.

Notation natoms := (natm (atoms mol)).
Notation op := (mat R (nao mol) (nao mol)).

(** The Coulomb energy: one half of the trace of the Coulomb operator of
    both spins with the total density. *)
Definition coul_total : R :=
  _trace (spin_sum (vj c)) (spin_sum (rdm1_tot c)) half.

(** The exchange energy: minus one half of the trace of the exchange
    operator of each spin with the density of that spin. *)
Definition exch_total : R :=
  - _trace (vk c Alpha) (rdm1_tot c Alpha) half
  - _trace (vk c Beta) (rdm1_tot c Beta) half.

Definition kin_total : R := _trace (kin_op c) (spin_sum (rdm1_tot c)) 1.

(** The embedding terms: the MM potential traced with the total density,
    and the atom-wise continuum-solvation energies. *)
Definition solvent_total : R :=
  (if mm_pot c is Some pot then _trace pot (spin_sum (rdm1_tot c)) 1 else 0)
  + (if e_solvent c is Some e then \sum_a e a else 0).

(** The exchange-correlation energy on the grids, with the non-local part. *)
Definition xc_total : R :=
  match dft c with
  | None => 0
  | Some e =>
      grid_energy (ao_value e) (eps_xc e) (grid_weights e)
        (spin_sum (rdm1_tot c))
      + match dft_nlc e with
        | None => 0
        | Some n =>
            grid_energy (ao_value_nlc n) (eps_xc_nlc n) (grid_weights_nlc n)
              (spin_sum (rdm1_tot c))
        end
  end.

(** The number held by a component of a result dictionary. *)
Definition component (res : dict (value R)) (key : comp_key) : R :=
  if dict_get key res is Ok (Scalar x) then x else 0.

(** ** The components of the EDA strategy in closed form *)

Definition coul_eda (a : 'I_natoms) : R :=
  _trace (take_rows (select_aos a) (spin_sum (vj c)))
    (take_rows (select_aos a) (rdm1_tot c Alpha)) half
  + _trace (take_rows (select_aos a) (spin_sum (vj c)))
      (take_rows (select_aos a) (rdm1_tot c Beta)) half.

Definition exch_eda (a : 'I_natoms) : R :=
  - _trace (take_rows (select_aos a) (vk c Alpha))
      (take_rows (select_aos a) (rdm1_tot c Alpha)) half
  - _trace (take_rows (select_aos a) (vk c Beta))
      (take_rows (select_aos a) (rdm1_tot c Beta)) half.

Definition kin_eda (a : 'I_natoms) : R :=
  _trace (take_rows (select_aos a) (kin_op c))
    (take_rows (select_aos a) (spin_sum (rdm1_tot c))) 1.

Definition solvent_eda (a : 'I_natoms) : R :=
  (if mm_pot c is Some pot
   then _trace (take_rows (select_aos a) pot)
          (take_rows (select_aos a) (spin_sum (rdm1_tot c))) 1
   else 0)
  + (if e_solvent c is Some e then e a else 0).

(** The density on the grid that [prop_eda] builds from the columns [select]
    of the intermediate [c0] and of the AO values. *)
Definition selected_density {ngrids : nat} (select : seq 'I_(nao mol))
  (c0 a0 : mat R ngrids (nao mol)) : vec R ngrids :=
  fun p => \sum_(i <- select) c0 p i * a0 p i.

Definition selected_energy {ngrids : nat} (select : seq 'I_(nao mol))
  (ct : interm R ngrids (nao mol)) (ao : ao_array R ngrids (nao mol))
  (eps wts : vec R ngrids) : R :=
  \sum_p eps p * selected_density select ct.1 (ao_values ao) p * wts p.

Definition xc_eda (a : 'I_natoms) : R :=
  match dft c with
  | None => 0
  | Some e =>
      selected_energy (select_aos a) (c_tot e) (ao_value e) (eps_xc e)
        (grid_weights e)
      + match dft_nlc e with
        | None => 0
        | Some n =>
            selected_energy (select_aos a) (c_vv10 n) (ao_value_nlc n)
              (eps_xc_nlc n) (grid_weights_nlc n)
        end
  end.

(** The intermediates have the first-derivative part that a meta-GGA
    reads. *)
Definition interm_fits {ngrids : nat} (ct : interm R ngrids (nao mol))
  (xctype : xc_kind) : bool :=
  match xctype, ct.2 with
  | MGGA, Some l => (2 < size l)%N
  | MGGA, None => false
  | _, _ => true
  end.

(** The class of the functional reads a stack of AO components. *)
Definition reads_ao_stack (xctype : xc_kind) : bool :=
  match xctype with
  | LDA | HF => false
  | GGA | NLC | MGGA => true
  end.

(** The term of the bond strategy in dipole mode, for the dipole integrals
    [d]. *)
Definition bond_dip (d : stack R 3 (nao mol) (nao mol)) (i : spin)
  (j : 'I_(norb mol i)) : value R :=
  vopp (Vector (_trace_x d
                  (rdm1_of_orbital (mo_coeff c i) (mo_occ c i) j) 1)).

End Totals.

Arguments coul_total {R mol} c.
Arguments exch_total {R mol} c.
Arguments kin_total {R mol} c.
Arguments solvent_total {R mol} c.
Arguments xc_total {R mol} c.
Arguments component {R} res key.
Arguments coul_eda {R mol} c a.
Arguments exch_eda {R mol} c a.
Arguments kin_eda {R mol} c a.
Arguments solvent_eda {R mol} c a.
Arguments selected_density {R mol ngrids} select c0 a0 _.
Arguments selected_energy {R mol ngrids} select ct ao eps wts.
Arguments xc_eda {R mol} c a.
Arguments interm_fits {R mol ngrids} ct xctype.
Arguments bond_dip {R mol} c d i j.

(** The density matrix behind the intermediates and the density that
    [_make_rho] returns: the matrix itself when it is 2-d; for a two-spin
    stack, twice the alpha matrix when [ref == 'restricted'], and the sum of
    the two matrices otherwise. *)
Definition rho_input {R : numFieldType} {nao : nat} {A : Type}
  (rdm1 : rdm1_arg R nao) (ref : pyref A) : mat R nao nao :=
  match rdm1 with
  | Rdm2 d => d
  | Rdm3 d =>
      if ref_is_restricted ref then fun i j => d Alpha i j * 2%:R
      else spin_sum d
  end.

(** The density itself (row 0 for a stack of rows) of what [_make_rho]
    returns as [rho], the two spins added. *)
Definition rho_value {R : numFieldType} {ngrids : nat}
  (rho : rho_res R ngrids) : vec R ngrids :=
  match rho with
  | RhoArr r => rho_density r
  | RhoPair ra rb => fun p => rho_density ra p + rho_density rb p
  end.

(** The term of the bond strategy for the orbital [j] of spin [i] in energy
    mode: its electronic energy and, for a Kohn-Sham object, the quadrature
    of the xc energy density with the density of the orbital. *)
Definition bond_energy {R : numFieldType} {mol : Mol R} (c : Closure mol)
  (i : spin) (j : 'I_(norb mol i)) : R :=
  let rdm1_orb := rdm1_of_orbital (mo_coeff c i) (mo_occ c i) j in
  match dft c with
  | None => bond_el c i j
  | Some e =>
      let e_xc := grid_energy (ao_value e) (eps_xc e) (grid_weights e)
                    rdm1_orb in
      match dft_nlc e with
      | None => bond_el c i j + e_xc
      | Some n =>
          bond_el c i j + e_xc
          + grid_energy (ao_value_nlc n) (eps_xc_nlc n) (grid_weights_nlc n)
              rdm1_orb
      end
  end.

(** The electronic energy of the total density: what the terms of the bond
    strategy add up to. *)
Definition el_total {R : numFieldType} {mol : Mol R} (c : Closure mol) : R :=
  coul_total c + exch_total c + kin_total c + nuc_att_total c
  + (if mm_pot c is Some pot then _trace pot (spin_sum (rdm1_tot c)) 1 else 0)
  + xc_total c.

(** ** [results.py]: the summary of a decomposition *)

Section Results.

(** The values of the result arrays and of the numbers of the
    configuration. *)
Variables P T : Type.

(** What [collect_res] and [_ref] read of [mol] and of [decomp]. *)
Record ResMol : Type := MkResMol {
  m_spin : int;
  m_groupname : string
}.

Record ResDecomp : Type := MkResDecomp {
  r_prop_el : P;
  r_prop_nuc : P;
  r_ref : string;
  r_thres : T;
  r_part : string;
  r_time : T;
  r_orbs : string;
  r_loc : string;
  r_pop : string;
  r_xc : string
}.

Inductive res_value : Type :=
| ResProp (p : P)
| ResNum (x : T)
| ResStr (s : string).

(** [_ref(mol, decomp)] *)
Definition _ref (mol : ResMol) (decomp : ResDecomp) : string :=
  if String.eqb (r_ref decomp) "restricted" then
    if m_spin mol == 0 then
      if String.eqb (r_xc decomp) EmptyString then "RHF"%string
      else "RKS"%string
    else
      if String.eqb (r_xc decomp) EmptyString then "ROHF"%string
      else "ROKS"%string
  else
    if String.eqb (r_xc decomp) EmptyString then "UHF"%string else "UKS"%string.

(** [collect_res(mol, decomp)]: the dictionary in insertion order. *)
Definition collect_res (mol : ResMol) (decomp : ResDecomp) :
  seq (string * res_value) :=
  let res := [:: ("prop_el"%string, ResProp (r_prop_el decomp));
                 ("prop_nuc"%string, ResProp (r_prop_nuc decomp));
                 ("ref"%string, ResStr (_ref mol decomp));
                 ("thres"%string, ResNum (r_thres decomp));
                 ("part"%string, ResStr (r_part decomp));
                 ("time"%string, ResNum (r_time decomp));
                 ("sym"%string, ResStr (m_groupname mol))] in
  let res := if String.eqb (r_orbs decomp) "localized"
             then res ++ [:: ("loc"%string, ResStr (r_loc decomp));
                             ("pop"%string, ResStr (r_pop decomp))]
             else res in
  if negb (String.eqb (r_xc decomp) EmptyString)
  then res ++ [:: ("xc"%string, ResStr (r_xc decomp))]
  else res.

(** [res.get(key)] *)
Fixpoint res_get (key : string) (res : seq (string * res_value)) :
  option res_value :=
  match res with
  | [::] => None
  | (k, v) :: rest => if String.eqb key k then Some v else res_get key rest
  end.

(** The labels of the Kohn-Sham references. *)
Definition is_ks_label (label : string) : bool :=
  String.eqb label "RKS" || String.eqb label "ROKS" || String.eqb label "UKS".

(** The labels of the Hartree-Fock references. *)
Definition is_hf_label (label : string) : bool :=
  String.eqb label "RHF" || String.eqb label "ROHF" || String.eqb label "UHF".

End Results.

Arguments MkResDecomp {P T}.
Arguments r_prop_el {P T} r.
Arguments r_prop_nuc {P T} r.
Arguments r_ref {P T} r.
Arguments r_thres {P T} r.
Arguments r_part {P T} r.
Arguments r_time {P T} r.
Arguments r_orbs {P T} r.
Arguments r_loc {P T} r.
Arguments r_pop {P T} r.
Arguments r_xc {P T} r.
Arguments ResProp {P T} p.
Arguments ResNum {P T} x.
Arguments ResStr {P T} s.
Arguments _ref {P T} mol decomp.
Arguments collect_res {P T} mol decomp.
Arguments res_get {P T} key res.

(** ** Further example inputs, over the rationals *)

Module Cases.

Import Examples.

(** Kohn-Sham objects on the two unit charges, on a grid of one point with
    unit weight and unit xc energy density, without exact exchange, range
    separation and non-local correlation: one with a functional of class
    LDA (AO values as a 2-d array), one of class GGA (a stack of four). *)
Definition lda : KohnSham h2_mol :=
  MkKohnSham rat h2_mol LDA 0 0 0 (fun d => d) 1
    (fun _ => Ao2 (fun _ _ => 1)) (fun _ => 1) (fun _ _ => 1) None.

Definition gga : KohnSham h2_mol :=
  MkKohnSham rat h2_mol GGA 0 0 0 (fun d => d) 1
    (fun _ => Ao3 [:: fun _ _ => 1; fun _ _ => 0; fun _ _ => 0; fun _ _ => 0])
    (fun _ => 1) (fun _ _ => 1) None.

Definition h2_lda : MeanField h2_mol :=
  MkMeanField rat h2_mol None (fun _ _ => 0) None (fun d => (d, d)) (Some lda).

Definition h2_gga : MeanField h2_mol :=
  MkMeanField rat h2_mol None (fun _ _ => 0) None (fun d => (d, d)) (Some gga).

(** Keyword arguments of a direct call of [prop_tot] in dipole mode. *)
Definition dipole_kwargs : kwargs_t h2_mol :=
  [:: ("dipole_origin"%string, KwCoord (fun _ => 0));
      ("weights"%string, KwWeights h2_even)].

(** A request for the orbital-wise energies. *)
Definition orbs_request : DecompCls rat :=
  MkDecompCls EmptyString "mulliken" Orbs Energy "restricted" false 0 0 false
    (fun _ => 0) EmptyString.

(** Weights as arrays: three alpha rows and two beta rows, and two alpha
    rows and one beta row. *)
Definition w32 : weights_t h2_mol :=
  fun s => if s is Alpha
           then NdArray [:: fun _ => half; fun _ => half; fun _ => half]
           else NdArray [:: fun _ => half; fun _ => half].

Definition w21 : weights_t h2_mol :=
  fun s => if s is Alpha then NdArray [:: fun _ => half; fun _ => half]
           else NdArray [:: fun _ => half].

(** A lithium atom in a basis of two functions, with two occupied alpha
    orbitals and one occupied beta orbital, a Hartree-Fock object on it, and
    weights as one array per spin: a row per occupied orbital. *)
Definition li : Mole rat :=
  MkMole rat 1 (fun _ => 3%:R) (fun _ _ => 0) (fun _ _ => 0).

Definition li_mol : Mol rat :=
  MkMol rat li 2 (fun _ => 2%N)
    (fun s => if s is Alpha then [:: @Ordinal 2 0 isT; @Ordinal 2 1 isT]
              else [:: @Ordinal 2 0 isT])
    (fun _ => ord0) (fun p q => (p == q)%:R) (fun _ p q => (p == q)%:R)
    (fun _ _ _ _ => 0).

Definition li_mf : MeanField li_mol :=
  MkMeanField rat li_mol None (fun _ _ => 0) None (fun d => (d, d)) None.

Definition li_mo_coeff : forall s, mat rat (nao li_mol) (norb li_mol s) :=
  fun _ p j => ((p : nat) == j)%:R.

Definition li_mo_occ : forall s, vec rat (norb li_mol s) :=
  fun s j => if s is Alpha then 1 else ((j : nat) == 0%N)%:R.

Definition li_weights : weights_t li_mol :=
  fun s => if s is Alpha then NdArray [:: fun _ => 1; fun _ => 1]
           else NdArray [:: fun _ => 1].

Definition li_kwargs : kwargs_t li_mol :=
  [:: ("weights"%string, KwWeights li_weights)].

(** Weights without a row. *)
Definition no_rows : weights_t h2_mol := fun _ => PyList [::].

(** A unit charge and a ghost centre, with one basis function each; the
    orbitals belong to the unit charge. *)
Definition h_ghost : Mole rat :=
  MkMole rat 2 (fun a => (a == ord0)%:R)
    (fun a x => if x == ord0 then (a : nat)%:R else 0)
    (fun a b => if a == b then 0 else 1).

Definition ghost_mol : Mol rat :=
  MkMol rat h_ghost 2 (fun _ => 1%N) (fun _ => [:: ord0]) (fun i => i)
    (fun p q => (p == q)%:R) (fun _ p q => (p == q)%:R)
    (fun _ _ _ _ => 0).

Definition ghost_mf : MeanField ghost_mol :=
  MkMeanField rat ghost_mol None (fun _ _ => 0) None (fun d => (d, d)) None.

Definition ghost_weights : weights_t ghost_mol :=
  fun _ => PyList [:: fun a => (a == ord0)%:R].

Definition ghost : 'I_(natm (atoms ghost_mol)) := @Ordinal 2 1 isT.

Definition ghost_mo_coeff :
  forall s, mat rat (nao ghost_mol) (norb ghost_mol s) := fun _ _ _ => 1.

Definition ghost_mo_occ : forall s, vec rat (norb ghost_mol s) :=
  fun _ _ => 1.

Definition ghost_kwargs : kwargs_t ghost_mol :=
  [:: ("weights"%string, KwWeights ghost_weights)].

(** Bond assignments of the open-shell system: the first orbital of either
    spin, and the first beta orbital alone. *)
Definition first_orbitals : rep_idx_t open_mol :=
  fun s => match s with
           | Alpha => [:: @Ordinal 1 0 isT]
           | Beta => [:: @Ordinal 2 0 isT]
           end.

Definition beta_only : rep_idx_t open_mol :=
  fun s => match s with
           | Alpha => [::]
           | Beta => [:: @Ordinal 2 0 isT]
           end.

(** A density-fitting object at the Gamma point, and builders that return
    one matrix per k-point. *)
Definition gamma_df : DF rat := MkDF false (MkCell 0) (KptN [:: fun _ => 0]).

Definition unit_builders : Builders rat unit :=
  MkBuilders (fun _ ks _ => Ok (map (fun _ => tt) ks))
    (fun _ ks => Ok (map (fun _ => tt) ks))
    (fun _ ks => Ok (map (fun _ => tt) ks)) (fun _ _ => tt).

(** The summary of a restricted Kohn-Sham calculation with canonical
    orbitals. *)
Definition rks_decomp : ResDecomp unit nat :=
  MkResDecomp tt tt "restricted" 0%N "atoms" 0%N "canonical" EmptyString
    "mulliken" "pbe".

End Cases.

(** * Part II: the properties *)

(** ** Results *)

Lemma bind_Ok {T U : Type} {r : result T} {k : T -> result U} {y : U} :
  bind r k = Ok y -> exists2 x, r = Ok x & k x = Ok y.
Proof. by case: r => [x|e] //= H; exists x. Qed.

(** ** Sums over pairs of distinct indices *)

Section PairSums.

Context {R : numFieldType}.

Lemma sum_offdiag_split {n : nat} (f : 'I_n -> 'I_n -> R) (a : 'I_n) :
  \sum_(b | b != a) f a b =
  \sum_(b < n | (b < a)%N) f a b + \sum_(b < n | (a < b)%N) f a b.
Proof.
rewrite (bigID (fun b : 'I_n => (b < a)%N)) /=; congr (_ + _).
  by apply: eq_bigl => b; rewrite -val_eqE /= andbC neq_ltn; case: (b < a)%N.
by apply: eq_bigl => b; rewrite -val_eqE /= neq_ltn -leqNgt; case: ltngtP.
Qed.

Lemma sum_lower_upper {n : nat} (f : 'I_n -> 'I_n -> R) :
  \sum_(a < n) \sum_(b < n | (b < a)%N) f a b =
  \sum_(a < n) \sum_(b < n | (a < b)%N) f b a.
Proof. by rewrite (exchange_big_dep xpredT). Qed.

Lemma sum_offdiag_sym {n : nat} (f : 'I_n -> 'I_n -> R) :
  (forall a b, f a b = f b a) ->
  \sum_(a < n) \sum_(b | b != a) f a b =
  2%:R * \sum_(a < n) \sum_(b < n | (a < b)%N) f a b.
Proof.
move=> fsym.
rewrite (eq_bigr _ (fun a _ => sum_offdiag_split f a)) big_split /=.
rewrite sum_lower_upper mulr_natl mulr2n; congr (_ + _).
by apply: eq_bigr => a _; apply: eq_bigr => b _.
Qed.

Lemma half_neq0 : (half : R) != 0.
Proof. by rewrite invr_eq0 pnatr_eq0. Qed.

Lemma half_double (x : R) : half * (2%:R * x) = x.
Proof. by rewrite mulrA mulVf ?mul1r // pnatr_eq0. Qed.

Lemma halfD : (half : R) + half = 1.
Proof. by rewrite -mulr2n -mulr_natl mulfV // pnatr_eq0. Qed.

Lemma self_dist_neq0 : (self_dist : R) != 0.
Proof. by rewrite expf_neq0 // pnatr_eq0. Qed.

End PairSums.

(** ** The nuclear repulsion *)

Section NuclearTheory.

Context {R : numFieldType}.
Variable norm : vec R 3 -> R.

Lemma e_nuc_qm (mol : Mole R) (a : 'I_(natm mol)) :
  _e_nuc norm mol None a = spec_e_nuc mol a + self_residue mol a.
Proof.
rewrite /_e_nuc /spec_e_nuc /self_residue /dist (bigD1 a) //= eqxx.
rewrite mulrDl addrC [in RHS]mulrC; congr (_ * _ + _).
  apply: eq_bigr => b; rewrite eq_sym => /negPf ->.
  by rewrite /pair_repulsion mulrAC.
by rewrite mulrC expr2 mulrAC.
Qed.

Lemma e_nuc_mm (mol : Mole R) (mm_mol : option (Mole R)) (a : 'I_(natm mol)) :
  _e_nuc norm mol mm_mol a = _e_nuc norm mol None a + mm_interaction norm mol mm_mol a.
Proof. by case: mm_mol => [mm|] /=; rewrite ?addr0. Qed.

Lemma pair_repulsion_sym (mol : Mole R) :
  (forall a b, inter_distance mol a b = inter_distance mol b a) ->
  forall a b, pair_repulsion mol a b = pair_repulsion mol b a.
Proof. by move=> dsym a b; rewrite /pair_repulsion dsym [_ a * _]mulrC. Qed.

Lemma sum_spec_e_nuc (mol : Mole R) :
  (forall a b, inter_distance mol a b = inter_distance mol b a) ->
  \sum_a spec_e_nuc mol a = e_nuc_total mol.
Proof.
move=> dsym; rewrite /spec_e_nuc -mulr_sumr.
by rewrite (sum_offdiag_sym _ (pair_repulsion_sym mol dsym)) half_double.
Qed.

Lemma e_nuc_exact (mol : Mole R) (mm_mol : option (Mole R))
  (a : 'I_(natm mol)) :
  _e_nuc norm mol mm_mol a
  - (spec_e_nuc mol a + mm_interaction norm mol mm_mol a)
  = self_residue mol a.
Proof.
rewrite e_nuc_mm e_nuc_qm opprD addrACA subrr addr0.
by rewrite addrAC subrr add0r.
Qed.

Lemma ten_pos (n : nat) : 0 < 10%:R ^+ n :> R.
Proof. by rewrite exprn_gt0 // ltr0n. Qed.

Lemma under_tolerance (x : R) :
  x <= 10%:R ^+ 190 -> x / (2%:R * 10%:R ^+ 200) < tolerance.
Proof.
move=> le_x; rewrite /tolerance.
have pos : 0 < 2%:R * 10%:R ^+ 200 :> R by rewrite mulr_gt0 ?ten_pos ?ltr0n.
rewrite ltr_pdivrMr //.
have -> : (200 = 10 + 190)%N by [].
rewrite exprD mulrCA mulKf; first by rewrite expf_neq0 // pnatr_eq0.
apply: (Order.POrderTheory.le_lt_trans le_x).
by rewrite ltr_pMl ?ten_pos // ltr1n.
Qed.

Lemma sum_sq_ge (n : nat) (z : 'I_n -> R) (a : 'I_n) :
  `|z a| ^+ 2 <= \sum_b `|z b| ^+ 2.
Proof.
rewrite (bigD1 a) //= lerDl sumr_ge0 // => b _.
by rewrite exprn_ge0.
Qed.

Lemma self_residue_norm (mol : Mole R) (a : 'I_(natm mol)) :
  `|self_residue mol a|
  = `|atom_charges mol a| ^+ 2 / (2%:R * 10%:R ^+ 200).
Proof.
rewrite /self_residue /self_dist /half.
rewrite normrM normfV normr_nat normrM normfV !normrX normr_nat.
by rewrite invfM mulrCA mulrA.
Qed.

(** C3, as the code has it.  For nuclear charges whose squares add up to at
    most [1e190], the structural entry of every atom in energy mode is,
    within the tolerance [1e-10] of the specification, one half of the sum
    over the other atoms of the products of the two charges divided by
    their distance, plus the interaction of the nucleus with the MM sites
    if there are any; for symmetric distances the entries add up, within
    the same tolerance, to the pairwise repulsion energy plus these
    interactions. *)
Theorem e_nuc_within_tolerance (mol : Mole R) (mm_mol : option (Mole R)) :
  \sum_a `|atom_charges mol a| ^+ 2 <= 10%:R ^+ 190 ->
  (forall a,
     `|_e_nuc norm mol mm_mol a
       - (spec_e_nuc mol a + mm_interaction norm mol mm_mol a)| < tolerance)
  /\ ((forall a b, inter_distance mol a b = inter_distance mol b a) ->
      `|\sum_a _e_nuc norm mol mm_mol a
        - (e_nuc_total mol + \sum_a mm_interaction norm mol mm_mol a)|
      < tolerance).
Proof.
move=> small; split=> [a|dsym].
  rewrite e_nuc_exact self_residue_norm; apply: under_tolerance.
  exact: Order.POrderTheory.le_trans (sum_sq_ge _ (atom_charges mol) a) small.
have -> : \sum_a _e_nuc norm mol mm_mol a
          - (e_nuc_total mol + \sum_a mm_interaction norm mol mm_mol a)
          = \sum_a self_residue mol a.
  rewrite -(sum_spec_e_nuc mol dsym) -big_split /= -sumrB.
  by apply: eq_bigr => a _; exact: e_nuc_exact.
apply: Order.POrderTheory.le_lt_trans (ler_norm_sum _ _ _) _.
rewrite (eq_bigr _ (fun a _ => self_residue_norm mol a)) -mulr_suml.
exact: under_tolerance.
Qed.

(** Unit charges on at most ten centres are within the bound on the
    charges. *)
Lemma unit_charges_small (mol : Mole R) :
  (forall a, atom_charges mol a = 1) -> (natm mol <= 10)%N ->
  \sum_a `|atom_charges mol a| ^+ 2 <= 10%:R ^+ 190.
Proof.
move=> unit le_n.
have -> : \sum_a `|atom_charges mol a| ^+ 2 = \sum_(a < natm mol) 1.
  by apply: eq_bigr => a _; rewrite unit normr1 expr1n.
rewrite sumr_const card_ord -[1 *+ natm mol]/((natm mol)%:R).
apply: (@Order.POrderTheory.le_trans _ _ 10%:R); first by rewrite ler_nat.
by rewrite ler_eXnr // ler1n.
Qed.

(** A unit charge that interacts with the MM sites with a unit energy: its
    entry is off the sum over the other atoms by at least 1. *)
Lemma mm_gap (mol mm : Mole R) (a : 'I_(natm mol)) :
  atom_charges mol a = 1 -> mm_interaction norm mol (Some mm) a = 1 ->
  1 <= `|_e_nuc norm mol (Some mm) a - spec_e_nuc mol a|.
Proof.
move=> unit mm1.
have -> : _e_nuc norm mol (Some mm) a - spec_e_nuc mol a
          = self_residue mol a + 1.
  rewrite e_nuc_mm e_nuc_qm mm1 addrAC; congr (_ + _).
  by rewrite addrAC subrr add0r.
have pos : 0 <= self_residue mol a.
  rewrite /self_residue /half unit expr1n mulr_ge0 ?invr_ge0 ?ler0n //.
  by rewrite divr_ge0 ?ler01 // Order.POrderTheory.ltW // ten_pos.
by rewrite ger0_norm ?lerDr // addr_ge0 ?ler01.
Qed.

End NuclearTheory.

(** C3, as the code has it, for two unit charges at distance 3/2 without an
    MM region: the entries add up to the repulsion of the pair within the
    tolerance. *)
Lemma e_nuc_within_tolerance_h2 :
  `|\sum_a _e_nuc Examples.norm0 Examples.h2 None a
    - (e_nuc_total Examples.h2
       + \sum_a mm_interaction Examples.norm0 Examples.h2 None a)|
  < tolerance.
Proof.
have small := unit_charges_small Examples.h2 (fun _ => erefl) isT.
have dsym : forall a b : 'I_(natm Examples.h2),
    inter_distance Examples.h2 a b = inter_distance Examples.h2 b a.
  by move=> a b /=; rewrite eq_sym.
exact: (proj2 (e_nuc_within_tolerance Examples.norm0 Examples.h2 None small)
          dsym).
Defined.

(** C3, as stated, fails in an MM region: with a unit point charge at
    distance 1 from the first of the two unit charges, the structural entry
    of this atom is off the sum over the other atom by at least 1. *)
Lemma e_nuc_mm_not_spec :
  1 <= `|_e_nuc Examples.norm_x Examples.h2 (Some Examples.mm_site) ord0
         - spec_e_nuc Examples.h2 ord0|.
Proof.
apply: mm_gap => //.
rewrite /mm_interaction big_ord1 /= /Examples.norm_x eqxx.
by rewrite mul0r sub0r normrN normr1 divr1 ?mulr1 ?mul1r.
Qed.

(** ** The atom-weighted kernel *)

Lemma getitem_nth {T : Type} (x0 : T) (l : seq T) (k : nat) :
  (k < size l)%N -> getitem l k = Ok (nth x0 l k).
Proof. by move=> lt_k; rewrite /getitem (nth_map x0). Qed.

Lemma zip_iota_bound {T : Type} (l : seq T) (k n : nat) :
  (k + size l <= n)%N ->
  all (fun mj : nat * T => (mj.1 < n)%N) (zip (iota k (size l)) l).
Proof.
elim: l k => [|x l IH] k //=; rewrite addnS => le_n.
rewrite (leq_trans _ le_n) ?ltnS ?leq_addr //=.
by apply: IH; rewrite addSn.
Qed.

Lemma enumerate_bound {T : Type} (l : seq T) (n : nat) :
  (size l <= n)%N -> all (fun mj : nat * T => (mj.1 < n)%N) (enumerate l).
Proof. by move=> le_n; apply: zip_iota_bound. Qed.

Section Extensionality.

Context {R : numFieldType}.

Lemma eq_trace {m n : nat} (o : mat R m n) {d d' : mat R m n} (scaling : R) :
  d =2 d' -> _trace o d scaling = _trace o d' scaling.
Proof.
move=> eq_d; rewrite /_trace; congr (_ * _).
by apply: eq_bigr => i _; apply: eq_bigr => j _; rewrite eq_d.
Qed.

Lemma trace_zero {m n : nat} (o : mat R m n) {d : mat R m n} (scaling : R) :
  (forall i j, d i j = 0) -> _trace o d scaling = 0.
Proof.
move=> d0; rewrite /_trace big1 ?mul0r // => i _.
by rewrite big1 // => j _; rewrite d0 mulr0.
Qed.

Lemma eq_grid_energy {mol : Mol R} {ngrids : nat}
  (ao : ao_array R ngrids (nao mol)) (eps wts : vec R ngrids)
  {d d' : mat R (nao mol) (nao mol)} :
  d =2 d' -> grid_energy ao eps wts d = grid_energy ao eps wts d'.
Proof.
move=> eq_d; apply: eq_bigr => p _; congr (_ * _ * _).
apply: eq_bigr => i _; congr (_ * _).
by apply: eq_bigr => k _; rewrite eq_d.
Qed.

Lemma grid_energy_zero {mol : Mol R} {ngrids : nat}
  (ao : ao_array R ngrids (nao mol)) (eps wts : vec R ngrids)
  {d : mat R (nao mol) (nao mol)} :
  (forall i j, d i j = 0) -> grid_energy ao eps wts d = 0.
Proof.
move=> d0; rewrite /grid_energy big1 // => p _.
rewrite /grid_density big1 ?mulr0 ?mul0r // => i _.
by rewrite big1 ?mulr0 // => k _; rewrite d0 mulr0.
Qed.

(** For a 2-d density matrix and an AO array of the shape of the functional,
    [_make_rho] followed by [_e_xc] returns the grid energy of the density. *)
Lemma e_xc_of_fits {mol : Mol R} (c : Closure mol) {ngrids : nat}
  (ao : ao_array R ngrids (nao mol)) (eps wts : vec R ngrids)
  (rdm1 : mat R (nao mol) (nao mol)) (xctype : xc_kind) :
  ao_fits ao xctype ->
  e_xc_of c ao eps wts rdm1 xctype = Ok (grid_energy ao eps wts rdm1).
Proof.
rewrite /e_xc_of /_make_rho /grid_energy /_e_xc.
case: xctype; case: ao => [a|comps] //=;
  do 10?[case: comps => [|? comps] //=]; move=> _;
  congr Ok; apply: eq_bigr => p _; congr (_ * _ * _);
  by apply: eq_bigr => i _; first [by [] | by rewrite mulrC].
Qed.

End Extensionality.

Section AtomKernel.

Context {R : numFieldType} {mol : Mol R}.
Variable c : Closure mol.
Variable w : weights_t mol.
Hypothesis weights_bound : weights c = Some w.

Notation natoms := (natm (atoms mol)).
Notation op := (mat R (nao mol) (nao mol)).

Lemma weighted_rdm1_ok (i : spin) (a : 'I_natoms)
  (l : seq (nat * 'I_(norb mol i))) (acc : op) :
  all (fun mj : nat * 'I_(norb mol i) => (mj.1 < size (rows (w i)))%N) l ->
  exists2 D : op, weighted_rdm1 c i a l acc = Ok D
  & forall p q, D p q = acc p q
      + \sum_(mj <- l) rdm1_of_orbital (mo_coeff c i) (mo_occ c i) mj.2 p q
                       * atom_weight w i mj.1 a.
Proof.
elim: l acc => [|[m j] l IH] acc /=.
  by move=> _; exists acc => // p q; rewrite big_nil addr0.
case/andP=> lt_m /IH{}IH.
rewrite /weight_of weights_bound (getitem_nth (fun _ => 0)) //=.
case: (IH (fun p q => acc p q
         + rdm1_of_orbital (mo_coeff c i) (mo_occ c i) j p q
           * nth (fun _ => 0) (rows (w i)) m a)) => D -> eqD.
by exists D => // p q; rewrite eqD big_cons addrA.
Qed.

Lemma weighted_rdm1_density (i : spin) (a : 'I_natoms) :
  (size (occupied mol i) <= size (rows (w i)))%N ->
  exists2 D : op,
    weighted_rdm1 c i a (enumerate (occupied mol i)) zeros = Ok D
  & forall p q, D p q = atom_density c w a i p q.
Proof.
move=> /enumerate_bound/(weighted_rdm1_ok i a) -/(_ zeros) [D -> eqD].
by exists D => // p q; rewrite eqD add0r.
Qed.


(** In energy mode, with a row of weights for every occupied orbital and AO
    arrays of the shape of the functional, [prop_atom] returns the
    components in closed form. *)
Lemma prop_atom_energy_dict (a : 'I_natoms) :
  prop_type c = Energy -> rows_cover w -> grids_fit c ->
  prop_atom c a = Ok (atom_dict c w a).
Proof.
move=> energy /andP [cover_a cover_b].
have [Da eqa eqDa] := weighted_rdm1_density Alpha a cover_a.
have [Db eqb eqDb] := weighted_rdm1_density Beta a cover_b.
have eqD : spin_sum (fun i => if i is Alpha then Da else Db)
           =2 spin_sum (atom_density c w a).
  by move=> p q; rewrite /spin_sum eqDa eqDb.
rewrite /prop_atom /prop_atom_spin /init_res energy eqa /= eqb /=.
rewrite /xc_contribution /grids_fit /atom_dict /full_dict /atom_value
  /atom_component /el_atom /coul_atom /exch_atom /kin_atom /nuc_att_atom
  /xc_atom /solvent_atom /=.
case: (mm_pot c) => [pot|]; case: (e_solvent c) => [es|];
  case: (dft c) => [e|] /=; try case: (dft_nlc e) => [n|] /=;
  try (case/andP=> fit_e fit_n); try (rewrite andbT => fit_e);
  rewrite ?e_xc_of_fits //= /dict_iadd /=;
  by rewrite ?add0r ?addr0 ?sub0r ?(eq_trace _ _ eqDa) ?(eq_trace _ _ eqDb)
       ?(eq_trace _ _ eqD) ?(eq_grid_energy _ _ _ eqD).
Qed.

Lemma prop_atom_energy (a : 'I_natoms) :
  prop_type c = Energy -> rows_cover w -> grids_fit c ->
  exists2 res, prop_atom c a = Ok res
  & forall key, dict_get key res
      = Ok (if key is struct then vadd (Scalar 0) (prop_nuc_rep c a)
            else Scalar (atom_component c w key a)).
Proof.
move=> energy cover fit; exists (atom_dict c w a).
  exact: prop_atom_energy_dict.
by case.
Qed.

End AtomKernel.

Section Conservation.

Context {R : numFieldType} {mol : Mol R}.
Variable c : Closure mol.
Variable w : weights_t mol.

Notation natoms := (natm (atoms mol)).

Lemma rdm1_of_orbitalE {nao n : nat} (mo : mat R nao n) (occup : vec R n)
  (j : 'I_n) (p q : 'I_nao) :
  rdm1_of_orbital mo occup j p q = occup j * mo p j * mo q j.
Proof. by rewrite /rdm1_of_orbital /make_rdm1 big_ord1. Qed.

Lemma sum_enumerate {T : Type} (l : seq T) (F : T -> R) :
  \sum_(mj <- enumerate l) F mj.2 = \sum_(j <- l) F j.
Proof.
rewrite -[in RHS](@unzip2_zip _ _ (iota 0 (size l)) l) ?size_iota //.
by rewrite big_map.
Qed.

Lemma sum_atom_density (s : spin) (p q : 'I_(nao mol)) :
  occupied_domain c -> complete_weights w ->
  \sum_(a < natoms) atom_density c w a s p q
  = make_rdm1 (mo_coeff c s) (mo_occ c s) p q.
Proof.
move=> occ_dom complete; rewrite /atom_density exchange_big /=.
have [uniq_occ occ0] := occ_dom s.
transitivity (\sum_(mj <- enumerate (occupied mol s))
                rdm1_of_orbital (mo_coeff c s) (mo_occ c s) mj.2 p q).
  rewrite big_seq_cond [RHS]big_seq_cond; apply: eq_bigr => mj.
  rewrite andbT => mj_in; rewrite -mulr_sumr complete ?mulr1 //.
  by have /allP/(_ _ mj_in) := enumerate_bound (occupied mol s) _ (leqnn _).
rewrite (sum_enumerate _ (fun j => rdm1_of_orbital _ _ j p q)).
rewrite (big_uniq _ uniq_occ) /= big_mkcond /=.
apply: eq_bigr => j _; rewrite rdm1_of_orbitalE.
by case: ifPn => // /occ0 ->; rewrite !mul0r.
Qed.

Lemma eq_trace_op {m n : nat} {o o' : mat R m n} (d : mat R m n) (scaling : R) :
  o =2 o' -> _trace o d scaling = _trace o' d scaling.
Proof.
move=> eq_o; rewrite /_trace; congr (_ * _).
by apply: eq_bigr => i _; apply: eq_bigr => j _; rewrite eq_o.
Qed.

Lemma trace_sum_density {I : finType} {m n : nat} (o : mat R m n)
  (d : I -> mat R m n) (scaling : R) :
  \sum_a _trace o (d a) scaling
  = _trace o (fun p q => \sum_a d a p q) scaling.
Proof.
rewrite /_trace -mulr_suml exchange_big /=; congr (_ * _).
apply: eq_bigr => i _; rewrite exchange_big /=.
by apply: eq_bigr => j _; rewrite mulr_sumr.
Qed.

Lemma trace_sum_op {I : finType} {m n : nat} (o : I -> mat R m n)
  (d : mat R m n) (scaling : R) :
  \sum_a _trace (o a) d scaling
  = _trace (fun p q => \sum_a o a p q) d scaling.
Proof.
rewrite /_trace -mulr_suml exchange_big /=; congr (_ * _).
apply: eq_bigr => i _; rewrite exchange_big /=.
by apply: eq_bigr => j _; rewrite mulr_suml.
Qed.

Lemma trace_halves {m n : nat} (o d : mat R m n) :
  _trace o d half + _trace o d half = _trace o d 1.
Proof. by rewrite /_trace -mulrDr halfD. Qed.

(** The weighted nuclear-attraction terms of the atoms add up to the
    nuclear-attraction energy. *)
Lemma sum_nuc_att_atom :
  (forall s p q, rdm1_tot c s p q
                 = make_rdm1 (mo_coeff c s) (mo_occ c s) p q) ->
  (forall p q, nuc c p q = \sum_k sub_nuc c k p q) ->
  occupied_domain c -> complete_weights w ->
  \sum_a nuc_att_atom c w a = nuc_att_total c.
Proof.
move=> tot_eq nuc_eq occ_dom complete.
rewrite /nuc_att_atom /nuc_att_total big_split /=.
rewrite trace_sum_density trace_sum_op -trace_halves; congr (_ + _).
  apply: eq_trace => p q; rewrite /spin_sum big_split /=.
  by rewrite !sum_atom_density // !tot_eq.
by apply: eq_trace_op => p q; rewrite nuc_eq.
Qed.

End Conservation.


(** ** The closure built by [prop_tot] *)

Section ClosureTheory.

Context {R : numFieldType} (rt : Runtime R) {mol : Mol R}.
Variable mf : MeanField mol.
Variable mo_coeff0 : forall s, mat R (nao mol) (norb mol s).
Variable mo_occ0 : forall s, vec R (norb mol s).
Variable ref0 : pyref (spin -> mat R (nao mol) (nao mol)).
Variable pt : prop_kind.
Variable kwargs : kwargs_t mol.
Variable c : Closure mol.
Variable q : charge_t mol.
Hypothesis built :
  make_closure rt mf mo_coeff0 mo_occ0 ref0 pt kwargs = Ok (c, q).

Lemma make_closure_fields :
  [/\ prop_type c = pt,
      (forall s p q, rdm1_tot c s p q
                     = make_rdm1 (mo_coeff c s) (mo_occ c s) p q),
      (forall p q, nuc c p q = \sum_k sub_nuc c k p q),
      ref c = ref0
    & prop_nuc_rep c
      = match pt with
        | Energy => fun a => Scalar (_e_nuc (norm rt) (atoms mol) (mm_mol mf) a)
        | Dipole => fun a => Vector (_dip_nuc (atoms mol) a)
        end].
Proof.
move: built; rewrite /make_closure => H.
case: (bind_Ok H) => ao_dip0 _ {}H; case: (bind_Ok H) => wq _ {}H.
by case: (bind_Ok H) => d _ {H} [<- _].
Qed.

End ClosureTheory.

(** ** Atoms without weight *)

Section ZeroWeights.

Context {R : numFieldType} {mol : Mol R}.
Variable c : Closure mol.
Variable w : weights_t mol.
Variable a : 'I_(natm (atoms mol)).
Hypothesis zero_w : zero_weights w a.

Lemma atom_density_zero i p q : atom_density c w a i p q = 0.
Proof. by rewrite /atom_density big1 // => mj _; rewrite zero_w mulr0. Qed.

Lemma spin_sum_density_zero p q : spin_sum (atom_density c w a) p q = 0.
Proof. by rewrite /spin_sum !atom_density_zero addr0. Qed.

Lemma coul_atom_zero : coul_atom c w a = 0.
Proof.
by rewrite /coul_atom !(trace_zero _ _ (atom_density_zero _)) addr0.
Qed.

Lemma exch_atom_zero : exch_atom c w a = 0.
Proof.
by rewrite /exch_atom !(trace_zero _ _ (atom_density_zero _)) oppr0 addr0.
Qed.

Lemma kin_atom_zero : kin_atom c w a = 0.
Proof. by rewrite /kin_atom (trace_zero _ _ spin_sum_density_zero). Qed.

Lemma xc_atom_zero : xc_atom c w a = 0.
Proof.
rewrite /xc_atom; case: (dft c) => [e|] //.
rewrite (grid_energy_zero _ _ _ spin_sum_density_zero) add0r.
case: (dft_nlc e) => [n|] //.
by rewrite (grid_energy_zero _ _ _ spin_sum_density_zero).
Qed.

Lemma nuc_att_atom_zero :
  nuc_att_atom c w a = _trace (sub_nuc c a) (spin_sum (rdm1_tot c)) half.
Proof.
by rewrite /nuc_att_atom (trace_zero _ _ spin_sum_density_zero) add0r.
Qed.

Lemma solvent_atom_zero :
  solvent_atom c w a = if e_solvent c is Some e then e a else 0.
Proof.
rewrite /solvent_atom; case: (mm_pot c) => [pot|]; rewrite ?add0r //.
by rewrite (trace_zero _ _ spin_sum_density_zero) add0r.
Qed.

End ZeroWeights.

(** ** C1 and C8: the atom-weighted nuclear attraction, atoms without weight *)

Section AtomWeighted.

Context {R : numFieldType} (rt : Runtime R) {mol : Mol R}.

Notation natoms := (natm (atoms mol)).

(** C1.  In energy mode, with a row of weights for every occupied orbital
    (and, for a DFT reference, AO arrays of the shape of the functional),
    [prop_atom] returns for every atom [a], and its nuclear-attraction
    component is one half of the trace of the total nuclear-attraction
    operator with the weighted density of [a] plus one half of the trace of
    the operator of the nucleus of [a] with the total density.  When the
    weights of every occupied orbital sum to 1 over the atoms, these
    components sum over the atoms to the trace of the total operator with
    the total density. *)
Theorem nuc_att_atom_weighted (mf : MeanField mol)
  (mo_coeff0 : forall s, mat R (nao mol) (norb mol s))
  (mo_occ0 : forall s, vec R (norb mol s))
  (ref0 : pyref (spin -> mat R (nao mol) (nao mol)))
  (kwargs : kwargs_t mol) (c : Closure mol) (q : charge_t mol)
  (w : weights_t mol) :
  make_closure rt mf mo_coeff0 mo_occ0 ref0 Energy kwargs = Ok (c, q) ->
  weights c = Some w -> rows_cover w -> grids_fit c ->
  (forall a, exists2 res, prop_atom c a = Ok res
             & dict_get nuc_att res = Ok (Scalar (nuc_att_atom c w a)))
  /\ (occupied_domain c -> complete_weights w ->
      \sum_a nuc_att_atom c w a = nuc_att_total c).
Proof.
move=> /make_closure_fields [energy tot_eq nuc_eq _ _] bound cover fit.
split=> [a|occ_dom complete]; last exact: sum_nuc_att_atom.
have [res -> get_res] := prop_atom_energy c w bound a energy cover fit.
by exists res => //; rewrite get_res.
Qed.

(** C8, as the code has it.  In energy mode (same conditions as above), for
    an atom without weight in any orbital, [prop_atom] returns; the Coulomb,
    exchange, kinetic and exchange-correlation components are zero; the
    nuclear-attraction component is one half of the trace of the operator of
    the nucleus of the atom with the total density; the solvent component is
    the share of the atom in the continuum-solvation energy; the electronic
    total is their sum; the structural entry is the nuclear term of the
    atom. *)
Theorem zero_weight_atom (c : Closure mol) (w : weights_t mol)
  (a : 'I_natoms) :
  prop_type c = Energy -> weights c = Some w -> rows_cover w ->
  grids_fit c -> zero_weights w a ->
  exists2 res, prop_atom c a = Ok res
  & let own_nucleus := _trace (sub_nuc c a) (spin_sum (rdm1_tot c)) half in
    let solv := if e_solvent c is Some e then e a else 0 in
    [/\ dict_get coul res = Ok (Scalar 0),
        dict_get exch res = Ok (Scalar 0),
        dict_get kin res = Ok (Scalar 0)
      & dict_get xc res = Ok (Scalar 0)]
    /\ [/\ dict_get nuc_att res = Ok (Scalar own_nucleus),
           dict_get solvent res = Ok (Scalar solv),
           dict_get el res = Ok (Scalar (own_nucleus + solv))
         & dict_get struct res = Ok (vadd (Scalar 0) (prop_nuc_rep c a))].
Proof.
move=> energy bound cover fit zero_w.
have [res -> get_res] := prop_atom_energy c w bound a energy cover fit.
exists res => //=.
rewrite !get_res /= /el_atom coul_atom_zero // exch_atom_zero // kin_atom_zero //.
rewrite xc_atom_zero // nuc_att_atom_zero // solvent_atom_zero //.
by rewrite !add0r addr0.
Qed.

End AtomWeighted.

(** ** The example of two unit charges in a minimal basis *)

Section H2.

Import Examples.

Lemma h2_even_built :
  exists q, make_closure rt4 h2_mf h2_mo_coeff h2_mo_occ RefNone Energy
              (h2_kwargs h2_even) = Ok (h2_closure h2_even, q).
Proof. by eexists. Defined.

Lemma h2_occupied (w : weights_t h2_mol) : occupied_domain (h2_closure w).
Proof. by move=> s; split=> // j; rewrite ord1 inE eqxx. Defined.

Lemma h2_even_complete : complete_weights h2_even.
Proof.
move=> s [|m] //= _.
by rewrite /atom_weight /= big_ord_recl big_ord1 /= halfD.
Defined.

(** C1 for two unit charges whose orbitals are shared evenly. *)
Lemma nuc_att_atom_weighted_h2 :
  \sum_a nuc_att_atom (h2_closure h2_even) h2_even a
  = nuc_att_total (h2_closure h2_even).
Proof.
have [q built] := h2_even_built.
apply: (proj2 (nuc_att_atom_weighted rt4 h2_mf h2_mo_coeff h2_mo_occ RefNone
                 (h2_kwargs h2_even) (h2_closure h2_even) q h2_even
                 built erefl isT isT)).
- exact: h2_occupied.
- exact: h2_even_complete.
Defined.


Lemma h2_first_zero : zero_weights h2_first atom1.
Proof. by move=> s [|[|m]]. Defined.

(** C8, as the code has it, for the second of two unit charges when the first
    owns both orbitals. *)
Lemma zero_weight_atom_h2 :
  exists2 res, prop_atom (h2_closure h2_first) atom1 = Ok res
  & dict_get coul res = Ok (Scalar 0).
Proof.
have [res -> [[get_coul _ _ _] _]] :=
  zero_weight_atom (h2_closure h2_first) h2_first atom1 erefl erefl isT isT
    h2_first_zero.
by exists res.
Defined.

(** C8, as stated, fails there: the atom without weight has a
    nuclear-attraction component, the attraction of all electrons by its
    nucleus. *)
Lemma zero_weight_atom_attracts :
  zero_weights h2_first atom1
  /\ exists2 res, prop_atom (h2_closure h2_first) atom1 = Ok res
     & dict_get nuc_att res <> Ok (Scalar 0).
Proof.
split; first exact: h2_first_zero.
have [res -> get_res] :=
  prop_atom_energy (h2_closure h2_first) h2_first erefl atom1 erefl isT isT.
exists res => //; rewrite get_res /= (nuc_att_atom_zero _ _ _ h2_first_zero).
move=> [] /eqP.
rewrite /_trace /spin_sum /make_rdm1 /=.
rewrite !big_ord_recl !big_ord0 /=.
by vm_compute.
Qed.

End H2.

(** ** C2: the nuclear attraction of the EDA strategy *)

Section EdaKernel.

Context {R : numFieldType} {mol : Mol R}.
Variable c : Closure mol.

Notation natoms := (natm (atoms mol)).

(** Whenever [prop_eda] returns in energy mode, its nuclear-attraction
    component is the row-selected half-trace plus the half-trace of the
    operator of the nucleus with the full density. *)
Lemma prop_eda_nuc_att (a : 'I_natoms) (res : dict (value R)) :
  prop_type c = Energy -> prop_eda c a = Ok res ->
  dict_get nuc_att res = Ok (Scalar (nuc_att_eda c a)).
Proof.
move=> energy.
rewrite /prop_eda /prop_eda_spin /init_res energy /= /xc_contribution_eda.
case: (mm_pot c) => [pot|]; case: (e_solvent c) => [es|];
  case: (dft c) => [e|] /=;
  try (case: (e_xc_eda _ _ _ _ _ _) => [x|err] //=;
       case: (dft_nlc e) => [n|] /=;
       try (case: (e_xc_eda _ _ _ _ _ _) => [y|err'] //=));
  by move=> [<-] /=; rewrite /nuc_att_eda add0r.
Qed.

(** For a Hartree-Fock reference [prop_eda] returns in energy mode. *)
Lemma prop_eda_returns (a : 'I_natoms) :
  prop_type c = Energy -> dft c = None -> is_ok (prop_eda c a).
Proof.
move=> energy no_dft.
rewrite /prop_eda /prop_eda_spin /init_res energy /= /xc_contribution_eda.
by rewrite no_dft; case: (mm_pot c) => [pot|]; case: (e_solvent c) => [es|].
Qed.

(** The basis functions are partitioned by the atoms they are centred on:
    the row-selected traces of the atoms add up to the full trace. *)
Lemma sum_selected_trace (o d : mat R (nao mol) (nao mol)) (scaling : R) :
  \sum_(a < natoms)
     _trace (take_rows (select_aos a) o) (take_rows (select_aos a) d) scaling
  = _trace o d scaling.
Proof.
rewrite /_trace -mulr_suml; congr (_ * _).
rewrite [RHS](partition_big (ao_labels mol) xpredT) //=.
apply: eq_bigr => a _.
rewrite -(big_tnth _ _ (select_aos a) xpredT
            (fun i => \sum_j o i j * d i j)).
by rewrite /select_aos big_filter big_enum_cond.
Qed.

Lemma sum_nuc_att_eda :
  (forall p q, nuc c p q = \sum_k sub_nuc c k p q) ->
  \sum_a nuc_att_eda c a = nuc_att_total c.
Proof.
move=> nuc_eq; rewrite /nuc_att_eda /nuc_att_total big_split /=.
rewrite sum_selected_trace trace_sum_op -trace_halves; congr (_ + _).
by apply: eq_trace_op => p q; rewrite nuc_eq.
Qed.

End EdaKernel.

Section Eda.

Context {R : numFieldType} (rt : Runtime R) {mol : Mol R}.

(** C2.  In energy mode, whenever [prop_eda] returns for atom [a] (it does
    for a Hartree-Fock reference), its nuclear-attraction component is one
    half of the trace, over the rows of the basis functions centred on [a],
    of the total nuclear-attraction operator with the total density, plus
    one half of the full trace of the operator of the nucleus of [a] with
    the total density; these components sum over the atoms to the trace of
    the total operator with the total density. *)
Theorem nuc_att_eda_asymmetric (mf : MeanField mol)
  (mo_coeff0 : forall s, mat R (nao mol) (norb mol s))
  (mo_occ0 : forall s, vec R (norb mol s))
  (ref0 : pyref (spin -> mat R (nao mol) (nao mol)))
  (kwargs : kwargs_t mol) (c : Closure mol) (q : charge_t mol) :
  make_closure rt mf mo_coeff0 mo_occ0 ref0 Energy kwargs = Ok (c, q) ->
  [/\ forall a res, prop_eda c a = Ok res ->
        dict_get nuc_att res = Ok (Scalar (nuc_att_eda c a)),
      dft c = None -> forall a, is_ok (prop_eda c a)
    & \sum_a nuc_att_eda c a = nuc_att_total c].
Proof.
move=> /make_closure_fields [energy _ nuc_eq _ _]; split.
- by move=> a res; apply: prop_eda_nuc_att.
- by move=> no_dft a; apply: prop_eda_returns.
- exact: sum_nuc_att_eda.
Qed.

End Eda.

Section H2c.
Import Examples.

(** C2 for two unit charges with one basis function each. *)
Lemma nuc_att_eda_asymmetric_h2 :
  \sum_a nuc_att_eda (h2_closure h2_even) a
  = nuc_att_total (h2_closure h2_even).
Proof.
have [q built] := h2_even_built.
by have [_ _] := nuc_att_eda_asymmetric rt4 h2_mf h2_mo_coeff h2_mo_occ
                   RefNone (h2_kwargs h2_even) (h2_closure h2_even) q built.
Defined.
End H2c.

(** ** The effective atomic charges *)

Section Charges.

Context {R : numFieldType} (rt : Runtime R) {mol : Mol R}.

Notation natoms := (natm (atoms mol)).

Lemma kwargs_get_mem {key : string} {kwargs : kwargs_t mol} {v : kwarg mol} :
  kwargs_get key kwargs = Ok v -> kwargs_mem key kwargs.
Proof.
by elim: kwargs => [|[k v'] kwargs IH] //=; case: String.eqb.
Qed.

Lemma population_zip (t u : seq (vec R natoms)) (a : 'I_natoms) :
  size t = size u ->
  population [seq row_add tu.1 tu.2 | tu <- zip t u] a
  = population t a + population u a.
Proof.
rewrite /population.
elim: t u => [|x t IH] [|y u] //= => [_|[eq_size]].
  by rewrite !big_nil addr0.
by rewrite !big_cons IH // /row_add addrACA.
Qed.

Lemma effective_charges_addable (w : weights_t mol) :
  addable w ->
  exists2 q, effective_charges w = Ok q
  & forall a, q a = atom_charges (atoms mol) a
                    - (population (rows (w Alpha)) a
                       + population (rows (w Beta)) a).
Proof.
rewrite /addable /effective_charges /py_add /nd_add /sum_axis0.
case: (w Alpha) => [ta|ta]; case: (w Beta) => [tb|tb] /=;
  try (move=> /eqP eq_size; rewrite eq_size eqxx /=);
  eexists; try reflexivity; move=> a /=;
  by rewrite -/(population _ a) ?population_zip // /population big_cat.
Qed.

Lemma population_rows (w : weights_t mol) (s : spin) :
  (forall m, (m < size (rows (w s)))%N -> \sum_a atom_weight w s m a = 1) ->
  \sum_a population (rows (w s)) a = (size (rows (w s)))%:R.
Proof.
rewrite /population /atom_weight; elim: (rows (w s)) => [|row t IH] sum1.
  by rewrite big1 // => a _; rewrite big_nil.
under eq_bigr do rewrite big_cons.
have {}IH := IH (fun m lt_m => sum1 m.+1 lt_m).
by rewrite big_split /= (sum1 0%N) // IH -[in RHS]natr1 addrC.
Qed.

(** [prop_tot] returns the charges of its closure. *)
Lemma prop_tot_charge (mf : MeanField mol)
  (mo_coeff0 : forall s, mat R (nao mol) (norb mol s))
  (mo_occ0 : forall s, vec R (norb mol s))
  (ref0 : pyref (spin -> mat R (nao mol) (nao mol))) (pop : string)
  (pt : prop_kind) (part : part_kind) (multiproc : bool)
  (kwargs : kwargs_t mol) (r : prop_result mol) :
  prop_tot rt mf mo_coeff0 mo_occ0 ref0 pop pt part multiproc kwargs = Ok r ->
  exists c, make_closure rt mf mo_coeff0 mo_occ0 ref0 pt kwargs
            = Ok (c, charge_atom r).
Proof.
move=> H; case: (bind_Ok H) => -[c ch] built {}H.
by case: (bind_Ok H) => prop _ [<-]; exists c.
Qed.

(** X23.  For weights given per spin as two lists of rows or as two arrays of
    the same shape, the charge array that [prop_tot] computes, and returns
    whenever it returns, holds for every atom its nuclear charge minus the
    sum over both spins and all orbitals of its weights; when there is a row
    for every occupied orbital and the weights of every orbital sum to 1
    over the atoms, the charges sum to the total nuclear charge minus the
    number of occupied spin orbitals. *)
Theorem charge_atom_conservation (mf : MeanField mol)
  (mo_coeff0 : forall s, mat R (nao mol) (norb mol s))
  (mo_occ0 : forall s, vec R (norb mol s))
  (ref0 : pyref (spin -> mat R (nao mol) (nao mol)))
  (pt : prop_kind) (kwargs : kwargs_t mol) (w : weights_t mol)
  (c : Closure mol) (ch : charge_t mol) :
  kwargs_get "weights" kwargs = Ok (KwWeights w) -> addable w ->
  make_closure rt mf mo_coeff0 mo_occ0 ref0 pt kwargs = Ok (c, ch) ->
  (forall pop part multiproc r,
     prop_tot rt mf mo_coeff0 mo_occ0 ref0 pop pt part multiproc kwargs = Ok r ->
     charge_atom r = ch)
  /\ exists2 q, ch = ChargeArr q
     & (forall a, q a = atom_charges (atoms mol) a
                        - (population (rows (w Alpha)) a
                           + population (rows (w Beta)) a))
       /\ ((forall s, size (rows (w s)) = size (occupied mol s)) ->
           complete_weights w ->
           \sum_a q a
           = \sum_a atom_charges (atoms mol) a
             - (size (occupied mol Alpha) + size (occupied mol Beta))%:R).
Proof.
move=> get_w add_w built; split.
  move=> pop part multiproc r /prop_tot_charge [c'].
  by rewrite built => -[_ ->].
have [q eq_q q_entries] := effective_charges_addable w add_w.
exists q.
  move: built; rewrite /make_closure => H.
  case: (bind_Ok H) => ao_dip0 _ {}H; case: (bind_Ok H) => wq.
  rewrite (kwargs_get_mem get_w) get_w /= eq_q /= => -[<-] {}H.
  by case: (bind_Ok H) => d _ [_ <-].
split=> // rows_occ complete.
rewrite (eq_bigr _ (fun a _ => q_entries a)) sumrB big_split /=.
rewrite !population_rows ?rows_occ ?natrD // => m lt_m; exact: complete.
Qed.

End Charges.

Section H2Charges.
Import Examples.

(** X23 for two unit charges whose orbitals are shared evenly: the charges
    sum to [2 - 2]. *)
Lemma charge_atom_conservation_h2 :
  exists2 q : vec rat (natm (atoms h2_mol)),
    (exists c, make_closure rt4 h2_mf h2_mo_coeff h2_mo_occ RefNone Energy
                 (h2_kwargs h2_even) = Ok (c, ChargeArr q))
  & \sum_a q a
    = \sum_a atom_charges (atoms h2_mol) a
      - (size (occupied h2_mol Alpha) + size (occupied h2_mol Beta))%:R.
Proof.
have [ch built] := h2_even_built.
have [_ [q eq_ch [_ sum_q]]] :=
  charge_atom_conservation rt4 h2_mf h2_mo_coeff h2_mo_occ RefNone Energy
    (h2_kwargs h2_even) h2_even (h2_closure h2_even) ch erefl isT built.
exists q; first by exists (h2_closure h2_even); rewrite -eq_ch.
by apply: sum_q => //; exact: h2_even_complete.
Defined.

End H2Charges.

(** ** The sequential decomposition over the atoms returns *)

Section Collect.

Context {R : numFieldType}.

Local Arguments collect_items : simpl never.

Lemma collect_items_full (n k : nat) (v : comp_key -> value R)
  (arr : comp_key -> seq (value R)) :
  (forall key, size (arr key) = n) -> (k < n)%N ->
  collect_items k (full_dict v) (full_prop arr)
  = Ok (full_prop (fun key => set_nth (v key) (arr key) k (v key))).
Proof.
move=> sizes lt_k.
by rewrite /collect_items /full_prop /full_dict /= /setitem !sizes lt_k /=.
Qed.

Lemma collect_full (n : nat) (ds : seq (comp_key -> value R)) (k0 : nat)
  (arr : comp_key -> seq (value R)) :
  (forall key, size (arr key) = n) -> (k0 + size ds <= n)%N ->
  exists2 arr', collect (zip (iota k0 (size ds)) (map full_dict ds))
                  (full_prop arr) = Ok (full_prop arr')
  & forall key, size (arr' key) = n.
Proof.
elim: ds k0 arr => [|d ds IH] k0 arr sizes /=; first by exists arr.
rewrite addnS => le_n.
have lt_k0 : (k0 < n)%N by apply: leq_trans le_n; rewrite ltnS leq_addr.
rewrite (collect_items_full n) //=; apply: IH; last by rewrite addSn.
by move=> key; rewrite size_set_nth sizes; apply/maxn_idPr.
Qed.

End Collect.

Section AtomsReturn.

Context {R : numFieldType} (rt : Runtime R) {mol : Mol R}.
Variable c : Closure mol.
Variable w : weights_t mol.
Hypothesis energy : prop_type c = Energy.
Hypothesis bound : weights c = Some w.
Hypothesis cover : rows_cover w.
Hypothesis fit : grids_fit c.

Lemma seq_map_prop_atom (l : seq 'I_(natm (atoms mol))) :
  seq_map (prop_atom c) l = Ok (map (atom_dict c w) l).
Proof.
by elim: l => [|a l IH] //=; rewrite (prop_atom_energy_dict c w) //= IH.
Qed.

Lemma decompose_atoms_returns :
  exists arr, decompose_atoms rt c Atoms false = Ok (full_prop arr).
Proof.
rewrite /decompose_atoms energy /execute seq_map_prop_atom /= /enumerate.
rewrite /atom_dict (map_comp full_dict) size_map.
have [||arr' -> _] // :=
  collect_full (natm (atoms mol))
    (map (atom_value c w) (enum 'I_(natm (atoms mol)))) 0
    (fun _ => nseq (natm (atoms mol)) (Scalar 0)).
- by move=> key; rewrite size_nseq.
- by rewrite size_map size_enum_ord.
- by exists arr'.
Qed.

End AtomsReturn.

Section PropTotReturns.

Context {R : numFieldType} (rt : Runtime R) {mol : Mol R}.

(** In energy mode, without the pool, for a closure with a row of weights
    for every occupied orbital and AO arrays of the shape of the functional,
    the atom-weighted decomposition of [prop_tot] returns an array for every
    component. *)
Lemma prop_tot_atoms_returns (mf : MeanField mol)
  (mo_coeff0 : forall s, mat R (nao mol) (norb mol s))
  (mo_occ0 : forall s, vec R (norb mol s))
  (ref0 : pyref (spin -> mat R (nao mol) (nao mol))) (pop : string)
  (kwargs : kwargs_t mol) (c : Closure mol) (ch : charge_t mol)
  (w : weights_t mol) :
  make_closure rt mf mo_coeff0 mo_occ0 ref0 Energy kwargs = Ok (c, ch) ->
  weights c = Some w -> rows_cover w -> grids_fit c ->
  exists arr,
    prop_tot rt mf mo_coeff0 mo_occ0 ref0 pop Energy Atoms false kwargs
    = Ok (MkPropResult (full_prop arr) ch).
Proof.
move=> built bound cover fit.
have [energy _ _ _ _] := make_closure_fields rt _ _ _ _ _ _ _ _ built.
have [arr returns] := decompose_atoms_returns rt c w energy bound cover fit.
by exists arr; rewrite /prop_tot built /= returns.
Qed.

End PropTotReturns.

Section H2Returns.
Import Examples.

(** The sequential atom-weighted energy decomposition of the example
    returns. *)
Lemma h2_prop_tot_returns :
  exists r, prop_tot rt4 h2_mf h2_mo_coeff h2_mo_occ RefNone "mulliken" Energy
              Atoms false (h2_kwargs h2_even) = Ok r.
Proof.
have [ch built] := h2_even_built.
have [arr returns] :=
  prop_tot_atoms_returns rt4 h2_mf h2_mo_coeff h2_mo_occ RefNone "mulliken"
    (h2_kwargs h2_even) (h2_closure h2_even) ch h2_even built erefl isT isT.
by exists (MkPropResult (full_prop arr) ch).
Defined.

(** So does [main] for the energy request. *)
Lemma h2_main_returns :
  exists r, main rt4 (h2_up h2_even) energy_request h2_mf None None None
            = Ok r.
Proof.
have [ch built] :
  exists ch, make_closure rt4 h2_mf h2_mo_coeff h2_mo_occ RefNone Energy
               (main_kwargs (h2_up h2_even) energy_request
                  (h2_mo_coeff, h2_mo_occ))
             = Ok (h2_closure h2_even, ch).
  by eexists.
have [arr returns] :=
  prop_tot_atoms_returns rt4 h2_mf h2_mo_coeff h2_mo_occ RefNone "mulliken"
    _ (h2_closure h2_even) ch h2_even built erefl isT isT.
exists (MkPropResult (full_prop arr) ch).
by rewrite /main_kwargs /= in returns; rewrite /main /= returns.
Defined.

End H2Returns.

(** ** C5: the dipole origin *)

Section DipoleOrigin.

Context {R : numFieldType} (rt : Runtime R) {mol : Mol R}.
Variable up : Upstream mol.

(** C5, as the code has it.  Every request for a dipole decomposition that
    passes the sanity check fails in [prop_tot]: [main] passes the origin
    under the key [gauge_origin], [prop_tot] reads the key
    [dipole_origin]. *)
Theorem main_dipole_key_error (decomp : DecompCls R) (mf : MeanField mol)
  (rdm1_orb rdm1_eff : option (spin -> mat R (nao mol) (nao mol)))
  (loc_lst : option (seq nat)) :
  d_prop decomp = Dipole -> sanity_check up decomp = Ok tt ->
  main rt up decomp mf rdm1_orb rdm1_eff loc_lst
  = Raise (KeyError "dipole_origin").
Proof.
move=> dipole sane; rewrite /main sane /= dipole.
by case: (d_part decomp); rewrite /prop_tot /make_closure.
Qed.

End DipoleOrigin.

(** The dipole request of the examples fails with the [KeyError]. *)
Lemma main_dipole_key_error_h2 :
  main Examples.rt4 (Examples.h2_up Examples.h2_even) Examples.dipole_request
    Examples.h2_mf None None None
  = Raise (KeyError "dipole_origin").
Proof. exact: main_dipole_key_error. Defined.

(** ** C10: the value bound to [ref] *)

Section RefBinding.

Context {R : numFieldType} (rt : Runtime R) {mol : Mol R}.
Variable up : Upstream mol.

Notation op := (mat R (nao mol) (nao mol)).

(** Whenever [main] returns, it has called [prop_tot] with [rdm1_eff] in the
    place of [ref]. *)
Lemma main_calls_prop_tot (decomp : DecompCls R) (mf : MeanField mol)
  (rdm1_orb rdm1_eff : option (spin -> op)) (loc_lst : option (seq nat))
  (r : prop_result mol) :
  main rt up decomp mf rdm1_orb rdm1_eff loc_lst = Ok r ->
  exists orbs : orbitals mol,
    prop_tot rt mf orbs.1 orbs.2 (ref_of_main rdm1_eff) (d_pop decomp)
      (d_prop decomp) (d_part decomp) (d_multiproc decomp)
      (main_kwargs up decomp orbs) = Ok r.
Proof.
rewrite /main /main_kwargs => H; case: (bind_Ok H) => _ _ {}H.
case: (bind_Ok H) => r' call {}H; case: (bind_Ok H) => _ _ [<-] {H}.
by move: call; case: (d_part decomp) => call; eexists; exact: call.
Qed.


End RefBinding.


(** ** C9: long-range electron-nucleus integrals *)

Section LongRange.

Context {R : numFieldType} {ao_matrices : Type}.
Variable b : Builders R ao_matrices.

(** C9.  When the density-fitting object prefers the compensated-charge
    builder or the cell has a positive range-separation parameter, both
    [get_nuc_atomic_df] and [get_pp_atomic_df] raise
    [NotImplementedError]. *)
Theorem long_range_not_implemented (mydf : DF R)
  (kpts : option (kpts_array R)) :
  _prefer_ccdf mydf || (0 < omega (cell mydf)) ->
  get_nuc_atomic_df b mydf kpts = Raise NotImplementedError
  /\ get_pp_atomic_df b mydf kpts = Raise NotImplementedError.
Proof.
rewrite /get_nuc_atomic_df /get_pp_atomic_df.
by case: (_check_kpts mydf kpts) => ks single ->.
Qed.

End LongRange.

(** The guard on the density-fitting object of the examples. *)
Lemma long_range_not_implemented_ccdf :
  get_nuc_atomic_df Examples.no_builders Examples.ccdf None
  = Raise NotImplementedError
  /\ get_pp_atomic_df Examples.no_builders Examples.ccdf None
     = Raise NotImplementedError.
Proof. exact: long_range_not_implemented. Defined.

(** ** C4: the slots of the bond strategy *)

Section BondSlots.

Context {R : numFieldType} (rt : Runtime R) {mol : Mol R}.
Variable c : Closure mol.

(** For a Hartree-Fock reference in energy mode [prop_bonds] returns the
    electronic energy of the orbital under the key [el]. *)
Lemma prop_bonds_hf (i : spin) (j : 'I_(norb mol i)) :
  prop_type c = Energy -> dft c = None ->
  prop_bonds c i j = Ok [:: (el, Scalar (bond_el c i j))].
Proof.
move=> energy no_dft; rewrite /prop_bonds /bond_el energy no_dft /=.
by case: (mm_pot c).
Qed.

(** C4, the code at a bond assignment with one alpha and two beta orbitals.
    The results of the three tasks are collected sequentially; the task of
    the first beta orbital and the task of the second beta orbital are both
    stored in slot 0 of the beta array: the energy of the first beta
    orbital is overwritten and slot 1 of the beta array keeps its initial
    zero. *)
Theorem bond_slots_collide (r : rep_idx_t mol) (a0 : 'I_(norb mol Alpha))
  (b0 b1 : 'I_(norb mol Beta)) :
  prop_type c = Energy -> dft c = None ->
  r Alpha = [:: a0] -> r Beta = [:: b0; b1] ->
  decompose_bonds rt c [:: ("rep_idx"%string, KwRepIdx r)] false
  = Ok [:: (el, PerSpin [:: Scalar (bond_el c Alpha a0)]
                  [:: Scalar (bond_el c Beta b1); Scalar 0]);
           (struct, PerUnit [seq prop_nuc_rep c a
                            | a <- enum 'I_(natm (atoms mol))])].
Proof.
move=> energy no_dft r_alpha r_beta.
rewrite /decompose_bonds /= /bond_domain /execute r_alpha r_beta /=.
by rewrite !prop_bonds_hf //= energy.
Qed.

End BondSlots.

(** The collision for the open-shell system of the examples. *)
Lemma bond_slots_collide_open :
  decompose_bonds Examples.rt4 Examples.open_closure
    [:: ("rep_idx"%string, KwRepIdx Examples.open_rep_idx)] false
  = Ok [:: (el, PerSpin
                  [:: Scalar (bond_el Examples.open_closure Alpha
                                (@Ordinal 1 0 isT))]
                  [:: Scalar (bond_el Examples.open_closure Beta
                                (@Ordinal 2 1 isT));
                      Scalar 0]);
           (struct, PerUnit [seq prop_nuc_rep Examples.open_closure a
                            | a <- enum 'I_(natm (atoms Examples.open_mol))])].
Proof. exact: bond_slots_collide. Defined.

(** ** C7: sequential and parallel execution *)

Section PoolTheory.

Variables A B : Type.
Variable f : A -> result B.

Lemma seq_map_Ok (domain : seq A) (ys : seq B) :
  seq_map f domain = Ok ys <-> map f domain = map Ok ys.
Proof.
elim: domain ys => [|x domain IH] [|y ys] //=.
- by case: (f x) => [y|e] //=; case: (seq_map f domain).
- case: (f x) => [y'|e] /=; last by split.
  case: (seq_map f domain) IH => [ys'|e] IH /=.
    split=> [[-> eq_ys]|[-> eq_ys]]; first by rewrite (proj1 (IH ys)) ?eq_ys.
    by have [_ /(_ eq_ys) [->]] := IH ys.
  by split=> // -[_ /(proj2 (IH ys))].
Qed.

Lemma seq_map_raises (domain : seq A) :
  ~~ all is_ok (map f domain) -> ~~ is_ok (seq_map f domain).
Proof.
elim: domain => [|x domain IH] //=; case: (f x) => [y|e] //=.
by move=> /IH; case: (seq_map f domain).
Qed.

Lemma all_ok_values (domain : seq A) :
  all is_ok (map f domain) -> exists ys, map f domain = map Ok ys.
Proof.
elim: domain => [|x domain IH] /=; first by exists [::].
case: (f x) => [y|e] //= /IH [ys ->].
by exists (y :: ys).
Qed.

(** The pool returns for no domain that holds a task. *)
Lemma pool_map_tasks (processes : nat) (domain : seq A) :
  (0 < size domain)%N ->
  pool_map processes f domain
  = Raise (if (0 < processes)%N then AttributeError else ValueError).
Proof. by rewrite /pool_map; case: processes; case: domain. Qed.

Lemma execute_pool (domain : seq A) (domain_size num_threads : nat) :
  (0 < domain_size)%N = (0 < size domain)%N ->
  execute true domain_size num_threads f domain
  = Raise (if (0 < size domain)%N && (0 < num_threads)%N then AttributeError
           else ValueError).
Proof.
rewrite /execute /pool_map => eq_pos.
rewrite [(_ < 1)%N]ltnNge leq_min eq_pos.
by case: domain {eq_pos} => [|x domain] //=; case: (0 < num_threads)%N.
Qed.

Lemma execute_pool_not_ok (domain : seq A) (domain_size num_threads : nat) :
  (0 < size domain)%N ->
  ~~ is_ok (execute true domain_size num_threads f domain).
Proof.
by move=> pos; rewrite /execute pool_map_tasks //; case: (0 < _)%N.
Qed.

End PoolTheory.

Section Pool.

Context {R : numFieldType} (rt : Runtime R) {mol : Mol R}.

Local Arguments execute : simpl never.


End Pool.

Section H2Pool.
Import Examples.


End H2Pool.

(** ** The electronic components of the atom-weighted strategy add up *)

Section Linearity.

Context {R : numFieldType}.

Lemma trace_spin_sum {m n : nat} (o : mat R m n) (d : spin -> mat R m n)
  (scaling : R) :
  _trace o (spin_sum d) scaling
  = _trace o (d Alpha) scaling + _trace o (d Beta) scaling.
Proof.
rewrite /_trace -mulrDl -big_split /=; congr (_ * _).
apply: eq_bigr => i _; rewrite -big_split /=.
by apply: eq_bigr => j _; rewrite /spin_sum mulrDr.
Qed.

Lemma trace_op_zero {m n : nat} {o : mat R m n} (d : mat R m n) (scaling : R) :
  (forall i j, o i j = 0) -> _trace o d scaling = 0.
Proof.
move=> o0; rewrite /_trace big1 ?mul0r // => i _.
by rewrite big1 // => j _; rewrite o0 mul0r.
Qed.

Lemma grid_energy_sum {mol : Mol R} {I : finType} {ngrids : nat}
  (ao : ao_array R ngrids (nao mol)) (eps wts : vec R ngrids)
  (d : I -> mat R (nao mol) (nao mol)) :
  \sum_a grid_energy ao eps wts (d a)
  = grid_energy ao eps wts (fun p q => \sum_a d a p q).
Proof.
rewrite /grid_energy exchange_big /=; apply: eq_bigr => p _.
rewrite -mulr_suml -mulr_sumr; congr (_ * _ * _).
rewrite /grid_density exchange_big /=; apply: eq_bigr => i _.
rewrite -mulr_sumr; congr (_ * _).
rewrite exchange_big /=; apply: eq_bigr => k _.
by rewrite mulr_sumr.
Qed.

End Linearity.

Section AtomTotals.

Context {R : numFieldType} {mol : Mol R}.
Variable c : Closure mol.
Variable w : weights_t mol.

Notation natoms := (natm (atoms mol)).

Hypothesis tot_eq :
  forall s p q, rdm1_tot c s p q = make_rdm1 (mo_coeff c s) (mo_occ c s) p q.
Hypothesis occ_dom : occupied_domain c.
Hypothesis complete : complete_weights w.

Lemma sum_atom_density_tot (s : spin) (p q : 'I_(nao mol)) :
  \sum_(a < natoms) atom_density c w a s p q = rdm1_tot c s p q.
Proof. by rewrite sum_atom_density // tot_eq. Qed.

Lemma sum_atom_density_spin (p q : 'I_(nao mol)) :
  \sum_(a < natoms) spin_sum (atom_density c w a) p q
  = spin_sum (rdm1_tot c) p q.
Proof. by rewrite /spin_sum big_split /= !sum_atom_density_tot. Qed.

Lemma sum_coul_atom : \sum_a coul_atom c w a = coul_total c.
Proof.
rewrite /coul_atom /coul_total big_split /= !trace_sum_density trace_spin_sum.
by congr (_ + _); apply: eq_trace => p q; rewrite sum_atom_density_tot.
Qed.

Lemma sum_exch_atom : \sum_a exch_atom c w a = exch_total c.
Proof.
rewrite /exch_atom /exch_total sumrB sumrN !trace_sum_density.
by congr (- _ - _); apply: eq_trace => p q; rewrite sum_atom_density_tot.
Qed.

Lemma sum_kin_atom : \sum_a kin_atom c w a = kin_total c.
Proof.
rewrite /kin_atom /kin_total trace_sum_density.
by apply: eq_trace => p q; rewrite sum_atom_density_spin.
Qed.

Lemma sum_solvent_atom : \sum_a solvent_atom c w a = solvent_total c.
Proof.
rewrite /solvent_atom /solvent_total big_split /=; congr (_ + _).
  case: (mm_pot c) => [pot|]; last by rewrite big1.
  rewrite trace_sum_density.
  by apply: eq_trace => p q; rewrite sum_atom_density_spin.
by case: (e_solvent c) => [e|] //; rewrite big1.
Qed.

Lemma sum_xc_atom : \sum_a xc_atom c w a = xc_total c.
Proof.
rewrite /xc_atom /xc_total; case: (dft c) => [e|]; last by rewrite big1.
rewrite big_split /= grid_energy_sum; congr (_ + _).
  by apply: eq_grid_energy => p q; rewrite sum_atom_density_spin.
case: (dft_nlc e) => [n|]; last by rewrite big1.
rewrite grid_energy_sum.
by apply: eq_grid_energy => p q; rewrite sum_atom_density_spin.
Qed.

End AtomTotals.


(** ** The electronic total of a result dictionary *)

Section ElectronicTotal.

Context {R : numFieldType} {mol : Mol R}.
Variable c : Closure mol.

Notation natoms := (natm (atoms mol)).

Lemma add_components (A B C D E F : R) :
  0 + A + B + C + D + E + F = A + (B + (C + (D + (E + (F + 0))))).
Proof. by rewrite add0r addr0 !addrA. Qed.

Lemma prop_atom_el (a : 'I_natoms) (res : dict (value R)) :
  prop_type c = Energy -> prop_atom c a = Ok res ->
  (forall key, key_eqb key struct = false ->
               exists x, dict_get key res = Ok (Scalar x))
  /\ component res el = \sum_(key <- COMP_KEYS_el) component res key.
Proof.
move=> energy; rewrite /prop_atom /prop_atom_spin /init_res energy.
case: (weighted_rdm1 c Alpha a _ _) => [Da|err] //=.
case: (weighted_rdm1 c Beta a _ _) => [Db|err] //=.
rewrite /xc_contribution.
case: (mm_pot c) => [pot|]; case: (e_solvent c) => [es|];
  case: (dft c) => [e|] /=;
  try (case: (e_xc_of _ _ _ _ _ _) => [x|err] //=;
       case: (dft_nlc e) => [n|] /=;
       try (case: (e_xc_of _ _ _ _ _ _) => [y|err'] //=));
  rewrite /dict_iadd /= => -[<-]; (split; first by case=> //= _; eexists);
  by rewrite /component /COMP_KEYS_el /= !big_cons big_nil /=;
     exact: add_components.
Qed.

Lemma prop_eda_el (a : 'I_natoms) (res : dict (value R)) :
  prop_type c = Energy -> prop_eda c a = Ok res ->
  (forall key, key_eqb key struct = false ->
               exists x, dict_get key res = Ok (Scalar x))
  /\ component res el = \sum_(key <- COMP_KEYS_el) component res key.
Proof.
move=> energy.
rewrite /prop_eda /prop_eda_spin /init_res energy /= /xc_contribution_eda.
case: (mm_pot c) => [pot|]; case: (e_solvent c) => [es|];
  case: (dft c) => [e|] /=;
  try (case: (e_xc_eda _ _ _ _ _ _) => [x|err] //=;
       case: (dft_nlc e) => [n|] /=;
       try (case: (e_xc_eda _ _ _ _ _ _) => [y|err'] //=));
  rewrite /dict_iadd /= => -[<-]; (split; first by case=> //= _; eexists);
  by rewrite /component /COMP_KEYS_el /= !big_cons big_nil /=;
     exact: add_components.
Qed.

(** X3.  Whenever [prop_atom] or [prop_eda] returns in energy mode, the
    result holds a number under every component name other than [struct],
    and the number under [el] is the sum of the numbers under the six
    component names before it: Coulomb, exchange, kinetic, nuclear
    attraction, exchange-correlation and solvent. *)
Theorem el_sums_components (a : 'I_natoms) (res : dict (value R)) :
  prop_type c = Energy ->
  prop_atom c a = Ok res \/ prop_eda c a = Ok res ->
  (forall key, key_eqb key struct = false ->
               exists x, dict_get key res = Ok (Scalar x))
  /\ component res el = \sum_(key <- COMP_KEYS_el) component res key.
Proof.
by move=> energy [/(prop_atom_el a res energy)|/(prop_eda_el a res energy)].
Qed.

End ElectronicTotal.

(** ** The electronic components of the EDA strategy add up *)

Section EdaTotals.

Context {R : numFieldType} {mol : Mol R}.
Variable c : Closure mol.

Notation natoms := (natm (atoms mol)).

Lemma prop_eda_traces (a : 'I_natoms) (res : dict (value R)) :
  prop_type c = Energy -> prop_eda c a = Ok res ->
  [/\ dict_get coul res = Ok (Scalar (coul_eda c a)),
      dict_get exch res = Ok (Scalar (exch_eda c a)),
      dict_get kin res = Ok (Scalar (kin_eda c a))
    & dict_get solvent res = Ok (Scalar (solvent_eda c a))].
Proof.
move=> energy.
rewrite /prop_eda /prop_eda_spin /init_res energy /= /xc_contribution_eda.
rewrite /coul_eda /exch_eda /kin_eda /solvent_eda.
case: (mm_pot c) => [pot|]; case: (e_solvent c) => [es|];
  case: (dft c) => [e|] /=;
  try (case: (e_xc_eda _ _ _ _ _ _) => [x|err] //=;
       case: (dft_nlc e) => [n|] /=;
       try (case: (e_xc_eda _ _ _ _ _ _) => [y|err'] //=));
  by rewrite /dict_iadd /= => -[<-] /=; split;
     rewrite ?add0r ?addr0 ?sub0r.
Qed.

Lemma sum_coul_eda : \sum_a coul_eda c a = coul_total c.
Proof.
by rewrite /coul_eda /coul_total big_split /= !sum_selected_trace
     trace_spin_sum.
Qed.

Lemma sum_exch_eda : \sum_a exch_eda c a = exch_total c.
Proof. by rewrite /exch_eda /exch_total sumrB sumrN !sum_selected_trace. Qed.

Lemma sum_kin_eda : \sum_a kin_eda c a = kin_total c.
Proof. by rewrite /kin_eda /kin_total sum_selected_trace. Qed.

Lemma sum_solvent_eda : \sum_a solvent_eda c a = solvent_total c.
Proof.
rewrite /solvent_eda /solvent_total big_split /=; congr (_ + _).
  by case: (mm_pot c) => [pot|]; rewrite ?sum_selected_trace // big1.
by case: (e_solvent c) => [e|] //; rewrite big1.
Qed.

(** X4.  In energy mode [prop_eda] returns for every atom when the reference
    is Hartree-Fock; whenever it returns, its Coulomb, exchange,
    kinetic and solvent components are the traces over the rows of the
    basis functions centred on the atom (of the Coulomb operator with the
    density of each spin, of the exchange operator of each spin with the
    density of that spin, of the kinetic integrals and of the MM potential
    with the total density), the solvent component with the solvation energy
    of the atom added; since every basis function is centred on one atom,
    each component sums over the atoms to the term of the total density. *)
Theorem eda_traces_conserved :
  prop_type c = Energy ->
  (dft c = None -> forall a, is_ok (prop_eda c a))
  /\ [/\ forall a res, prop_eda c a = Ok res ->
            [/\ dict_get coul res = Ok (Scalar (coul_eda c a)),
                dict_get exch res = Ok (Scalar (exch_eda c a)),
                dict_get kin res = Ok (Scalar (kin_eda c a))
              & dict_get solvent res = Ok (Scalar (solvent_eda c a))],
          \sum_a coul_eda c a = coul_total c,
          \sum_a exch_eda c a = exch_total c,
          \sum_a kin_eda c a = kin_total c
        & \sum_a solvent_eda c a = solvent_total c].
Proof.
move=> energy; split; first by move=> no_dft a; apply: prop_eda_returns.
split.
- by move=> a res; apply: prop_eda_traces.
- exact: sum_coul_eda.
- exact: sum_exch_eda.
- exact: sum_kin_eda.
- exact: sum_solvent_eda.
Qed.

End EdaTotals.

(** ** The densities on the grid *)

Section RhoTheory.

Context {R : numFieldType} {mol : Mol R} {ngrids : nat}.

Notation op := (mat R (nao mol) (nao mol)).

Implicit Types (ao : ao_array R ngrids (nao mol)) (d : op) (x : xc_kind).

Lemma make_rho_interm1_c0 ao d x (i : interm R ngrids (nao mol)) :
  _make_rho_interm1 ao d x = Ok i ->
  i.1 = contract_c0 (ao_values ao) d
  /\ (if x is MGGA then exists2 l, i.2 = Some l & size l = 3%N
      else i.2 = None).
Proof.
case: x; case: ao => [a|comps] //=; do 4?[case: comps => [|? comps] //=];
  by move=> [<-]; split=> //; eexists.
Qed.

Lemma make_rho_interm2_fits (c0 : mat R ngrids (nao mol))
  (c1 : option (seq (mat R ngrids (nao mol)))) ao x (rho : rho_t R ngrids) :
  _make_rho_interm2 c0 c1 ao x = Ok rho ->
  ao_fits ao x
  /\ forall p, rho_density rho p = \sum_i c0 p i * ao_values ao p i.
Proof.
case: x; case: ao => [a|comps] //=; do 10?[case: comps => [|? comps] //=];
  do ?[case: c1 => [l|] //=; do 3?[case: l => [|? l] //=]];
  by move=> [<-]; split=> // p /=; apply: eq_bigr => i _; rewrite mulrC.
Qed.

Lemma grid_density_c0 ao d (c0 : mat R ngrids (nao mol)) (p : 'I_ngrids) :
  (forall i, c0 p i = contract_c0 (ao_values ao) d p i) ->
  \sum_i c0 p i * ao_values ao p i = grid_density ao d p.
Proof.
by move=> eq_c0; apply: eq_bigr => i _; rewrite eq_c0 mulrC.
Qed.

Lemma grid_density_spin ao (d : spin -> op) (p : 'I_ngrids) :
  grid_density ao (spin_sum d) p
  = grid_density ao (d Alpha) p + grid_density ao (d Beta) p.
Proof.
rewrite /grid_density -big_split /=; apply: eq_bigr => i _.
rewrite -mulrDr -big_split /=; congr (_ * _).
by apply: eq_bigr => k _; rewrite /spin_sum mulrDr.
Qed.

Lemma contract_c0_spin ao (d : spin -> op) p i :
  contract_c0 (ao_values ao) (d Alpha) p i
  + contract_c0 (ao_values ao) (d Beta) p i
  = contract_c0 (ao_values ao) (spin_sum d) p i.
Proof.
rewrite /contract_c0 -big_split /=.
by apply: eq_bigr => k _; rewrite /spin_sum mulrDr.
Qed.

(** What [_make_rho] returns when it returns: the AO array has the shape of
    the functional, and the intermediate [c0] and the density are those of
    one density matrix. *)
Lemma make_rho_spec {A : Type} ao (rdm1 : rdm1_arg R (nao mol))
  (ref : pyref A) x (r : interm R ngrids (nao mol) * rho_res R ngrids) :
  _make_rho ao rdm1 ref x = Ok r ->
  [/\ ao_fits ao x, interm_fits r.1 x,
      forall p i, r.1.1 p i
                  = contract_c0 (ao_values ao) (rho_input rdm1 ref) p i
    & forall p, rho_value r.2 p = grid_density ao (rho_input rdm1 ref) p].
Proof.
have single d (r' : interm R ngrids (nao mol) * rho_res R ngrids) :
    (let* c := _make_rho_interm1 ao d x in
     let* rho := _make_rho_interm2 c.1 c.2 ao x in
     Ok (c, RhoArr rho)) = Ok r' ->
    [/\ ao_fits ao x, interm_fits r'.1 x,
        forall p i, r'.1.1 p i = contract_c0 (ao_values ao) d p i
      & forall p, rho_value r'.2 p = grid_density ao d p].
  move=> H; case: (bind_Ok H) => c /make_rho_interm1_c0 [eq_c0 eq_c1] {}H.
  case: (bind_Ok H) => rho /make_rho_interm2_fits [fit eq_rho] [<-] /=.
  split=> //.
  - rewrite /interm_fits; case: x eq_c1 {fit H} => // -[l -> ->] //.
  - by move=> p i; rewrite eq_c0.
  - by move=> p; rewrite eq_rho; apply: grid_density_c0 => i; rewrite eq_c0.
rewrite /_make_rho /rho_input; case: rdm1 => [d|d]; first exact: single.
case: (ref_is_restricted ref); first exact: single.
rewrite /_make_rho_unrestricted => H.
case: (bind_Ok H) => ca /make_rho_interm1_c0 [eq_ca eq_c1a] {}H.
case: (bind_Ok H) => cb /make_rho_interm1_c0 [eq_cb eq_c1b] {}H.
case: (bind_Ok H) => rho_a /make_rho_interm2_fits [fit eq_rho_a] {}H.
case: (bind_Ok H) => rho_b /make_rho_interm2_fits [_ eq_rho_b] {}H.
have eq_c0 p i : ca.1 p i + cb.1 p i
                 = contract_c0 (ao_values ao) (spin_sum d) p i.
  by rewrite eq_ca eq_cb contract_c0_spin.
have eq_rho p : rho_density rho_a p + rho_density rho_b p
                = grid_density ao (spin_sum d) p.
  rewrite eq_rho_a eq_rho_b grid_density_spin.
  by congr (_ + _); apply: grid_density_c0 => i; rewrite ?eq_ca ?eq_cb.
move: H; case: x eq_c1a eq_c1b fit {single} => /=.
- by move=> -> _ fit [<-].
- by move=> -> _ fit [<-].
- by move=> -> _ fit [<-].
- by move=> -> _ fit [<-].
- move=> [la -> size_a] [lb -> size_b] fit [<-]; split=> //.
  by rewrite /interm_fits /= /sum_c1 size_map size_zip size_a size_b.
Qed.

End RhoTheory.

Section RhoReturns.

Context {R : numFieldType} {mol : Mol R} {ngrids : nat}.

Lemma make_rho_returns {A : Type} (ao : ao_array R ngrids (nao mol))
  (rdm1 : rdm1_arg R (nao mol)) (ref : pyref A) (x : xc_kind) :
  ao_fits ao x -> is_ok (_make_rho ao rdm1 ref x).
Proof.
rewrite /_make_rho /_make_rho_restricted /_make_rho_unrestricted.
by case: x; case: ao => [a|comps] //=; do 10?[case: comps => [|? comps] //=];
   case: rdm1 => [d|d] //=; case: (ref_is_restricted ref).
Qed.

(** X18.  [_make_rho] returns exactly when the AO array has the shape that
    the class of the functional reads.  The intermediate [c0] that it
    returns is the contraction of the AO values with one density matrix, and
    the density that it returns (for the pair of the unrestricted branch:
    the sum of the two densities) is the density of that matrix on the
    grid: the matrix itself when it is 2-d; for a two-spin stack, twice the
    alpha matrix when [ref == 'restricted'] (the beta matrix is not read),
    and the sum of the two matrices for any other [ref]. *)
Theorem make_rho_one_density {A : Type} (ao : ao_array R ngrids (nao mol))
  (rdm1 : rdm1_arg R (nao mol)) (ref : pyref A) (x : xc_kind) :
  (ao_fits ao x <-> is_ok (_make_rho ao rdm1 ref x))
  /\ forall r, _make_rho ao rdm1 ref x = Ok r ->
       (forall p i, r.1.1 p i
                    = contract_c0 (ao_values ao) (rho_input rdm1 ref) p i)
       /\ (forall p, rho_value r.2 p
                     = grid_density ao (rho_input rdm1 ref) p).
Proof.
split; last by move=> r /make_rho_spec [].
split; first exact: make_rho_returns.
by case E: (_make_rho ao rdm1 ref x) => [r|] // _; move/make_rho_spec: E => [].
Qed.

End RhoReturns.

(** ** The DFT variables of the closure *)

Section DftSetup.

Context {R : numFieldType} (rt : Runtime R) {mol : Mol R}.

Notation op := (mat R (nao mol) (nao mol)).

Lemma dft_setup_spec (mf : MeanField mol) (ref0 : pyref (spin -> op))
  (D vk0 : spin -> op) (d : (spin -> op) * option (DftEnv mol)) :
  dft_setup mf ref0 D vk0 = Ok d ->
  match kohn_sham mf, d.2 with
  | None, None => d.1 = vk0
  | Some ks, Some e =>
      (d.1 = _vk_dft ks D vk0 /\ dft_xc_type e = xc_type ks)
      /\ [/\ ao_fits (ao_value e) (dft_xc_type e),
          interm_fits (c_tot e) (dft_xc_type e),
          forall p i, (c_tot e).1 p i
            = contract_c0 (ao_values (ao_value e)) (rho_input (Rdm3 D) ref0)
                p i
        & forall n, dft_nlc e = Some n ->
            ao_fits (ao_value_nlc n) GGA
            /\ forall p i, (c_vv10 n).1 p i
                 = contract_c0 (ao_values (ao_value_nlc n)) (spin_sum D) p i]
  | _, _ => False
  end.
Proof.
rewrite /dft_setup; case: (kohn_sham mf) => [ks|]; last by move=> [<-].
move=> H; case: (bind_Ok H) => xa Hxa {}H.
have eq_xa : xa.1 = xc_type ks by case: (xc_type ks) Hxa => //= -[<-].
case: (bind_Ok H) => r /make_rho_spec [fit fit1 eq_c0 _] {}H.
case: (bind_Ok H) => nlc_env Hn [<-] /=; split=> //; split=> // n eq_n.
move: Hn; rewrite eq_n; case: (nlc ks) => [g|] // {}H.
case: (bind_Ok H) => rv /make_rho_spec [fit_n _ eq_cv _] [<-] /=.
by split.
Qed.

Variable mf : MeanField mol.
Variable mo_coeff0 : forall s, mat R (nao mol) (norb mol s).
Variable mo_occ0 : forall s, vec R (norb mol s).
Variable ref0 : pyref (spin -> op).
Variable pt : prop_kind.
Variable kwargs : kwargs_t mol.
Variable c : Closure mol.
Variable q : charge_t mol.
Hypothesis built :
  make_closure rt mf mo_coeff0 mo_occ0 ref0 pt kwargs = Ok (c, q).

(** The DFT variables of a closure that [prop_tot] has built. *)
Lemma make_closure_dft :
  match kohn_sham mf, dft c with
  | None, None => vk c = (get_jk mf (rdm1_tot c)).2
  | Some ks, Some e =>
      (vk c = _vk_dft ks (rdm1_tot c) (get_jk mf (rdm1_tot c)).2
       /\ dft_xc_type e = xc_type ks)
      /\ [/\ ao_fits (ao_value e) (dft_xc_type e),
          interm_fits (c_tot e) (dft_xc_type e),
          forall p i, (c_tot e).1 p i
            = contract_c0 (ao_values (ao_value e))
                (rho_input (Rdm3 (rdm1_tot c)) ref0) p i
        & forall n, dft_nlc e = Some n ->
            ao_fits (ao_value_nlc n) GGA
            /\ forall p i, (c_vv10 n).1 p i
                 = contract_c0 (ao_values (ao_value_nlc n))
                     (spin_sum (rdm1_tot c)) p i]
  | _, _ => False
  end.
Proof.
move: built; rewrite /make_closure => H.
case: (bind_Ok H) => ao_dip0 _ {}H; case: (bind_Ok H) => wq _ {}H.
case: (bind_Ok H) => d /dft_setup_spec Hd [<- _] /=.
exact: Hd.
Qed.

(** The AO arrays of a closure that [prop_tot] has built have the shapes of
    its functionals. *)
Lemma make_closure_grids_fit : grids_fit c.
Proof.
have := make_closure_dft; rewrite /grids_fit.
case: (kohn_sham mf) => [ks|]; case: (dft c) => [e|] //.
case=> _ [-> _ _] /=; case: (dft_nlc e) => [n|] // /(_ n erefl) [].
by [].
Qed.

Lemma make_closure_weights :
  weights c = if kwargs_get "weights" kwargs is Ok (KwWeights w) then Some w
              else None.
Proof.
move: built; rewrite /make_closure => H.
case: (bind_Ok H) => ao_dip0 _ {}H; case: (bind_Ok H) => wq Hw {}H.
case: (bind_Ok H) => d _ [<- _] /=.
move: Hw; case mem: (kwargs_mem _ _).
  move=> {}H; case: (bind_Ok H) => v -> {}H.
  case: v H => [o|b|w'|r|cs] //= {}H.
  by case: (bind_Ok H) => ? _ [<-].
move=> [<-] /=; case get: (kwargs_get _ _) => [v|] //.
by rewrite (kwargs_get_mem get) in mem.
Qed.

End DftSetup.

(** ** The components of the atom-weighted strategy add up *)

Section AtomConservation.

Context {R : numFieldType} (rt : Runtime R) {mol : Mol R}.

Notation natoms := (natm (atoms mol)).

(** X1.  For a closure that [prop_tot] has built in energy mode, with a row
    of weights for every occupied orbital, [prop_atom] returns for every
    atom the Coulomb, exchange, kinetic and
    solvent components of its weighted density; when the weights of every
    occupied orbital sum to 1 over the atoms, each of these components sums
    over the atoms to the term of the total density: the Coulomb energy, the
    exchange energy, the kinetic energy, and the embedding energy (the MM
    potential traced with the total density plus the atom-wise solvation
    energies). *)
Theorem atom_traces_conserved (mf : MeanField mol)
  (mo_coeff0 : forall s, mat R (nao mol) (norb mol s))
  (mo_occ0 : forall s, vec R (norb mol s))
  (ref0 : pyref (spin -> mat R (nao mol) (nao mol)))
  (kwargs : kwargs_t mol) (c : Closure mol) (q : charge_t mol)
  (w : weights_t mol) :
  make_closure rt mf mo_coeff0 mo_occ0 ref0 Energy kwargs = Ok (c, q) ->
  weights c = Some w -> rows_cover w ->
  (forall a, exists2 res, prop_atom c a = Ok res
             & [/\ dict_get coul res = Ok (Scalar (coul_atom c w a)),
                   dict_get exch res = Ok (Scalar (exch_atom c w a)),
                   dict_get kin res = Ok (Scalar (kin_atom c w a))
                 & dict_get solvent res = Ok (Scalar (solvent_atom c w a))])
  /\ (occupied_domain c -> complete_weights w ->
      [/\ \sum_a coul_atom c w a = coul_total c,
          \sum_a exch_atom c w a = exch_total c,
          \sum_a kin_atom c w a = kin_total c
        & \sum_a solvent_atom c w a = solvent_total c]).
Proof.
move=> built bound cover.
have [energy tot_eq _ _ _] := make_closure_fields rt _ _ _ _ _ _ _ _ built.
have fit := make_closure_grids_fit rt _ _ _ _ _ _ _ _ built.
split=> [a|occ_dom complete].
  have [res -> get_res] := prop_atom_energy c w bound a energy cover fit.
  by exists res => //; rewrite !get_res.
split; first exact: sum_coul_atom.
- exact: sum_exch_atom.
- exact: sum_kin_atom.
- exact: sum_solvent_atom.
Qed.

(** X2.  For a closure that [prop_tot] has built in energy mode, with a row
    of weights for every occupied orbital, [prop_atom] returns for every
    atom as xc component the quadrature of the xc energy density with the
    density of the atom's weighted density matrix on the grid (plus the same
    on the grid of the non-local correlation); when the weights of every
    occupied orbital sum to 1 over the atoms, these components sum to the
    quadrature with the density of the total density matrix. *)
Theorem atom_xc_conserved (mf : MeanField mol)
  (mo_coeff0 : forall s, mat R (nao mol) (norb mol s))
  (mo_occ0 : forall s, vec R (norb mol s))
  (ref0 : pyref (spin -> mat R (nao mol) (nao mol)))
  (kwargs : kwargs_t mol) (c : Closure mol) (q : charge_t mol)
  (w : weights_t mol) :
  make_closure rt mf mo_coeff0 mo_occ0 ref0 Energy kwargs = Ok (c, q) ->
  weights c = Some w -> rows_cover w ->
  (forall a, exists2 res, prop_atom c a = Ok res
             & dict_get xc res = Ok (Scalar (xc_atom c w a)))
  /\ (occupied_domain c -> complete_weights w ->
      \sum_a xc_atom c w a = xc_total c).
Proof.
move=> built bound cover.
have [energy tot_eq _ _ _] := make_closure_fields rt _ _ _ _ _ _ _ _ built.
have fit := make_closure_grids_fit rt _ _ _ _ _ _ _ _ built.
split=> [a|occ_dom complete]; last exact: sum_xc_atom.
have [res -> get_res] := prop_atom_energy c w bound a energy cover fit.
by exists res => //; rewrite get_res.
Qed.

End AtomConservation.

(** ** The exchange-correlation component of the EDA strategy *)

Section EdaGrid.

Context {R : numFieldType} {mol : Mol R}.

Notation natoms := (natm (atoms mol)).

Lemma sum_select_aos (F : 'I_(nao mol) -> R) :
  \sum_(a < natoms) \sum_(i <- select_aos a) F i = \sum_i F i.
Proof.
rewrite [RHS](partition_big (ao_labels mol) xpredT) //=.
by apply: eq_bigr => a _; rewrite /select_aos big_filter big_enum_cond.
Qed.

Lemma e_xc_eda_fits {ngrids : nat} (select : seq 'I_(nao mol))
  (ct : interm R ngrids (nao mol)) (ao : ao_array R ngrids (nao mol))
  (eps wts : vec R ngrids) (x : xc_kind) :
  ao_fits ao x -> reads_ao_stack x -> interm_fits ct x ->
  e_xc_eda select ct ao eps wts x
  = Ok (selected_energy select ct ao eps wts).
Proof.
rewrite /e_xc_eda /selected_energy /selected_density /interm_fits /_e_xc.
case: ct => c0 c1 /=.
case: x; case: ao => [a|comps] //=; do 10?[case: comps => [|? comps] //=];
  move=> _ _; do ?[case: c1 => [l|] //=; do 3?[case: l => [|? l] //=]];
  move=> _; congr Ok; apply: eq_bigr => p _; congr (_ * _ * _);
  rewrite [RHS]big_tnth; apply: eq_bigr => i _;
  by rewrite /take_cols 1?mulrC.
Qed.

Lemma e_xc_eda_value {ngrids : nat} (select : seq 'I_(nao mol))
  (ct : interm R ngrids (nao mol)) (ao : ao_array R ngrids (nao mol))
  (eps wts : vec R ngrids) (x : xc_kind) (v : R) :
  ao_fits ao x -> interm_fits ct x ->
  e_xc_eda select ct ao eps wts x = Ok v ->
  v = selected_energy select ct ao eps wts.
Proof.
move=> fit fit1; case stack: (reads_ao_stack x).
  by rewrite e_xc_eda_fits // => -[].
by case: x fit stack {fit1} => //; case: ao.
Qed.

Lemma sum_selected_energy {ngrids : nat} (ct : interm R ngrids (nao mol))
  (ao : ao_array R ngrids (nao mol)) (eps wts : vec R ngrids)
  (d : mat R (nao mol) (nao mol)) :
  (forall p i, ct.1 p i = contract_c0 (ao_values ao) d p i) ->
  \sum_a selected_energy (select_aos a) ct ao eps wts
  = grid_energy ao eps wts d.
Proof.
move=> eq_c0; rewrite /selected_energy /grid_energy exchange_big /=.
apply: eq_bigr => p _; rewrite -mulr_suml -mulr_sumr; congr (_ * _ * _).
by rewrite /selected_density sum_select_aos; apply: grid_density_c0.
Qed.

End EdaGrid.

Section SeqMapFirst.

Lemma seq_map_all_raise {A B : Type} (f : A -> result B) (e : exn)
  (domain : seq A) :
  (forall x, f x = Raise e) -> (0 < size domain)%N ->
  seq_map f domain = Raise e.
Proof. by move=> raises; case: domain => [|x l] //= _; rewrite raises. Qed.

End SeqMapFirst.

Section EdaXc.

Context {R : numFieldType} (rt : Runtime R) {mol : Mol R}.

Notation natoms := (natm (atoms mol)).
Notation op := (mat R (nao mol) (nao mol)).

Variable mf : MeanField mol.
Variable mo_coeff0 : forall s, mat R (nao mol) (norb mol s).
Variable mo_occ0 : forall s, vec R (norb mol s).
Variable ref0 : pyref (spin -> op).
Variable kwargs : kwargs_t mol.
Variable c : Closure mol.
Variable q : charge_t mol.

(** X5.  For a closure that [prop_tot] has built in energy mode with a [ref]
    other than the string ['restricted'] (as in every call from [main]):
    whenever [prop_eda] returns, its xc component is the quadrature of the
    xc energy density with the density built from the columns, of the
    intermediate of the total density and of the AO values, of the basis
    functions centred on the atom (plus the same on the grid of the
    non-local correlation); [prop_eda] returns for every atom when the
    reference is Hartree-Fock or its functional reads a stack of AO
    components (GGA, NLC, meta-GGA); and these components sum over the atoms
    to the quadrature with the density of the total density matrix. *)
Theorem eda_xc_conserved :
  make_closure rt mf mo_coeff0 mo_occ0 ref0 Energy kwargs = Ok (c, q) ->
  ref_is_restricted ref0 = false ->
  [/\ forall a res, prop_eda c a = Ok res ->
        dict_get xc res = Ok (Scalar (xc_eda c a)),
      (forall e, dft c = Some e -> reads_ao_stack (dft_xc_type e)) ->
        forall a, is_ok (prop_eda c a)
    & \sum_a xc_eda c a = xc_total c].
Proof.
move=> built unrestricted.
have [energy _ _ _ _] := make_closure_fields rt _ _ _ _ _ _ _ _ built.
have := make_closure_dft rt _ _ _ _ _ _ _ _ built.
rewrite /rho_input unrestricted /xc_eda /xc_total.
case: (kohn_sham mf) => [ks|]; case dft_c: (dft c) => [e|] //; last first.
  move=> _; split=> [a res|_ a|]; last by rewrite big1.
    rewrite /prop_eda /prop_eda_spin /init_res energy /= /xc_contribution_eda.
    rewrite dft_c; case: (mm_pot c) => [pot|]; case: (e_solvent c) => [es|];
      by rewrite /dict_iadd /= => -[<-].
  exact: prop_eda_returns.
case=> _ [fit fit1 eq_c0 nlc_spec].
have nlc_fit n : dft_nlc e = Some n -> ao_fits (ao_value_nlc n) GGA.
  by move=> /nlc_spec [].
split=> [a res|stack a|].
- rewrite /prop_eda /prop_eda_spin /init_res energy /= /xc_contribution_eda.
  rewrite dft_c; case: (mm_pot c) => [pot|]; case: (e_solvent c) => [es|];
    rewrite /dict_iadd /=;
    (case E: (e_xc_eda _ _ _ _ _ _) => [x|err] //=;
     have -> := e_xc_eda_value _ _ _ _ _ _ _ fit fit1 E;
     case: (dft_nlc e) nlc_fit => [n|] nlc_fit /=;
     [ case En: (e_xc_eda _ _ _ _ _ _) => [y|err'] //=;
       have -> := e_xc_eda_value _ _ _ _ _ _ _ (nlc_fit n erefl) isT En
     | ]);
    by move=> [<-] /=; rewrite add0r ?addr0.
- rewrite /prop_eda /prop_eda_spin /init_res energy /= /xc_contribution_eda.
  rewrite dft_c /= e_xc_eda_fits ?(stack e) //=.
  case: (dft_nlc e) nlc_fit => [n|] nlc_fit /=;
    first (rewrite e_xc_eda_fits ?(nlc_fit n erefl) //=);
    by case: (mm_pot c) => [pot|]; case: (e_solvent c) => [es|].
- rewrite big_split /= (sum_selected_energy _ _ _ _ _ eq_c0); congr (_ + _).
  case: (dft_nlc e) nlc_spec {nlc_fit} => [n|] nlc_spec; last by rewrite big1.
  have [_ eq_cv] := nlc_spec n erefl.
  exact: sum_selected_energy.
Qed.

(** X6.  For a Kohn-Sham object with a functional of class LDA, for which
    the AO values are a 2-d array, [prop_eda] raises [IndexError] for every
    atom in energy mode (the AO values are indexed with three indices), and
    so does the sequential EDA decomposition of a molecule with at least one
    atom. *)
Theorem eda_lda_index_error (ks : KohnSham mol) (pop : string) :
  kohn_sham mf = Some ks -> xc_type ks = LDA ->
  make_closure rt mf mo_coeff0 mo_occ0 ref0 Energy kwargs = Ok (c, q) ->
  (forall a, prop_eda c a = Raise IndexError)
  /\ ((0 < natoms)%N ->
      prop_tot rt mf mo_coeff0 mo_occ0 ref0 pop Energy Eda false kwargs
      = Raise IndexError).
Proof.
move=> ks_mf lda built.
have [energy _ _ _ _] := make_closure_fields rt _ _ _ _ _ _ _ _ built.
have := make_closure_dft rt _ _ _ _ _ _ _ _ built.
rewrite ks_mf; case dft_c: (dft c) => [e|] // [[_ eq_x] [fit _ _ _]].
have raises a : prop_eda c a = Raise IndexError.
  rewrite /prop_eda /prop_eda_spin /init_res energy /= /xc_contribution_eda.
  rewrite dft_c /e_xc_eda; move: fit; rewrite eq_x lda.
  case: (ao_value e) => [ao|comps] //= _.
  by case: (mm_pot c) => [pot|]; case: (e_solvent c) => [es|].
split=> // atoms_pos.
rewrite /prop_tot built /= /decompose_atoms /execute.
by rewrite (seq_map_all_raise _ IndexError) // size_enum_ord.
Qed.

End EdaXc.

(** ** Requests that cannot be served *)

Section Failures.

Lemma bind_not_ok {T U : Type} (r : result T) (k : T -> result U) :
  ~~ is_ok r -> ~~ is_ok (bind r k).
Proof. by case: r. Qed.

Lemma none_ok {A B : Type} (f : A -> result B) (domain : seq A) :
  (forall x, ~~ is_ok (f x)) -> (0 < size domain)%N ->
  ~~ all is_ok (map f domain).
Proof.
by move=> fails; case: domain => [|x l] //= _; rewrite (negPf (fails x)).
Qed.

End Failures.

Section DipoleAtoms.

Context {R : numFieldType} (rt : Runtime R) {mol : Mol R}.

Notation natoms := (natm (atoms mol)).
Notation op := (mat R (nao mol) (nao mol)).

Lemma prop_eda_dipole (c : Closure mol) (a : 'I_natoms) :
  prop_type c = Dipole -> prop_eda c a = Raise (KeyError "el").
Proof. by rewrite /prop_eda /init_res => ->. Qed.

Lemma prop_atom_dipole (c : Closure mol) (a : 'I_natoms) :
  prop_type c = Dipole -> ~~ is_ok (prop_atom c a).
Proof.
rewrite /prop_atom /prop_atom_spin /init_res => -> /=.
case: (weighted_rdm1 c Alpha a _ _) => [Da|e] //=.
by case: (weighted_rdm1 c Beta a _ _) => [Db|e].
Qed.

Lemma prop_atom_dipole_covered (c : Closure mol) (w : weights_t mol)
  (a : 'I_natoms) :
  prop_type c = Dipole -> weights c = Some w -> rows_cover w ->
  prop_atom c a = Raise (KeyError "el").
Proof.
move=> dipole bound /andP [cover_a cover_b].
have [Da eqa _] := weighted_rdm1_density c w bound Alpha a cover_a.
have [Db eqb _] := weighted_rdm1_density c w bound Beta a cover_b.
by rewrite /prop_atom /prop_atom_spin /init_res dipole eqa /= eqb.
Qed.

Variable mf : MeanField mol.
Variable mo_coeff0 : forall s, mat R (nao mol) (norb mol s).
Variable mo_occ0 : forall s, vec R (norb mol s).
Variable ref0 : pyref (spin -> op).
Variable pop : string.
Variable kwargs : kwargs_t mol.


End DipoleAtoms.

Section OrbsThroughMain.

Context {R : numFieldType} (rt : Runtime R) {mol : Mol R}.
Variable up : Upstream mol.

Notation op := (mat R (nao mol) (nao mol)).

(** X8.  For the partition 'orbs' [main] calls [prop_tot] without the
    keyword [rep_idx], which the branch of [prop_tot] for every partition
    other than 'atoms' and 'eda' reads: [main] never returns for this
    partition, and for an energy request with a Hartree-Fock reference that
    passes the sanity check it raises [KeyError('rep_idx')]. *)
Theorem main_orbs_key_error (decomp : DecompCls R) (mf : MeanField mol)
  (rdm1_orb rdm1_eff : option (spin -> op)) (loc_lst : option (seq nat)) :
  d_part decomp = Orbs ->
  ~~ is_ok (main rt up decomp mf rdm1_orb rdm1_eff loc_lst)
  /\ (sanity_check up decomp = Ok tt -> d_prop decomp = Energy ->
      kohn_sham mf = None ->
      main rt up decomp mf rdm1_orb rdm1_eff loc_lst
      = Raise (KeyError "rep_idx")).
Proof.
move=> orbs; rewrite /main orbs; split.
  case: (sanity_check up decomp) => [[]|e] //=.
  apply: bind_not_ok; rewrite /prop_tot /make_closure.
  case: (d_prop decomp) => //=.
  by case: (dft_setup _ _ _ _) => [d|e].
move=> -> -> no_ks /=.
by rewrite /prop_tot /make_closure /= /dft_setup no_ks.
Qed.

End OrbsThroughMain.

Section NoWeights.

Context {R : numFieldType} (rt : Runtime R) {mol : Mol R}.

Notation natoms := (natm (atoms mol)).
Notation op := (mat R (nao mol) (nao mol)).

(** X17.  Without the keyword [weights], [prop_tot] sets [charge_atom] to
    the float [0.] and leaves its variable [weights] unbound: when the
    molecule has an occupied orbital, [prop_atom] raises [NameError] for
    every atom, in energy and in dipole mode. *)
Theorem no_weights_name_error (mf : MeanField mol)
  (mo_coeff0 : forall s, mat R (nao mol) (norb mol s))
  (mo_occ0 : forall s, vec R (norb mol s))
  (ref0 : pyref (spin -> op)) (pt : prop_kind) (kwargs : kwargs_t mol)
  (c : Closure mol) (q : charge_t mol) :
  kwargs_mem "weights" kwargs = false ->
  make_closure rt mf mo_coeff0 mo_occ0 ref0 pt kwargs = Ok (c, q) ->
  [/\ q = ChargeZero, weights c = None
    & (0 < size (occupied mol Alpha) + size (occupied mol Beta))%N ->
      forall a, prop_atom c a = Raise (NameError "weights")].
Proof.
move=> no_w built.
have [eq_pt _ _ _ _] := make_closure_fields rt _ _ _ _ _ _ _ _ built.
have unbound : weights c = None.
  rewrite (make_closure_weights rt _ _ _ _ _ _ _ _ built).
  case get: (kwargs_get _ _) => [[]|] //.
  by rewrite (kwargs_get_mem get) in no_w.
split=> //.
  move: built; rewrite /make_closure => H.
  case: (bind_Ok H) => ao_dip0 _ {}H; case: (bind_Ok H) => wq.
  by rewrite no_w => -[<-] {}H; case: (bind_Ok H) => d _ [_ <-].
move=> occupied_pos a.
rewrite /prop_atom /prop_atom_spin /init_res.
case: (occupied mol Alpha) occupied_pos => [|ja la] /=.
  case: (occupied mol Beta) => [|jb lb] //= _.
  by rewrite /weight_of unbound /=; case: (prop_type c).
by rewrite /weight_of unbound.
Qed.

End NoWeights.

(** ** Weights given as arrays *)

Section ArrayWeights.

Context {R : numFieldType} (rt : Runtime R) {mol : Mol R}.

Notation natoms := (natm (atoms mol)).
Notation op := (mat R (nao mol) (nao mol)).

Variable mf : MeanField mol.
Variable mo_coeff0 : forall s, mat R (nao mol) (norb mol s).
Variable mo_occ0 : forall s, vec R (norb mol s).
Variable ref0 : pyref (spin -> op).
Variable kwargs : kwargs_t mol.
Variable w : weights_t mol.
Hypothesis get_w : kwargs_get "weights" kwargs = Ok (KwWeights w).

Lemma make_closure_charges (pt : prop_kind) (c : Closure mol)
  (ch : charge_t mol) :
  make_closure rt mf mo_coeff0 mo_occ0 ref0 pt kwargs = Ok (c, ch) ->
  exists2 qv, effective_charges w = Ok qv & ch = ChargeArr qv.
Proof.
rewrite /make_closure => H.
case: (bind_Ok H) => ao_dip0 _ {}H; case: (bind_Ok H) => wq.
rewrite (kwargs_get_mem get_w) get_w /= => Hq {}H.
case: (bind_Ok H) => d _ [_ <-].
by case: (bind_Ok Hq) => qv -> [<-]; exists qv.
Qed.

(** X9.  When the weights of the two spins are arrays with different numbers
    of rows, neither of them a single row, as for an open-shell molecule
    with at least two occupied orbitals of either spin, the sum
    [weights[0] + weights[1]] cannot be broadcast: [prop_tot] raises
    [ValueError] in energy mode, for every partition, before any kernel
    runs. *)
Theorem array_weights_shape_error (pop : string) (part : part_kind)
  (multiproc : bool) (ta tb : seq (vec R natoms)) :
  w Alpha = NdArray ta -> w Beta = NdArray tb ->
  size ta != size tb -> size ta != 1%N -> size tb != 1%N ->
  prop_tot rt mf mo_coeff0 mo_occ0 ref0 pop Energy part multiproc kwargs
  = Raise ValueError.
Proof.
move=> eq_a eq_b neq_size neq_a neq_b.
rewrite /prop_tot /make_closure /= (kwargs_get_mem get_w) get_w /=.
suff -> : effective_charges w = Raise ValueError by [].
rewrite /effective_charges /py_add eq_a eq_b /= /nd_add (negPf neq_size).
case: tb neq_b {eq_b neq_size} => [|v [|v' tb]] // _.
  by case: ta neq_a {eq_a} => [|u [|u' ta]].
by case: ta neq_a {eq_a} => [|u [|u' ta]].
Qed.

Lemma sum_const_seq {T : Type} (l : seq T) (x : R) :
  \sum_(u <- l) x = (size l)%:R * x.
Proof.
by rewrite big_const_seq count_predT iter_addr_0 mulr_natl.
Qed.

(** X10.  When the weights of the two spins are arrays and the beta table
    has a single row while the alpha table has another number of rows,
    [weights[0] + weights[1]] broadcasts the beta row over the alpha rows:
    the charge of every atom that [prop_tot] computes, and returns whenever
    it returns, is its nuclear charge minus its alpha population minus its
    beta weight counted once for every alpha row. *)
Theorem array_weights_broadcast (pt : prop_kind) (c : Closure mol)
  (ch : charge_t mol) (ta : seq (vec R natoms)) (v : vec R natoms) :
  w Alpha = NdArray ta -> w Beta = NdArray [:: v] -> size ta != 1%N ->
  make_closure rt mf mo_coeff0 mo_occ0 ref0 pt kwargs = Ok (c, ch) ->
  (forall pop part multiproc r,
     prop_tot rt mf mo_coeff0 mo_occ0 ref0 pop pt part multiproc kwargs
     = Ok r ->
     charge_atom r = ch)
  /\ exists2 qv, ch = ChargeArr qv
     & forall a, qv a = atom_charges (atoms mol) a
                        - (population ta a + (size ta)%:R * v a).
Proof.
move=> eq_a eq_b neq_size built; split.
  move=> pop part multiproc r /prop_tot_charge [c'].
  by rewrite built => -[_ ->].
have [qv eq_qv ->] := make_closure_charges pt c ch built.
exists qv => // a; move: eq_qv.
rewrite /effective_charges /py_add eq_a eq_b /= /nd_add /= (negPf neq_size).
move=> [<-]; congr (_ - _).
rewrite /sum_axis0 /population /= big_map /row_add big_split /=.
by rewrite sum_const_seq.
Qed.


End ArrayWeights.

(** ** Functionals without exact exchange, atoms without charge *)

Section Operators.

Context {R : numFieldType} (rt : Runtime R) {mol : Mol R}.

Notation natoms := (natm (atoms mol)).
Notation op := (mat R (nao mol) (nao mol)).

Variable mf : MeanField mol.
Variable mo_coeff0 : forall s, mat R (nao mol) (norb mol s).
Variable mo_occ0 : forall s, vec R (norb mol s).
Variable ref0 : pyref (spin -> op).
Variable pt : prop_kind.
Variable kwargs : kwargs_t mol.
Variable c : Closure mol.
Variable q : charge_t mol.
Hypothesis built :
  make_closure rt mf mo_coeff0 mo_occ0 ref0 pt kwargs = Ok (c, q).

(** The operators of a closure that [prop_tot] has built. *)
Lemma make_closure_operators :
  [/\ kin_op c = int1e_kin mol,
      sub_nuc c = (fun k p q => -1 * int1e_rinv mol k p q
                                * atom_charges (atoms mol) k),
      mm_pot c = (if mm_mol mf is Some _ then Some (_mm_pot mf) else None),
      e_solvent c = omap (fun solvent_of => solvent_of (spin_sum (rdm1_tot c)))
                      (with_solvent mf)
    & vj c = (get_jk mf (rdm1_tot c)).1].
Proof.
move: built; rewrite /make_closure => H.
case: (bind_Ok H) => ao_dip0 _ {}H; case: (bind_Ok H) => wq _ {}H.
by case: (bind_Ok H) => d _ {H} [<- _].
Qed.

End Operators.

Section PureFunctional.

Context {R : numFieldType} (rt : Runtime R) {mol : Mol R}.

Notation natoms := (natm (atoms mol)).
Notation op := (mat R (nao mol) (nao mol)).

Lemma vk_dft_pure (ks : KohnSham mol) (rdm1 vk0 : spin -> op) s p q :
  rsh_hyb ks = 0 -> ~~ ((10%:R ^+ 10)^-1 < `|rsh_omega ks|) ->
  _vk_dft ks rdm1 vk0 s p q = 0.
Proof.
by move=> hyb0 /negPf small; rewrite /_vk_dft small hyb0 mulr0.
Qed.

(** X11.  For a Kohn-Sham object whose functional has no exact exchange
    (hybrid coefficient 0) and no range separation ([abs(omega) > 1e-10]
    is false), the exchange operator of the closure that [prop_tot] builds is
    zero, and so is the exchange component of every atom: of [prop_atom] in
    energy mode when the weights have a row for every occupied orbital, and
    of [prop_eda] whenever it returns. *)
Theorem pure_functional_no_exchange (mf : MeanField mol)
  (mo_coeff0 : forall s, mat R (nao mol) (norb mol s))
  (mo_occ0 : forall s, vec R (norb mol s))
  (ref0 : pyref (spin -> op)) (kwargs : kwargs_t mol) (c : Closure mol)
  (q : charge_t mol) (ks : KohnSham mol) :
  kohn_sham mf = Some ks -> rsh_hyb ks = 0 ->
  ~~ ((10%:R ^+ 10)^-1 < `|rsh_omega ks|) ->
  make_closure rt mf mo_coeff0 mo_occ0 ref0 Energy kwargs = Ok (c, q) ->
  [/\ forall s p q, vk c s p q = 0,
      forall w a, weights c = Some w -> rows_cover w ->
        exists2 res, prop_atom c a = Ok res
                     & dict_get exch res = Ok (Scalar 0)
    & forall a res, prop_eda c a = Ok res ->
        dict_get exch res = Ok (Scalar 0)].
Proof.
move=> ks_mf hyb0 small built.
have [energy _ _ _ _] := make_closure_fields rt _ _ _ _ _ _ _ _ built.
have fit := make_closure_grids_fit rt _ _ _ _ _ _ _ _ built.
have vk0 s p q' : vk c s p q' = 0.
  have := make_closure_dft rt _ _ _ _ _ _ _ _ built.
  rewrite ks_mf; case: (dft c) => [e|] // [[-> _] _].
  exact: vk_dft_pure.
split=> // [w a bound cover|a res returns].
  have [res -> get_res] := prop_atom_energy c w bound a energy cover fit.
  exists res => //; rewrite get_res /= /exch_atom.
  by rewrite !(trace_op_zero _ _ (vk0 _)) oppr0 addr0.
have [_ -> _ _] := prop_eda_traces c a res energy returns.
by rewrite /exch_eda !trace_op_zero ?oppr0 ?addr0 // => i j;
   rewrite /take_rows vk0.
Qed.

End PureFunctional.

Section GhostAtoms.

Context {R : numFieldType} (rt : Runtime R) {mol : Mol R}.

Notation natoms := (natm (atoms mol)).
Notation op := (mat R (nao mol) (nao mol)).

Lemma e_nuc_charge0 (nrm : vec R 3 -> R) (m : Mole R)
  (mm : option (Mole R)) (a : 'I_(natm m)) :
  atom_charges m a = 0 -> _e_nuc nrm m mm a = 0.
Proof.
move=> z0; rewrite e_nuc_mm /mm_interaction z0.
have -> : _e_nuc nrm m None a = 0.
  by rewrite /_e_nuc /= big1 ?mul0r // => j _; rewrite z0 !mul0r.
by rewrite add0r; case: mm => [mm|] //; rewrite mul0r.
Qed.

(** X12.  An atom without nuclear charge and without weight in any orbital
    (a ghost centre to which the populations assign nothing) contributes
    zero to every component: in energy mode, without a continuum-solvation
    model, [prop_atom] returns for it a dictionary that holds zero under
    every component name, the structural one included. *)
Theorem ghost_atom_zero (mf : MeanField mol)
  (mo_coeff0 : forall s, mat R (nao mol) (norb mol s))
  (mo_occ0 : forall s, vec R (norb mol s))
  (ref0 : pyref (spin -> op)) (kwargs : kwargs_t mol) (c : Closure mol)
  (q : charge_t mol) (w : weights_t mol) (a : 'I_natoms) :
  make_closure rt mf mo_coeff0 mo_occ0 ref0 Energy kwargs = Ok (c, q) ->
  weights c = Some w -> rows_cover w -> zero_weights w a ->
  atom_charges (atoms mol) a = 0 -> with_solvent mf = None ->
  exists2 res, prop_atom c a = Ok res
               & forall key, dict_get key res = Ok (Scalar 0).
Proof.
move=> built bound cover zero_w z0 no_solvent.
have [energy _ _ _ nuc_rep] := make_closure_fields rt _ _ _ _ _ _ _ _ built.
have fit := make_closure_grids_fit rt _ _ _ _ _ _ _ _ built.
have [_ eq_sub _ eq_solv _] := make_closure_operators rt _ _ _ _ _ _ _ _ built.
have [res -> get_res] := prop_atom_energy c w bound a energy cover fit.
have sub0 : _trace (sub_nuc c a) (spin_sum (rdm1_tot c)) half = 0.
  by apply: trace_op_zero => i j; rewrite eq_sub z0 mulr0.
have solv0 : solvent_atom c w a = 0.
  by rewrite solvent_atom_zero // eq_solv no_solvent.
have nuc0 : nuc_att_atom c w a = 0 by rewrite nuc_att_atom_zero.
exists res => // key; rewrite get_res.
case: key => /=; rewrite /el_atom ?coul_atom_zero ?exch_atom_zero ?kin_atom_zero
  ?xc_atom_zero ?nuc0 ?solv0 ?addr0 //.
by rewrite nuc_rep /= e_nuc_charge0 // addr0.
Qed.

End GhostAtoms.

(** ** Filling the result arrays *)

Section Filling.

Lemma set_nth_fill {T : Type} (x : T) (s : seq T) (k : nat) (vs : seq T) :
  (k < size s)%N ->
  take k.+1 (set_nth x s k x) ++ vs ++ drop (k.+1 + size vs) (set_nth x s k x)
  = take k s ++ (x :: vs) ++ drop (k + (size vs).+1) s.
Proof.
move=> lt_k; have size_tk : size (take k s) = k by rewrite size_takel // ltnW.
rewrite set_nthE lt_k take_cat drop_cat size_tk.
rewrite ltnNge leqnSn /= subSnn /= take0.
have -> : (k.+1 + size vs < k)%N = false by rewrite addSn ltnNge leqW ?leq_addr.
rewrite addSn subSn ?leq_addr // addKn /= drop_drop -catA /=.
by rewrite addnC !addnS.
Qed.

Lemma fill_all {T : Type} (s vs : seq T) :
  size vs = size s -> take 0 s ++ vs ++ drop (0 + size vs) s = vs.
Proof. by move=> ->; rewrite take0 add0n drop_size cats0. Qed.

Lemma pymod_small (k n : nat) : (k < n)%N -> pymod k n = Ok k.
Proof. by case: n => [|n] // lt_k; rewrite /pymod modn_small. Qed.

Lemma pymod_second (k n : nat) :
  (n <= k)%N -> (k < n + n)%N -> pymod k n = Ok (k - n)%N.
Proof.
case: n => [|n] // le_k lt_k; rewrite /pymod -{1}(subnK le_k) modnDr.
by rewrite modn_small // ltn_subLR.
Qed.

Lemma seq_map_values {A B : Type} (f : A -> result B) (g : A -> B)
  (domain : seq A) :
  (forall x, f x = Ok (g x)) -> seq_map f domain = Ok (map g domain).
Proof. by move=> eq_f; elim: domain => [|x l IH] //=; rewrite eq_f /= IH. Qed.

Lemma enumerate_cat {T : Type} (l1 l2 : seq T) :
  enumerate (l1 ++ l2)
  = zip (iota 0 (size l1)) l1 ++ zip (iota (size l1) (size l2)) l2.
Proof. by rewrite /enumerate size_cat iotaD zip_cat ?size_iota. Qed.

End Filling.

(** ** The bond strategy *)

Section BondCollect.

Context {R : numFieldType}.

Implicit Types (a b vs : seq (value R)).

Local Arguments collect_bond_items : simpl never.

Lemma collect_bond_item_alpha (n0 k0 : nat) (v : value R) a b :
  size a = n0 -> (k0 < n0)%N ->
  collect_bond_items n0 k0 [:: (el, v)] [:: (el, PerSpin a b)]
  = Ok [:: (el, PerSpin (set_nth v a k0 v) b)].
Proof.
move=> size_a lt_k.
by rewrite /collect_bond_items /= lt_k pymod_small //= /setitem size_a lt_k.
Qed.

Lemma collect_bond_item_beta (n0 k0 : nat) (v : value R) a b :
  (n0 <= k0)%N -> (k0 < n0 + n0)%N -> (k0 - n0 < size b)%N ->
  collect_bond_items n0 k0 [:: (el, v)] [:: (el, PerSpin a b)]
  = Ok [:: (el, PerSpin a (set_nth v b (k0 - n0) v))].
Proof.
move=> le_k lt_k lt_b.
rewrite /collect_bond_items /= ltnNge le_k /= pymod_second //=.
by rewrite /setitem lt_b.
Qed.

Lemma collect_bonds_alpha (n0 : nat) vs (k0 : nat) a b :
  size a = n0 -> (k0 + size vs <= n0)%N ->
  collect_bonds n0 (zip (iota k0 (size vs)) [seq [:: (el, v)] | v <- vs])
    [:: (el, PerSpin a b)]
  = Ok [:: (el, PerSpin (take k0 a ++ vs ++ drop (k0 + size vs) a) b)].
Proof.
elim: vs k0 a => [|v vs IH] k0 a size_a /=.
  by rewrite addn0 cat_take_drop.
rewrite addnS => lt_k.
have lt_k0 : (k0 < n0)%N by apply: leq_trans lt_k; rewrite ltnS leq_addr.
have size_a' : size (set_nth v a k0 v) = n0.
  by rewrite size_set_nth size_a; apply/maxn_idPr.
rewrite collect_bond_item_alpha //= IH ?addSn //.
by rewrite -addSn set_nth_fill ?size_a // addnS.
Qed.

Lemma collect_bonds_beta (n0 : nat) vs (k0 : nat) a b :
  (n0 <= k0)%N -> (k0 + size vs <= n0 + n0)%N ->
  (k0 - n0 + size vs <= size b)%N ->
  collect_bonds n0 (zip (iota k0 (size vs)) [seq [:: (el, v)] | v <- vs])
    [:: (el, PerSpin a b)]
  = Ok [:: (el, PerSpin a (take (k0 - n0) b ++ vs
                           ++ drop (k0 - n0 + size vs) b))].
Proof.
elim: vs k0 b => [|v vs IH] k0 b le_k /=.
  by rewrite !addn0 cat_take_drop.
rewrite !addnS => lt_k lt_b.
have lt_k0 : (k0 < n0 + n0)%N by apply: leq_trans lt_k; rewrite ltnS leq_addr.
have lt_b0 : (k0 - n0 < size b)%N.
  by apply: leq_trans lt_b; rewrite ltnS leq_addr.
have size_b' : size (set_nth v b (k0 - n0) v) = size b.
  by rewrite size_set_nth; apply/maxn_idPr.
rewrite collect_bond_item_beta //= IH ?addSn ?subSn ?leqW ?size_b' //.
by rewrite -addSn set_nth_fill // addnS.
Qed.

Lemma collect_bonds_cat (n0 : nat) (l1 l2 : seq (nat * dict (value R)))
  (prop : dict (prop_entry R)) :
  collect_bonds n0 (l1 ++ l2) prop
  = let* p := collect_bonds n0 l1 prop in collect_bonds n0 l2 p.
Proof.
elim: l1 prop => [|[k r] l1 IH] prop //=.
by case: (collect_bond_items n0 k r prop) => [p|e] //=.
Qed.

(** The results of the tasks of the alpha orbitals, then of the beta
    orbitals, each a dictionary with the single entry [el], are stored in
    order when the beta list is not longer than the alpha list. *)
Lemma collect_bonds_ordered (va vb za zb : seq (value R)) :
  size za = size va -> size zb = size vb -> (size vb <= size va)%N ->
  collect_bonds (size va)
    (enumerate ([seq [:: (el, v)] | v <- va] ++ [seq [:: (el, v)] | v <- vb]))
    [:: (el, PerSpin za zb)]
  = Ok [:: (el, PerSpin va vb)].
Proof.
move=> size_za size_zb le_ba.
rewrite enumerate_cat !size_map collect_bonds_cat.
rewrite (collect_bonds_alpha (size va) va 0 za zb) ?add0n //=.
rewrite (collect_bonds_beta (size va) vb (size va)) ?leq_add2l ?subnn ?add0n
  ?size_zb //.
by rewrite !fill_all.
Qed.

End BondCollect.

Section BondKernel.

Context {R : numFieldType} (rt : Runtime R) {mol : Mol R}.
Variable c : Closure mol.

Notation natoms := (natm (atoms mol)).
Notation op := (mat R (nao mol) (nao mol)).

(** In energy mode, with AO arrays of the shapes of the functionals,
    [prop_bonds] returns a dictionary with the single entry [el]. *)
Lemma prop_bonds_energy (i : spin) (j : 'I_(norb mol i)) :
  prop_type c = Energy -> grids_fit c ->
  prop_bonds c i j = Ok [:: (el, Scalar (bond_energy c i j))].
Proof.
move=> energy; rewrite /prop_bonds /bond_energy /bond_el /grids_fit energy.
case: (dft c) => [e|] /=; last by case: (mm_pot c).
by case: (dft_nlc e) => [n|] /=;
   [case/andP=> fit fit_n | rewrite andbT => fit];
   case: (mm_pot c) => [pot|] /=; rewrite /dict_iadd /= ?e_xc_of_fits.
Qed.

Variable kwargs : kwargs_t mol.
Variable r : rep_idx_t mol.
Hypothesis get_r : kwargs_get "rep_idx" kwargs = Ok (KwRepIdx r).
Hypothesis energy : prop_type c = Energy.
Hypothesis fit : grids_fit c.

Lemma bond_results :
  seq_map (fun sj : {s : spin & 'I_(norb mol s)} =>
             prop_bonds c (projT1 sj) (projT2 sj)) (bond_domain r)
  = Ok ([seq [:: (el, v)]
        | v <- [seq Scalar (bond_energy c Alpha j) | j <- r Alpha]]
        ++ [seq [:: (el, v)]
           | v <- [seq Scalar (bond_energy c Beta j) | j <- r Beta]]).
Proof.
rewrite (seq_map_values _
           (fun sj => [:: (el, Scalar (bond_energy c (projT1 sj)
                                     (projT2 sj)))])).
  by move=> sj; apply: prop_bonds_energy.
by rewrite /bond_domain map_cat -!map_comp.
Qed.

(** X13.  In energy mode, without the pool, for a bond assignment whose
    beta list is not longer than its alpha list, the bond decomposition
    returns under [el] the pair of arrays in which the slot at every
    position of either spin holds the term of the orbital at that position
    of the assignment of that spin, and under [struct] the nuclear terms of
    the atoms. *)
Theorem bond_slots_ordered :
  (size (r Beta) <= size (r Alpha))%N ->
  decompose_bonds rt c kwargs false
  = Ok [:: (el, PerSpin [seq Scalar (bond_energy c Alpha j) | j <- r Alpha]
                  [seq Scalar (bond_energy c Beta j) | j <- r Beta]);
           (struct, PerUnit [seq prop_nuc_rep c a | a <- enum 'I_natoms])].
Proof.
move=> le_ba; rewrite /decompose_bonds get_r /= /execute bond_results /=.
have -> : size (r Alpha)
          = size [seq Scalar (bond_energy c Alpha j) | j <- r Alpha].
  by rewrite size_map.
by rewrite collect_bonds_ordered ?size_nseq ?size_map.
Qed.

(** X14.  In energy mode, without the pool, for a bond assignment with an
    empty alpha list and a beta list that is not empty, the bond
    decomposition raises [ZeroDivisionError]: the position of the slot is
    the index of the task modulo the length of the alpha list. *)
Theorem bond_slots_zero_division :
  r Alpha = [::] -> (0 < size (r Beta))%N ->
  decompose_bonds rt c kwargs false = Raise ZeroDivisionError.
Proof.
move=> no_alpha beta_pos.
rewrite /decompose_bonds get_r /= /execute bond_results no_alpha /=.
by case: (r Beta) beta_pos.
Qed.

End BondKernel.

Section BondTotals.

Context {R : numFieldType} (rt : Runtime R) {mol : Mol R}.

Notation op := (mat R (nao mol) (nao mol)).

Lemma traceD_op {m n : nat} (o1 o2 d : mat R m n) (scaling : R) :
  _trace (fun p q => o1 p q + o2 p q) d scaling
  = _trace o1 d scaling + _trace o2 d scaling.
Proof.
rewrite /_trace -mulrDl -big_split /=; congr (_ * _).
apply: eq_bigr => i _; rewrite -big_split /=.
by apply: eq_bigr => j _; rewrite mulrDl.
Qed.

Lemma traceB_op {m n : nat} (o1 o2 d : mat R m n) (scaling : R) :
  _trace (fun p q => o1 p q - o2 p q) d scaling
  = _trace o1 d scaling - _trace o2 d scaling.
Proof.
rewrite /_trace -mulrBl -sumrB; congr (_ * _).
apply: eq_bigr => i _; rewrite -sumrB.
by apply: eq_bigr => j _; rewrite mulrBl.
Qed.

Lemma trace_sum_seq {T : Type} {m n : nat} (l : seq T) (o : mat R m n)
  (d : T -> mat R m n) (scaling : R) :
  \sum_(j <- l) _trace o (d j) scaling
  = _trace o (fun p q => \sum_(j <- l) d j p q) scaling.
Proof.
rewrite big_tnth trace_sum_density; apply: eq_trace => p q.
by rewrite [RHS]big_tnth.
Qed.

Lemma grid_energy_sum_seq {T : Type} {ngrids : nat} (l : seq T)
  (ao : ao_array R ngrids (nao mol)) (eps wts : vec R ngrids)
  (d : T -> op) :
  \sum_(j <- l) grid_energy ao eps wts (d j)
  = grid_energy ao eps wts (fun p q => \sum_(j <- l) d j p q).
Proof.
rewrite big_tnth grid_energy_sum; apply: eq_grid_energy => p q.
by rewrite [RHS]big_tnth.
Qed.

Variable c : Closure mol.
Hypothesis tot_eq :
  forall s p q, rdm1_tot c s p q = make_rdm1 (mo_coeff c s) (mo_occ c s) p q.
Hypothesis occ_dom : occupied_domain c.

Lemma sum_orbital_density (s : spin) (p q : 'I_(nao mol)) :
  \sum_(j <- occupied mol s)
     rdm1_of_orbital (mo_coeff c s) (mo_occ c s) j p q
  = rdm1_tot c s p q.
Proof.
have [uniq_occ occ0] := occ_dom s.
rewrite tot_eq (big_uniq _ uniq_occ) /= big_mkcond /=.
apply: eq_bigr => j _; rewrite rdm1_of_orbitalE.
by case: ifPn => // /occ0 ->; rewrite !mul0r.
Qed.

Lemma sum_bond_el (s : spin) :
  \sum_(j <- occupied mol s) bond_el c s j
  = _trace (spin_sum (vj c)) (rdm1_tot c s) half
    - _trace (vk c s) (rdm1_tot c s) half
    + (_trace (kin_op c) (rdm1_tot c s) 1 + _trace (nuc c) (rdm1_tot c s) 1)
    + (if mm_pot c is Some pot then _trace pot (rdm1_tot c s) 1 else 0).
Proof.
have eq_d o scaling :
    \sum_(j <- occupied mol s)
       _trace o (rdm1_of_orbital (mo_coeff c s) (mo_occ c s) j) scaling
    = _trace o (rdm1_tot c s) scaling.
  rewrite trace_sum_seq; apply: eq_trace => p q.
  exact: sum_orbital_density.
by rewrite /bond_el; case: (mm_pot c) => [pot|];
   rewrite ?addr0 !big_split /= !eq_d traceB_op traceD_op.
Qed.

Lemma sum_bond_energy (s : spin) :
  \sum_(j <- occupied mol s) bond_energy c s j
  = \sum_(j <- occupied mol s) bond_el c s j
    + match dft c with
      | None => 0
      | Some e =>
          grid_energy (ao_value e) (eps_xc e) (grid_weights e) (rdm1_tot c s)
          + match dft_nlc e with
            | None => 0
            | Some n =>
                grid_energy (ao_value_nlc n) (eps_xc_nlc n)
                  (grid_weights_nlc n) (rdm1_tot c s)
            end
      end.
Proof.
have eq_g ngrids (ao : ao_array R ngrids (nao mol)) eps wts :
    \sum_(j <- occupied mol s)
       grid_energy ao eps wts
         (rdm1_of_orbital (mo_coeff c s) (mo_occ c s) j)
    = grid_energy ao eps wts (rdm1_tot c s).
  rewrite grid_energy_sum_seq; apply: eq_grid_energy => p q.
  exact: sum_orbital_density.
rewrite /bond_energy; case: (dft c) => [e|]; last by rewrite addr0.
case: (dft_nlc e) => [n|]; rewrite !big_split /= !eq_g ?addr0 //.
by rewrite addrA.
Qed.

Lemma grid_energy_spin {ngrids : nat} (ao : ao_array R ngrids (nao mol))
  (eps wts : vec R ngrids) (d : spin -> op) :
  grid_energy ao eps wts (spin_sum d)
  = grid_energy ao eps wts (d Alpha) + grid_energy ao eps wts (d Beta).
Proof.
rewrite /grid_energy -big_split /=; apply: eq_bigr => p _.
by rewrite grid_density_spin mulrDr mulrDl.
Qed.

Lemma sum_bond_energies :
  \sum_(j <- occupied mol Alpha) bond_energy c Alpha j
  + \sum_(j <- occupied mol Beta) bond_energy c Beta j
  = el_total c.
Proof.
rewrite !sum_bond_energy !sum_bond_el /el_total /coul_total /exch_total
  /kin_total /nuc_att_total /xc_total !trace_spin_sum.
case: (mm_pot c) => [pot|]; case: (dft c) => [e|];
  rewrite ?trace_spin_sum ?grid_energy_spin;
  try (case: (dft_nlc e) => [n|]; rewrite ?grid_energy_spin);
  ring.
Qed.

End BondTotals.

Section BondConservation.

Context {R : numFieldType} (rt : Runtime R) {mol : Mol R}.

(** X15.  For a closure that [prop_tot] has built in energy mode,
    [prop_bonds] returns for every orbital a dictionary whose single entry
    [el] is the energy of the orbital; when [mol.alpha] and [mol.beta] list
    the orbitals with a non-zero occupation, each once, the energies of the
    occupied orbitals of both spins sum to the electronic energy of the
    total density: Coulomb, exchange, kinetic, nuclear attraction, MM
    potential and exchange-correlation. *)
Theorem bond_energies_conserved (mf : MeanField mol)
  (mo_coeff0 : forall s, mat R (nao mol) (norb mol s))
  (mo_occ0 : forall s, vec R (norb mol s))
  (ref0 : pyref (spin -> mat R (nao mol) (nao mol)))
  (kwargs : kwargs_t mol) (c : Closure mol) (q : charge_t mol) :
  make_closure rt mf mo_coeff0 mo_occ0 ref0 Energy kwargs = Ok (c, q) ->
  (forall i j, prop_bonds c i j = Ok [:: (el, Scalar (bond_energy c i j))])
  /\ (occupied_domain c ->
      \sum_(j <- occupied mol Alpha) bond_energy c Alpha j
      + \sum_(j <- occupied mol Beta) bond_energy c Beta j
      = el_total c).
Proof.
move=> built.
have [energy tot_eq _ _ _] := make_closure_fields rt _ _ _ _ _ _ _ _ built.
have fit := make_closure_grids_fit rt _ _ _ _ _ _ _ _ built.
split=> [i j|occ_dom]; first exact: prop_bonds_energy.
exact: sum_bond_energies.
Qed.

End BondConservation.

(** ** The arrays of the atom-weighted decomposition *)

Section CollectValues.

Context {R : numFieldType}.

Local Arguments collect_items : simpl never.

Lemma eq_full_prop (arr arr' : comp_key -> seq (value R)) :
  (forall key, arr key = arr' key) -> full_prop arr = full_prop arr'.
Proof. by move=> eq_arr; rewrite /full_prop /full_dict /= !eq_arr. Qed.

Lemma collect_values (n : nat) (ds : seq (comp_key -> value R)) (k : nat)
  (arr : comp_key -> seq (value R)) :
  (forall key, size (arr key) = n) -> (k + size ds <= n)%N ->
  collect (zip (iota k (size ds)) (map full_dict ds)) (full_prop arr)
  = Ok (full_prop (fun key => take k (arr key) ++ [seq d key | d <- ds]
                              ++ drop (k + size ds) (arr key))).
Proof.
elim: ds k arr => [|d ds IH] k arr sizes /=.
  move=> _; congr Ok; apply: eq_full_prop => key.
  by rewrite addn0 cat_take_drop.
rewrite addnS => lt_k.
have lt_n : (k < n)%N by apply: leq_trans lt_k; rewrite ltnS leq_addr.
have sizes' key : size (set_nth (d key) (arr key) k (d key)) = n.
  by rewrite size_set_nth sizes; apply/maxn_idPr.
rewrite (collect_items_full n) //= IH ?addSn //.
congr Ok; apply: eq_full_prop => key.
rewrite -addSn -(size_map (fun d => d key)) set_nth_fill ?sizes //.
by rewrite size_map addnS.
Qed.

End CollectValues.

Section AtomArrays.

Context {R : numFieldType} (rt : Runtime R) {mol : Mol R}.

Notation natoms := (natm (atoms mol)).
Notation op := (mat R (nao mol) (nao mol)).


End AtomArrays.

(** ** The k-points of the periodic nuclear attraction *)

Section GammaPoint.

Context {R : numFieldType} {ao_matrices : Type}.
Variable b : Builders R ao_matrices.

(** X19.  Without long-range treatment, for a density-fitting object whose
    own k-points are a 2-d array that [is_zero] accepts (the Gamma point),
    [get_nuc_atomic_df] returns the matrices of the first k-point alone when
    it is called without k-points, and the stack of the matrices of all
    k-points when the same array is passed as [kpts]. *)
Theorem gamma_point_shape (mydf : DF R) (ks : seq (vec R 3))
  (v : ao_matrices) (l : seq ao_matrices) :
  ~~ (_prefer_ccdf mydf || (0 < omega (cell mydf))) ->
  df_kpts mydf = KptN ks -> is_zero (KptN ks) ->
  get_pp_loc_part1 _ _ b (cell mydf) ks false = Ok (v :: l) ->
  get_nuc_atomic_df b mydf None = Ok (OneKpt v)
  /\ get_nuc_atomic_df b mydf (Some (KptN ks)) = Ok (AllKpts (v :: l)).
Proof.
move=> /negPf no_guard own zero built.
by rewrite /get_nuc_atomic_df /_check_kpts own zero /= no_guard built.
Qed.

End GammaPoint.

(** ** The summary of a decomposition *)

Section Summary.

Context {P T : Type}.

(** X20.  The dictionary of [collect_res] holds under [ref] a label of
    [_ref]: a Kohn-Sham label (RKS, ROKS, UKS) exactly when the dictionary
    has an entry [xc], that is when [decomp.xc] is not empty, and a
    Hartree-Fock label (RHF, ROHF, UHF) otherwise; the entries [loc] and
    [pop] are present exactly when [decomp.orbs] is ['localized']. *)
Theorem collect_res_labels (mol : ResMol) (decomp : ResDecomp P T) :
  exists2 label,
    res_get "ref" (collect_res mol decomp) = Some (ResStr label)
  & [/\ is_ks_label label = isSome (res_get "xc" (collect_res mol decomp)),
        is_ks_label label = ~~ String.eqb (r_xc decomp) EmptyString,
        is_hf_label label = ~~ is_ks_label label,
        isSome (res_get "loc" (collect_res mol decomp))
        = String.eqb (r_orbs decomp) "localized"
      & isSome (res_get "pop" (collect_res mol decomp))
        = String.eqb (r_orbs decomp) "localized"].
Proof.
exists (_ref mol decomp).
  by rewrite /collect_res; case: (String.eqb (r_orbs decomp) _);
     case: (String.eqb (r_xc decomp) _).
by rewrite /collect_res /_ref; case: (String.eqb (r_ref decomp) _);
   case: (m_spin mol == 0); case: (String.eqb (r_orbs decomp) _);
   case: (String.eqb (r_xc decomp) _).
Qed.

End Summary.

(** ** The bond strategy in dipole mode *)

Section BondDipoles.

Context {R : numFieldType} (rt : Runtime R) {mol : Mol R}.

Notation op := (mat R (nao mol) (nao mol)).

Lemma make_closure_dipole (mf : MeanField mol)
  (mo_coeff0 : forall s, mat R (nao mol) (norb mol s))
  (mo_occ0 : forall s, vec R (norb mol s))
  (ref0 : pyref (spin -> op)) (kwargs : kwargs_t mol) (c : Closure mol)
  (q : charge_t mol) :
  make_closure rt mf mo_coeff0 mo_occ0 ref0 Dipole kwargs = Ok (c, q) ->
  exists2 origin, kwargs_get "dipole_origin" kwargs = Ok (KwCoord origin)
                  & ao_dip c = Some (int1e_r mol origin).
Proof.
rewrite /make_closure => H.
case: (bind_Ok H) => ao_dip0 Hd {}H; case: (bind_Ok H) => wq _ {}H.
case: (bind_Ok H) => d _ [<- _] /=.
case: (bind_Ok Hd) => v get_v {Hd}; case: v get_v => //= origin get_o [<-].
by exists origin.
Qed.

(** X21.  For a closure that [prop_tot] has built in dipole mode, the dipole
    integrals are those at the origin passed under the key [dipole_origin];
    [prop_bonds] returns for every orbital a dictionary whose single entry
    [el] is minus the trace of the three dipole integrals with the density
    of the orbital; and when [mol.alpha] and [mol.beta] list the orbitals
    with a non-zero occupation, each once, the traces of the occupied
    orbitals of both spins sum to the trace with the total density. *)
Theorem bond_dipoles_conserved (mf : MeanField mol)
  (mo_coeff0 : forall s, mat R (nao mol) (norb mol s))
  (mo_occ0 : forall s, vec R (norb mol s))
  (ref0 : pyref (spin -> op)) (kwargs : kwargs_t mol) (c : Closure mol)
  (q : charge_t mol) :
  make_closure rt mf mo_coeff0 mo_occ0 ref0 Dipole kwargs = Ok (c, q) ->
  exists2 origin, kwargs_get "dipole_origin" kwargs = Ok (KwCoord origin)
  & [/\ ao_dip c = Some (int1e_r mol origin),
        forall i j, prop_bonds c i j
                    = Ok [:: (el, bond_dip c (int1e_r mol origin) i j)]
      & occupied_domain c ->
        forall x,
          \sum_(j <- occupied mol Alpha)
             _trace_x (int1e_r mol origin)
               (rdm1_of_orbital (mo_coeff c Alpha) (mo_occ c Alpha) j) 1 x
          + \sum_(j <- occupied mol Beta)
              _trace_x (int1e_r mol origin)
                (rdm1_of_orbital (mo_coeff c Beta) (mo_occ c Beta) j) 1 x
          = _trace_x (int1e_r mol origin) (spin_sum (rdm1_tot c)) 1 x].
Proof.
move=> built.
have [dipole tot_eq _ _ _] := make_closure_fields rt _ _ _ _ _ _ _ _ built.
have [origin get_o eq_dip] := make_closure_dipole _ _ _ _ _ _ _ built.
exists origin => //; split=> // [i j|occ_dom x].
  by rewrite /prop_bonds dipole eq_dip.
have eq_d s :
    \sum_(j <- occupied mol s)
       _trace_x (int1e_r mol origin)
         (rdm1_of_orbital (mo_coeff c s) (mo_occ c s) j) 1 x
    = _trace (int1e_r mol origin x) (rdm1_tot c s) 1.
  rewrite [LHS](trace_sum_seq _ (int1e_r mol origin x)).
  by apply: eq_trace => p q'; apply: sum_orbital_density.
by rewrite !eq_d -trace_spin_sum.
Qed.

End BondDipoles.

(** ** Weight tables with too few rows *)

Section ShortWeights.

Context {R : numFieldType} (rt : Runtime R) {mol : Mol R}.
Variable c : Closure mol.
Variable w : weights_t mol.
Hypothesis bound : weights c = Some w.

Notation natoms := (natm (atoms mol)).
Notation op := (mat R (nao mol) (nao mol)).

Lemma getitem_out {T : Type} (l : seq T) (k : nat) :
  (size l <= k)%N -> getitem l k = Raise IndexError.
Proof. by move=> le_k; rewrite /getitem nth_default // size_map. Qed.

Lemma weighted_rdm1_short (i : spin) (a : 'I_natoms)
  (l : seq (nat * 'I_(norb mol i))) (acc : op) :
  ~~ all (fun mj : nat * 'I_(norb mol i) => (mj.1 < size (rows (w i)))%N) l ->
  weighted_rdm1 c i a l acc = Raise IndexError.
Proof.
elim: l acc => [|[m j] l IH] acc //=; rewrite /weight_of bound.
case: ltnP => [lt_m|le_m] /=; last by rewrite getitem_out.
by rewrite (getitem_nth (fun _ => 0)) //=; apply: IH.
Qed.

Lemma zip_iota_all {T : Type} (l : seq T) (k n : nat) :
  all (fun mj : nat * T => (mj.1 < n)%N) (zip (iota k (size l)) l)
  = (size l == 0%N) || (k + size l <= n)%N.
Proof.
elim: l k => [|x l IH] k //=; rewrite IH addnS addSn.
case: (size l) => [|m] /=; first by rewrite addn0 andbT.
by rewrite andb_idl // => /ltnW; apply: leq_trans; rewrite addnS ltnS leq_addr.
Qed.

Lemma enumerate_all {T : Type} (l : seq T) (n : nat) :
  all (fun mj : nat * T => (mj.1 < n)%N) (enumerate l) = (size l <= n)%N.
Proof.
by rewrite /enumerate zip_iota_all add0n; case: (size l).
Qed.

Lemma prop_atom_short (a : 'I_natoms) :
  ~~ rows_cover w -> prop_atom c a = Raise IndexError.
Proof.
rewrite /rows_cover negb_and /prop_atom /prop_atom_spin.
case cover_a: (size (occupied mol Alpha) <= size (rows (w Alpha)))%N => /=.
  move=> short_b.
  have [Da -> _] := weighted_rdm1_density c w bound Alpha a cover_a.
  rewrite /= weighted_rdm1_short ?enumerate_all //.
  by rewrite /init_res; case: (prop_type c).
by move=> _; rewrite weighted_rdm1_short // enumerate_all cover_a.
Qed.

End ShortWeights.

Section WeightRows.

Context {R : numFieldType} (rt : Runtime R) {mol : Mol R}.

Notation natoms := (natm (atoms mol)).
Notation op := (mat R (nao mol) (nao mol)).

(** X22.  For a closure that [prop_tot] has built in energy mode with the
    keyword [weights], [prop_atom] returns for an atom exactly when the
    table of either spin has a row for every occupied orbital of that spin;
    when a table has fewer rows, [prop_atom] raises [IndexError] for every
    atom. *)
Theorem prop_atom_needs_rows (mf : MeanField mol)
  (mo_coeff0 : forall s, mat R (nao mol) (norb mol s))
  (mo_occ0 : forall s, vec R (norb mol s))
  (ref0 : pyref (spin -> op)) (kwargs : kwargs_t mol) (c : Closure mol)
  (q : charge_t mol) (w : weights_t mol) :
  make_closure rt mf mo_coeff0 mo_occ0 ref0 Energy kwargs = Ok (c, q) ->
  weights c = Some w ->
  forall a, is_ok (prop_atom c a) = rows_cover w
            /\ (~~ rows_cover w -> prop_atom c a = Raise IndexError).
Proof.
move=> built bound a.
have [energy _ _ _ _] := make_closure_fields rt _ _ _ _ _ _ _ _ built.
have fit := make_closure_grids_fit rt _ _ _ _ _ _ _ _ built.
split; last exact: prop_atom_short.
case cover: (rows_cover w).
  by rewrite (prop_atom_energy_dict c w).
by rewrite (prop_atom_short c w) ?cover.
Qed.

End WeightRows.

(** ** The properties at the example inputs *)

Section AtExamples.

Import Examples Cases.

Lemma h2_occupied_any (c : Closure h2_mol) : occupied_domain c.
Proof. by move=> s; split=> // j; rewrite ord1 inE eqxx. Defined.

Lemma h2_lda_built :
  exists cq, make_closure rt4 h2_lda h2_mo_coeff h2_mo_occ RefNone Energy
               (h2_kwargs h2_even) = Ok cq.
Proof. by eexists. Defined.

Lemma h2_gga_built :
  exists cq, make_closure rt4 h2_gga h2_mo_coeff h2_mo_occ RefNone Energy
               (h2_kwargs h2_even) = Ok cq.
Proof. by eexists. Defined.

(** X1 for two unit charges whose orbitals are shared evenly. *)
Lemma atom_traces_conserved_h2 :
  \sum_a kin_atom (h2_closure h2_even) h2_even a
  = kin_total (h2_closure h2_even).
Proof.
have [q built] := h2_even_built.
have [_ /(_ (h2_occupied _) h2_even_complete) [_ _ kin_eq _]] :=
  atom_traces_conserved rt4 h2_mf h2_mo_coeff h2_mo_occ RefNone
    (h2_kwargs h2_even) (h2_closure h2_even) q h2_even built erefl isT.
exact: kin_eq.
Defined.

(** X2 for the LDA functional on them. *)
Lemma atom_xc_conserved_lda :
  exists c q,
    make_closure rt4 h2_lda h2_mo_coeff h2_mo_occ RefNone Energy
      (h2_kwargs h2_even) = Ok (c, q)
    /\ \sum_a xc_atom c h2_even a = xc_total c.
Proof.
have [[c q] built] := h2_lda_built; exists c, q; split=> //.
have bound : weights c = Some h2_even.
  by rewrite (make_closure_weights _ _ _ _ _ _ _ _ _ built).
have [_ sum_xc] :=
  atom_xc_conserved rt4 h2_lda h2_mo_coeff h2_mo_occ RefNone
    (h2_kwargs h2_even) c q h2_even built bound isT.
by apply: sum_xc; [exact: h2_occupied_any | exact: h2_even_complete].
Defined.

(** X3 for the second of the two unit charges. *)
Lemma el_sums_components_h2 :
  component (atom_dict (h2_closure h2_even) h2_even atom1) el
  = \sum_(key <- COMP_KEYS_el)
       component (atom_dict (h2_closure h2_even) h2_even atom1) key.
Proof.
have returns :=
  prop_atom_energy_dict (h2_closure h2_even) h2_even erefl atom1 erefl isT isT.
exact: (proj2 (el_sums_components (h2_closure h2_even) atom1 _ erefl
                 (or_introl returns))).
Defined.

(** X4 for the two unit charges with one basis function each. *)
Lemma eda_traces_conserved_h2 :
  \sum_a kin_eda (h2_closure h2_even) a = kin_total (h2_closure h2_even).
Proof.
by have [_ [_ _ _ kin_eq _]] :=
  eda_traces_conserved (h2_closure h2_even) erefl.
Defined.

(** X5 for the GGA functional on them. *)
Lemma eda_xc_conserved_gga :
  exists c q,
    [/\ make_closure rt4 h2_gga h2_mo_coeff h2_mo_occ RefNone Energy
          (h2_kwargs h2_even) = Ok (c, q),
        forall a, is_ok (prop_eda c a)
      & \sum_a xc_eda c a = xc_total c].
Proof.
have [[c q] built] := h2_gga_built; exists c, q.
have [_ returns sum_xc] :=
  eda_xc_conserved rt4 h2_gga h2_mo_coeff h2_mo_occ RefNone
    (h2_kwargs h2_even) c q built erefl.
split=> //; apply: returns => e dft_c.
have := make_closure_dft rt4 _ _ _ _ _ _ _ _ built.
by rewrite dft_c /= => -[[_ ->] _].
Defined.

(** X6 for the LDA functional on them. *)
Lemma eda_lda_index_error_h2 :
  prop_tot rt4 h2_lda h2_mo_coeff h2_mo_occ RefNone "mulliken" Energy Eda
    false (h2_kwargs h2_even) = Raise IndexError.
Proof.
have [[c q] built] := h2_lda_built.
exact: (proj2 (eda_lda_index_error rt4 h2_lda h2_mo_coeff h2_mo_occ RefNone
                 (h2_kwargs h2_even) c q lda "mulliken" erefl erefl built)
          isT).
Defined.

Lemma h2_dipole_built :
  exists cq, make_closure rt4 h2_mf h2_mo_coeff h2_mo_occ RefNone Dipole
               dipole_kwargs = Ok cq.
Proof. by eexists. Defined.


(** X8 for the request for orbital-wise energies. *)
Lemma main_orbs_key_error_h2 :
  main rt4 (h2_up h2_even) orbs_request h2_mf None None None
  = Raise (KeyError "rep_idx").
Proof.
exact: (proj2 (main_orbs_key_error rt4 (h2_up h2_even) orbs_request h2_mf
                 None None None erefl) erefl erefl erefl).
Defined.

(** X9 for arrays of three alpha rows and two beta rows. *)
Lemma array_weights_shape_error_w32 :
  prop_tot rt4 h2_mf h2_mo_coeff h2_mo_occ RefNone "mulliken" Energy Atoms
    false (h2_kwargs w32) = Raise ValueError.
Proof.
exact: (array_weights_shape_error rt4 h2_mf h2_mo_coeff h2_mo_occ RefNone
          (h2_kwargs w32) w32 erefl "mulliken" Atoms false _ _ erefl erefl
          isT isT isT).
Defined.

Lemma h2_w21_built :
  exists cq, make_closure rt4 h2_mf h2_mo_coeff h2_mo_occ RefNone Energy
               (h2_kwargs w21) = Ok cq.
Proof. by eexists. Defined.

Lemma li_built :
  exists cq, make_closure rt4 li_mf li_mo_coeff li_mo_occ RefNone Energy
               li_kwargs = Ok cq.
Proof. by eexists. Defined.


(** X10 for arrays of two alpha rows and one beta row: the beta weight is
    counted twice. *)
Lemma array_weights_broadcast_w21 :
  exists c qv,
    make_closure rt4 h2_mf h2_mo_coeff h2_mo_occ RefNone Energy
      (h2_kwargs w21) = Ok (c, ChargeArr qv)
    /\ forall a, qv a = atom_charges (atoms h2_mol) a
                        - (population [:: fun _ => half; fun _ => half] a
                           + 2%:R * half).
Proof.
have [[c ch] built] := h2_w21_built.
have [_ [qv eq_ch eq_q]] :=
  array_weights_broadcast rt4 h2_mf h2_mo_coeff h2_mo_occ RefNone
    (h2_kwargs w21) w21 erefl Energy c ch _ _ erefl erefl isT built.
by exists c, qv; rewrite -eq_ch.
Defined.

Lemma no_range_separation (R : numFieldType) :
  ~~ ((10%:R ^+ 10)^-1 < `|0 : R|).
Proof.
by rewrite normr0 invr_lt0 Order.POrderTheory.lt_gtF // exprn_gt0 // ltr0n.
Defined.

(** X11 for the LDA functional on the two unit charges. *)
Lemma pure_functional_no_exchange_lda :
  exists c q,
    make_closure rt4 h2_lda h2_mo_coeff h2_mo_occ RefNone Energy
      (h2_kwargs h2_even) = Ok (c, q)
    /\ forall s p q', vk c s p q' = 0.
Proof.
have [[c q] built] := h2_lda_built; exists c, q; split=> //.
by have [vk0 _ _] :=
  pure_functional_no_exchange rt4 h2_lda h2_mo_coeff h2_mo_occ RefNone
    (h2_kwargs h2_even) c q lda erefl erefl (no_range_separation _) built.
Defined.

Lemma ghost_built :
  exists cq, make_closure rt4 ghost_mf ghost_mo_coeff ghost_mo_occ RefNone
               Energy ghost_kwargs = Ok cq.
Proof. by eexists. Defined.

Lemma ghost_zero : zero_weights ghost_weights ghost.
Proof. by move=> s [|[|m]]. Defined.

(** X12 for the ghost centre beside a unit charge. *)
Lemma ghost_atom_zero_h :
  exists c q,
    make_closure rt4 ghost_mf ghost_mo_coeff ghost_mo_occ RefNone Energy
      ghost_kwargs = Ok (c, q)
    /\ exists2 res, prop_atom c ghost = Ok res
                    & forall key, dict_get key res = Ok (Scalar 0).
Proof.
have [[c q] built] := ghost_built; exists c, q; split=> //.
have bound : weights c = Some ghost_weights.
  by rewrite (make_closure_weights _ _ _ _ _ _ _ _ _ built).
exact: (ghost_atom_zero rt4 ghost_mf ghost_mo_coeff ghost_mo_occ RefNone
          ghost_kwargs c q ghost_weights ghost built bound isT ghost_zero
          erefl erefl).
Defined.

(** X13 for the first orbital of either spin of the open-shell system. *)
Lemma bond_slots_ordered_open :
  decompose_bonds rt4 open_closure
    [:: ("rep_idx"%string, KwRepIdx first_orbitals)] false
  = Ok [:: (el, PerSpin
                  [seq Scalar (bond_energy open_closure Alpha j)
                  | j <- first_orbitals Alpha]
                  [seq Scalar (bond_energy open_closure Beta j)
                  | j <- first_orbitals Beta]);
           (struct, PerUnit [seq prop_nuc_rep open_closure a
                            | a <- enum 'I_(natm (atoms open_mol))])].
Proof.
exact: (bond_slots_ordered rt4 open_closure
          [:: ("rep_idx"%string, KwRepIdx first_orbitals)] first_orbitals
          erefl erefl isT isT).
Defined.

(** X14 for an assignment with a beta orbital and no alpha orbital. *)
Lemma bond_slots_zero_division_open :
  decompose_bonds rt4 open_closure
    [:: ("rep_idx"%string, KwRepIdx beta_only)] false
  = Raise ZeroDivisionError.
Proof.
exact: (bond_slots_zero_division rt4 open_closure
          [:: ("rep_idx"%string, KwRepIdx beta_only)] beta_only erefl erefl
          isT erefl isT).
Defined.

(** X15 for the two unit charges. *)
Lemma bond_energies_conserved_h2 :
  \sum_(j <- occupied h2_mol Alpha) bond_energy (h2_closure h2_even) Alpha j
  + \sum_(j <- occupied h2_mol Beta) bond_energy (h2_closure h2_even) Beta j
  = el_total (h2_closure h2_even).
Proof.
have [q built] := h2_even_built.
exact: (proj2 (bond_energies_conserved rt4 h2_mf h2_mo_coeff h2_mo_occ
                 RefNone (h2_kwargs h2_even) (h2_closure h2_even) q built)
          (h2_occupied _)).
Defined.


Lemma h2_bare_built :
  exists cq, make_closure rt4 h2_mf h2_mo_coeff h2_mo_occ RefNone Energy
               [::] = Ok cq.
Proof. by eexists. Defined.

(** X17 for a call without keyword arguments. *)
Lemma no_weights_name_error_h2 :
  exists c q,
    [/\ make_closure rt4 h2_mf h2_mo_coeff h2_mo_occ RefNone Energy [::]
        = Ok (c, q),
        q = ChargeZero
      & forall a, prop_atom c a = Raise (NameError "weights")].
Proof.
have [[c q] built] := h2_bare_built; exists c, q.
have [eq_q _ raises] :=
  no_weights_name_error rt4 h2_mf h2_mo_coeff h2_mo_occ RefNone Energy [::]
    c q erefl built.
by split=> //; apply: raises.
Defined.

(** X18 for a 2-d array of AO values and the class LDA. *)
Lemma make_rho_one_density_lda :
  is_ok (_make_rho (Ao2 (fun _ _ => 1) : ao_array rat 1 (nao h2_mol))
           (Rdm3 (fun _ _ _ => 1)) (RefNone : pyref unit) LDA).
Proof.
exact: (proj1 (proj1 (make_rho_one_density
                        (Ao2 (fun _ _ => 1) : ao_array rat 1 (nao h2_mol))
                        (Rdm3 (fun _ _ _ => 1)) (RefNone : pyref unit) LDA))
          isT).
Defined.

Lemma is_zero_gamma (R : numFieldType) :
  is_zero (KptN [:: (fun _ => 0) : vec R 3]).
Proof.
rewrite /is_zero big_cons big_nil addr0 big1 => [x _|]; first exact: normr0.
by rewrite invr_gt0 exprn_gt0 // ltr0n.
Defined.

(** X19 for the density-fitting object at the Gamma point. *)
Lemma gamma_point_shape_unit :
  get_nuc_atomic_df unit_builders gamma_df None = Ok (OneKpt tt)
  /\ get_nuc_atomic_df unit_builders gamma_df (Some (KptN [:: fun _ => 0]))
     = Ok (AllKpts [:: tt]).
Proof.
apply: (gamma_point_shape unit_builders gamma_df [:: fun _ => 0] tt [::])
  => //; exact: is_zero_gamma.
Defined.

(** X20 for a restricted Kohn-Sham calculation. *)
Lemma collect_res_labels_rks :
  exists2 label,
    res_get "ref" (collect_res (MkResMol 0 "C1") rks_decomp)
    = Some (ResStr label)
  & is_ks_label label.
Proof.
have [label get_label [eq_ks _ _ _ _]] :=
  collect_res_labels (MkResMol 0 "C1") rks_decomp.
by exists label => //; rewrite eq_ks.
Defined.

(** X21 for the two unit charges and the origin of the coordinates. *)
Lemma bond_dipoles_conserved_h2 :
  exists c q,
    make_closure rt4 h2_mf h2_mo_coeff h2_mo_occ RefNone Dipole dipole_kwargs
    = Ok (c, q)
    /\ forall i j,
         prop_bonds c i j
         = Ok [:: (el, bond_dip c (int1e_r h2_mol (fun _ => 0)) i j)].
Proof.
have [[c q] built] := h2_dipole_built; exists c, q; split=> //.
have [origin [<-] [_ returns _]] :=
  bond_dipoles_conserved rt4 h2_mf h2_mo_coeff h2_mo_occ RefNone
    dipole_kwargs c q built.
exact: returns.
Defined.

Lemma h2_no_rows_built :
  exists q, make_closure rt4 h2_mf h2_mo_coeff h2_mo_occ RefNone Energy
              (h2_kwargs no_rows) = Ok (h2_closure no_rows, q).
Proof. by eexists. Defined.

(** X22 for the two unit charges and tables without a row: the second
    atom gets no result. *)
Lemma prop_atom_needs_rows_empty :
  is_ok (prop_atom (h2_closure no_rows) atom1) = false
  /\ prop_atom (h2_closure no_rows) atom1 = Raise IndexError.
Proof.
have [q built] := h2_no_rows_built.
have [returns raises] :=
  prop_atom_needs_rows rt4 h2_mf h2_mo_coeff h2_mo_occ RefNone
    (h2_kwargs no_rows) (h2_closure no_rows) q no_rows built erefl atom1.
by split; [rewrite returns | apply: raises].
Defined.

End AtExamples.
